(** * The transformation pipeline of the obfuscator, embedded in Rocq

    Two classes of the source are embedded here:

    - [JavaScriptObfuscator], the stage driver ([obfuscate],
      [transformAstTree], [generateCode], ...);
    - [NodeTransformersRunner], the front end of the scheduler
      ([transform], [buildNormalizedNodeTransformers],
      [mergeVisitorsForDirection]).

    Both are effectful: they log, print, read the clock and call injected
    collaborators that may raise.  The embedding is a state-and-exception
    monad over an explicit [World]; every observable action appends an
    [Event] to the world's trace, so that temporal statements ("stage A runs
    before stage B", "no visitor was invoked") are statements about lists.
    Collaborators that the two classes import or receive by injection
    (parser, generator, code transformers, node transformers, guards) are
    parameters. *)

From Stdlib Require Import String List ZArith Bool Arith Lia.
From Stdlib Require QArith.
Import ListNotations.
Local Open Scope string_scope.
Local Open Scope list_scope.

Set Implicit Arguments.

(* ===================================================================== *)
(** * Enumerations *)
(* ===================================================================== *)

(** [enums/node-transformers/NodeTransformationStage] *)
Module NodeTransformationStage.
Inductive t : Set :=
| Initializing
| Preparing
| DeadCodeInjection
| ControlFlowFlattening
| RenameProperties
| Converting
| RenameIdentifiers
| StringArray
| Simplifying
| Finalizing.
End NodeTransformationStage.

(** [enums/code-transformers/CodeTransformationStage] *)
Module CodeTransformationStage.
Inductive t : Set :=
| PreparingTransformers
| FinalizingTransformers.
End CodeTransformationStage.

(** [enums/logger/LoggingMessage] *)
Module LoggingMessage.
Inductive t : Set :=
| Version
| ObfuscationStarted
| RandomGeneratorSeed
| CodeTransformationStage
| NodeTransformationStage
| EmptySourceCode
| ObfuscationCompleted.
End LoggingMessage.

(** [enums/source-map/SourceMapSourcesMode] *)
Module SourceMapSourcesMode.
Inductive t : Set :=
| SourcesContent
| Sources.

Definition eqb (a b : t) : bool :=
  match a, b with
  | SourcesContent, SourcesContent => true
  | Sources, Sources => true
  | _, _ => false
  end.
End SourceMapSourcesMode.

(** [enums/code-transformers/CodeTransformer]: the members the driver names. *)
Inductive CodeTransformer : Set :=
| HashbangOperatorTransformer.

(** [enums/node-transformers/NodeTransformer]: the members the driver names. *)
Inductive NodeTransformer : Set :=
| BooleanLiteralTransformer
| BlockStatementControlFlowTransformer
| BlockStatementSimplifyTransformer
| ClassFieldTransformer
| CommentsTransformer
| CustomCodeHelpersTransformer
| DeadCodeInjectionTransformer
| EscapeSequenceTransformer
| EvalCallExpressionTransformer
| ExportSpecifierTransformer
| ExpressionStatementsMergeTransformer
| FunctionControlFlowTransformer
| IfStatementSimplifyTransformer
| LabeledStatementTransformer
| RenamePropertiesTransformer
| MemberExpressionTransformer
| MetadataTransformer
| NumberLiteralTransformer
| NumberToNumericalExpressionTransformer
| ObfuscatingGuardsTransformer
| ObjectExpressionKeysTransformer
| ObjectExpressionTransformer
| ObjectPatternPropertiesTransformer
| ParentificationTransformer
| ScopeIdentifiersTransformer
| ScopeThroughIdentifiersTransformer
| SplitStringTransformer
| StringArrayControlFlowTransformer
| StringArrayRotateFunctionTransformer
| StringArrayScopeCallsWrapperTransformer
| StringArrayTransformer
| TemplateLiteralTransformer
| DirectivePlacementTransformer
| VariableDeclarationsMergeTransformer
| VariablePreserveTransformer.

Scheme Equality for NodeTransformer.

(** [enums/node-transformers/VisitorDirection] *)
Inductive VisitorDirection : Set :=
| Enter
| Leave.

(** [estraverse.VisitorOption]: the sentinels of the visitor protocol,
    skip-subtree and abort-traversal. *)
Inductive VisitorOption : Set :=
| Skip
| Break.

(* ===================================================================== *)
(** * Data *)
(* ===================================================================== *)

(** [ESTree.Comment] *)
Record Comment : Set := mkComment {
  comment_block : bool;
  comment_value : string
}.

(** The metadata bag of a node; [ignoredNode] may be missing. *)
Record Metadata : Set := mkMetadata {
  ignoredNode : option bool
}.

(** [ESTree.Node], kept generic: a [type] tag and the owned children
    ([body] for a [Program]).  [leadingComments] and [trailingComments] are
    optional properties: [None] is an absent property, [Some []] an array
    that is present and empty (which JavaScript counts as truthy). *)
#[local] Unset Elimination Schemes.
Inductive Node : Type :=
| mkNode (type : string)
         (body : list Node)
         (leadingComments : option (list Comment))
         (trailingComments : option (list Comment))
         (metadata : option Metadata).
#[local] Set Elimination Schemes.

Definition node_type (n : Node) : string :=
  match n with mkNode t _ _ _ _ => t end.
Definition body (n : Node) : list Node :=
  match n with mkNode _ b _ _ _ => b end.
Definition leadingComments (n : Node) : option (list Comment) :=
  match n with mkNode _ _ l _ _ => l end.
Definition trailingComments (n : Node) : option (list Comment) :=
  match n with mkNode _ _ _ t _ => t end.
Definition metadata (n : Node) : option Metadata :=
  match n with mkNode _ _ _ _ m => m end.

(** What a caller may hand to [obfuscate]: the signature says [string],
    the body tests [typeof] at run time. *)
Inductive JSValue : Type :=
| JSUndefined
| JSNull
| JSBoolean (b : bool)
| JSNumber (z : Z)
| JSString (s : string)
| JSObject.

Definition typeof (v : JSValue) : string :=
  match v with
  | JSUndefined => "undefined"
  | JSNull => "object"
  | JSBoolean _ => "boolean"
  | JSNumber _ => "number"
  | JSString _ => "string"
  | JSObject => "object"
  end.

(** [IOptions], the fields the pipeline reads. *)
Record IOptions : Type := mkOptions {
  compact : bool;
  deadCodeInjection : bool;
  renameProperties : bool;
  simplify : bool;
  sourceMap : bool;
  sourceMapSourcesMode : SourceMapSourcesMode.t;
  inputFileName : string
}.

(** [acorn.Options['ecmaVersion']] *)
Inductive EcmaVersion : Set :=
| EcmaYear (n : Z)
| EcmaLatest.

(** [acorn.Options], the fields of [parseOptions]. *)
Record AcornOptions : Set := mkAcornOptions {
  ecmaVersion : EcmaVersion;
  allowHashBang : bool;
  allowImportExportEverywhere : bool;
  allowReturnOutsideFunction : bool;
  locations : bool;
  ranges : bool
}.

(** [escodegen.GenerateOptions], the fields the driver sets.  A property
    that the object literal does not define is [None]. *)
Record GenerateOptions : Set := mkGenerateOptions {
  gen_comment : bool;
  gen_verbatim : string;
  gen_sourceMapWithCode : bool;
  gen_format_compact : option bool;
  gen_sourceMap : option string;
  gen_sourceContent : option string
}.

(** The source-map object of the generator.  The driver only ever calls
    [toString] on it, so the object is kept as what [toString] yields. *)
Record SourceMapGenerator : Set := mkSourceMapGenerator {
  toString : string
}.

(** What [escodegen.generate] hands back under [sourceMapWithCode]: the
    code and a source-map object, or no map at all ([None]: the property
    is [null] or [undefined]). *)
Record EscodegenOutput : Set := mkEscodegenOutput {
  raw_code : string;
  raw_map : option SourceMapGenerator
}.

(** [IGeneratorOutput] once [generateCode] has turned the map into a string. *)
Record IGeneratorOutput : Set := mkGeneratorOutput {
  code : string;
  map : string
}.

(** Modelled from the spec: the result object and its factory
    ([IObfuscationResult], [TObfuscationResultFactory]) are declared outside
    the embedded files; the spec gives the result as the pair [{ code, map }]. *)
Record IObfuscationResult : Set := mkObfuscationResult {
  obfuscatedCode : string;
  obfuscatedMap : string
}.

(** What a visitor function may return ([TVisitorResult]). *)
Inductive TVisitorResult : Type :=
| RNode (n : Node)
| ROption (o : VisitorOption)
| RVoid.

(** What a variable declared [ESTree.Node] holds when the runner hands it
    to a visitor function: a node or a sentinel of estraverse.  The
    runner asks [NodeGuards.isNode] about every result of a visitor that
    is truthy, a sentinel as much as a node, and goes on with whatever
    the guard let through. *)
Inductive NodeValue : Type :=
| ANode (n : Node)
| ASentinel (o : VisitorOption).
Coercion ANode : Node >-> NodeValue.

(** Such a value as the answer of a callback. *)
Definition toResult (value : NodeValue) : TVisitorResult :=
  match value with
  | ANode n => RNode n
  | ASentinel o => ROption o
  end.

(* ===================================================================== *)
(** * Outcomes, events and the world *)
(* ===================================================================== *)

(** The error kinds of the pipeline, and [TypeError] for a property read
    on [undefined]. *)
Inductive Exception : Set :=
| ParseError (msg : string)
| GenerateError (msg : string)
| ScheduleCycle (names : list NodeTransformer)
| TransformerFailure (msg : string)
| TypeError (msg : string).

Inductive Result (A : Type) : Type :=
| Ok (a : A)
| Throw (e : Exception).
Arguments Throw {A} e.

Definition result_void {A : Type} (r : Result A) : Result unit :=
  match r with
  | Ok _ => Ok tt
  | Throw e => Throw e
  end.

(** Values that reach the logger or the console. *)
Inductive LogValue : Type :=
| VString (s : string)
| VNumber (q : QArith_base.Q)
| VCodeStage (s : CodeTransformationStage.t)
| VNodeStage (s : NodeTransformationStage.t)
| VProgram (ast : Node)
| VOutput (o : IGeneratorOutput)
| VGroups (g : list (list NodeTransformer)).

(** A call to a collaborator, with its arguments and its outcome. *)
Inductive Call : Type :=
| GetInputSeed (r : Result string)
| CodeTransform (src : string) (names : list CodeTransformer)
                (stage : CodeTransformationStage.t) (r : Result string)
| Parse (src : string) (opts : AcornOptions) (r : Result Node)
| NodeTransform (ast : Node) (names : list NodeTransformer)
                (stage : NodeTransformationStage.t) (r : Result Node)
| Generate (ast : Node) (params : GenerateOptions) (r : Result EscodegenOutput)
| Instantiate (name : NodeTransformer) (r : Result unit)
| GetVisitor (name : NodeTransformer) (stage : NodeTransformationStage.t)
             (r : Result bool)
| BuildGroups (names : list NodeTransformer)
              (r : Result (list (list NodeTransformer)))
| Replace (ast : Node) (enterVisitors leaveVisitors : nat)
| VisitorCall (direction : VisitorDirection) (i : nat)
              (node : NodeValue) (parentNode : option Node)
              (r : Result TVisitorResult).

Inductive Event : Type :=
| LoggerInfo (m : LoggingMessage.t) (args : list LogValue)
| LoggerWarn (m : LoggingMessage.t) (args : list LogValue)
| LoggerSuccess (m : LoggingMessage.t) (args : list LogValue)
| ConsoleLog (args : list LogValue)
| Called (c : Call).

(** The world one call runs in.  [services] is the state owned by the
    injected collaborators (random generator, transformer storages);
    [clock] and [ticks] give the successive readings of [Date.now()];
    [env] is [process.env]; [trace] lists what happened, oldest first. *)
Record World (S : Type) : Type := mkWorld {
  services : S;
  clock : nat -> Z;
  ticks : nat;
  env : string -> option string;
  trace : list Event
}.

(** A collaborator acts on the services only. *)
Definition Service (S A : Type) : Type := S -> Result A * S.

(** The monad of the embedded code: state is threaded, and a raised
    exception keeps the state reached so far. *)
Definition M (S A : Type) : Type := World S -> Result A * World S.

Section Monad.
Variable S : Type.

Definition ret {A : Type} (a : A) : M S A :=
  fun w => (Ok a, w).

Definition throw {A : Type} (e : Exception) : M S A :=
  fun w => (Throw e, w).

Definition bind {A B : Type} (m : M S A) (k : A -> M S B) : M S B :=
  fun w =>
    match m w with
    | (Ok a, w') => k a w'
    | (Throw e, w') => (Throw e, w')
    end.

Definition emit (e : Event) : M S unit :=
  fun w => (Ok tt, mkWorld (services w) (clock w) (ticks w) (env w)
                           (trace w ++ [e])).

(** Calling a collaborator: it runs on the services, and the call is
    recorded together with its outcome. *)
Definition call {A : Type} (f : Service S A) (record : Result A -> Call)
  : M S A :=
  fun w =>
    let (r, s') := f (services w) in
    (r, mkWorld s' (clock w) (ticks w) (env w)
                (trace w ++ [Called (record r)])).

(** [Date.now()] *)
Definition Date_now : M S Z :=
  fun w => (Ok (clock w (ticks w)),
            mkWorld (services w) (clock w) (Datatypes.S (ticks w)) (env w)
                    (trace w)).

(** [process.env.NAME] *)
Definition process_env (name : string) : M S (option string) :=
  fun w => (Ok (env w name), w).

Definition logger_info (m : LoggingMessage.t) (args : list LogValue)
  : M S unit := emit (LoggerInfo m args).
Definition logger_warn (m : LoggingMessage.t) (args : list LogValue)
  : M S unit := emit (LoggerWarn m args).
Definition logger_success (m : LoggingMessage.t) (args : list LogValue)
  : M S unit := emit (LoggerSuccess m args).
Definition console_log (args : list LogValue) : M S unit :=
  emit (ConsoleLog args).
End Monad.

Arguments ret {S A} a.
Arguments throw {S A} e.
Arguments bind {S A B} m k.
Arguments emit {S} e.
Arguments call {S A} f record.
Arguments Date_now {S}.
Arguments process_env {S} name.
Arguments logger_info {S} m args.
Arguments logger_warn {S} m args.
Arguments logger_success {S} m args.
Arguments console_log {S} args.

Declare Scope monad_scope.
Delimit Scope monad_scope with monad.
Notation "x <- m ;; k" := (bind m (fun x => k))
  (at level 61, m at next level, right associativity) : monad_scope.
Notation "m ;; k" := (bind m (fun _ => k))
  (at level 61, right associativity) : monad_scope.
Local Open Scope monad_scope.

(* ===================================================================== *)
(** * Injected interfaces *)
(* ===================================================================== *)

(** [ICodeTransformersRunner] *)
Record ICodeTransformersRunner (S : Type) : Type := {
  code_transform :
    string -> list CodeTransformer -> CodeTransformationStage.t ->
    Service S string
}.

(** [INodeTransformersRunner] *)
Record INodeTransformersRunner (S : Type) : Type := {
  node_transform :
    Node -> list NodeTransformer -> NodeTransformationStage.t ->
    Service S Node
}.

(** [IRandomGenerator], the one method the driver calls. *)
Record IRandomGenerator (S : Type) : Type := {
  getInputSeed : Service S string
}.

(** [node/NodeGuards], the guards the embedded files call.  [isNode] is
    declared on any object: the runner hands it the result of a visitor,
    which may be a node or a sentinel of estraverse. *)
Record NodeGuards : Type := {
  isProgramNode : Node -> bool;
  isNode : NodeValue -> bool
}.

(** [node/NodeMetadata], the one query the runner makes. *)
Record NodeMetadata : Type := {
  isIgnoredNode : Node -> bool
}.

(* ===================================================================== *)
(** * [JavaScriptObfuscator] *)
(* ===================================================================== *)

Module JavaScriptObfuscator.

(** [private static readonly escodegenParams] *)
Definition escodegenParams : GenerateOptions :=
  {| gen_comment := true;
     gen_verbatim := "x-verbatim-property";
     gen_sourceMapWithCode := true;
     gen_format_compact := None;
     gen_sourceMap := None;
     gen_sourceContent := None |}.

(** [private static readonly codeTransformersList] *)
Definition codeTransformersList : list CodeTransformer :=
  [ HashbangOperatorTransformer ].

(** [private static readonly nodeTransformersList] *)
Definition nodeTransformersList : list NodeTransformer :=
  [ BooleanLiteralTransformer;
    BlockStatementControlFlowTransformer;
    BlockStatementSimplifyTransformer;
    ClassFieldTransformer;
    CommentsTransformer;
    CustomCodeHelpersTransformer;
    DeadCodeInjectionTransformer;
    EscapeSequenceTransformer;
    EvalCallExpressionTransformer;
    ExportSpecifierTransformer;
    ExpressionStatementsMergeTransformer;
    FunctionControlFlowTransformer;
    IfStatementSimplifyTransformer;
    LabeledStatementTransformer;
    RenamePropertiesTransformer;
    MemberExpressionTransformer;
    MetadataTransformer;
    NumberLiteralTransformer;
    NumberToNumericalExpressionTransformer;
    ObfuscatingGuardsTransformer;
    ObjectExpressionKeysTransformer;
    ObjectExpressionTransformer;
    ObjectPatternPropertiesTransformer;
    ParentificationTransformer;
    ScopeIdentifiersTransformer;
    ScopeThroughIdentifiersTransformer;
    SplitStringTransformer;
    StringArrayControlFlowTransformer;
    StringArrayRotateFunctionTransformer;
    StringArrayScopeCallsWrapperTransformer;
    StringArrayTransformer;
    TemplateLiteralTransformer;
    DirectivePlacementTransformer;
    VariableDeclarationsMergeTransformer;
    VariablePreserveTransformer ].

(** Object spread, one property at a time. *)
Definition with_format (p : GenerateOptions) (c : bool) : GenerateOptions :=
  mkGenerateOptions (gen_comment p) (gen_verbatim p)
    (gen_sourceMapWithCode p) (Some c) (gen_sourceMap p)
    (gen_sourceContent p).
Definition with_sourceMap (p : GenerateOptions) (name : string)
  : GenerateOptions :=
  mkGenerateOptions (gen_comment p) (gen_verbatim p)
    (gen_sourceMapWithCode p) (gen_format_compact p) (Some name)
    (gen_sourceContent p).
Definition with_sourceContent (p : GenerateOptions) (src : string)
  : GenerateOptions :=
  mkGenerateOptions (gen_comment p) (gen_verbatim p)
    (gen_sourceMapWithCode p) (gen_format_compact p) (gen_sourceMap p)
    (Some src).

(** [a || b] on strings: the empty string is falsy. *)
Definition or_string (a b : string) : string :=
  match a with
  | EmptyString => b
  | _ => a
  end.

(** [!x] on an optional array property: only an absent one is falsy. *)
Definition absent {A : Type} (x : option A) : bool :=
  match x with
  | None => true
  | Some _ => false
  end.

Section Driver.
Variable S : Type.

(** Constructor-injected collaborators. *)
Variable codeTransformersRunner : ICodeTransformersRunner S.
Variable nodeTransformersRunner : INodeTransformersRunner S.
Variable randomGenerator : IRandomGenerator S.
Variable options : IOptions.

(** Imported helpers that live outside the embedded files. *)
Variable EcmaVersion_ecmaVersion : EcmaVersion.
Variable ASTParserFacade_parse : string -> AcornOptions -> Service S Node.
Variable escodegen_generate :
  Node -> GenerateOptions -> Service S EscodegenOutput.
Variable Utils_buildVersionMessage :
  option string -> option string -> string.
Variable guards : NodeGuards.

(** [private static readonly parseOptions] *)
Definition parseOptions : AcornOptions :=
  {| ecmaVersion := EcmaVersion_ecmaVersion;
     allowHashBang := true;
     allowImportExportEverywhere := true;
     allowReturnOutsideFunction := true;
     locations := true;
     ranges := true |}.

(** [runCodeTransformationStage] *)
Definition runCodeTransformationStage
  (code : string) (codeTransformationStage : CodeTransformationStage.t)
  : M S string :=
  logger_info LoggingMessage.CodeTransformationStage
              [VCodeStage codeTransformationStage] ;;
  call (code_transform codeTransformersRunner code codeTransformersList
                       codeTransformationStage)
       (CodeTransform code codeTransformersList codeTransformationStage).

(** [runNodeTransformationStage] *)
Definition runNodeTransformationStage
  (astTree : Node) (nodeTransformationStage : NodeTransformationStage.t)
  : M S Node :=
  logger_info LoggingMessage.NodeTransformationStage
              [VNodeStage nodeTransformationStage] ;;
  call (node_transform nodeTransformersRunner astTree nodeTransformersList
                       nodeTransformationStage)
       (NodeTransform astTree nodeTransformersList nodeTransformationStage).

(** [parseCode] *)
Definition parseCode (sourceCode : string) : M S Node :=
  call (ASTParserFacade_parse sourceCode parseOptions)
       (Parse sourceCode parseOptions).

(** The test of [transformAstTree]:
    [isProgramNode(astTree) && !astTree.body.length
     && !astTree.leadingComments && !astTree.trailingComments]. *)
Definition isEmptyAstTree (astTree : Node) : bool :=
  isProgramNode guards astTree
  && Nat.eqb (List.length (body astTree)) 0
  && absent (leadingComments astTree)
  && absent (trailingComments astTree).

(** [transformAstTree] *)
Definition transformAstTree (astTree : Node) : M S Node :=
  astTree <- runNodeTransformationStage astTree
               NodeTransformationStage.Initializing ;;
  console_log [VString "初始化阶段: "; VProgram astTree] ;;
  if isEmptyAstTree astTree then
    logger_warn LoggingMessage.EmptySourceCode [] ;;
    ret astTree
  else
    astTree <- runNodeTransformationStage astTree
                 NodeTransformationStage.Preparing ;;
    console_log [VString "准备阶段: "; VProgram astTree] ;;
    astTree <- (if deadCodeInjection options
                then runNodeTransformationStage astTree
                       NodeTransformationStage.DeadCodeInjection
                else ret astTree) ;;
    astTree <- runNodeTransformationStage astTree
                 NodeTransformationStage.ControlFlowFlattening ;;
    astTree <- (if renameProperties options
                then runNodeTransformationStage astTree
                       NodeTransformationStage.RenameProperties
                else ret astTree) ;;
    astTree <- runNodeTransformationStage astTree
                 NodeTransformationStage.Converting ;;
    astTree <- runNodeTransformationStage astTree
                 NodeTransformationStage.RenameIdentifiers ;;
    astTree <- runNodeTransformationStage astTree
                 NodeTransformationStage.StringArray ;;
    astTree <- (if simplify options
                then runNodeTransformationStage astTree
                       NodeTransformationStage.Simplifying
                else ret astTree) ;;
    astTree <- runNodeTransformationStage astTree
                 NodeTransformationStage.Finalizing ;;
    ret astTree.

(** The object literal of [generateCode]. *)
Definition generateParams (sourceCode : string) : GenerateOptions :=
  let params := with_format escodegenParams (compact options) in
  if sourceMap options then
    if SourceMapSourcesMode.eqb (sourceMapSourcesMode options)
                                SourceMapSourcesMode.SourcesContent
    then with_sourceContent (with_sourceMap params "sourceMap") sourceCode
    else with_sourceMap params
                        (or_string (inputFileName options) "sourceMap")
  else params.

(** [generatorOutput.map ? generatorOutput.map.toString() : ''] *)
Definition mapToString (m : option SourceMapGenerator) : string :=
  match m with
  | Some g => toString g
  | None => ""
  end.

(** [generateCode] *)
Definition generateCode (sourceCode : string) (astTree : Node)
  : M S IGeneratorOutput :=
  let escodegenParams := generateParams sourceCode in
  generatorOutput <- call (escodegen_generate astTree escodegenParams)
                          (Generate astTree escodegenParams) ;;
  ret (mkGeneratorOutput (raw_code generatorOutput)
                         (mapToString (raw_map generatorOutput))).

(** [getObfuscationResult].  Modelled from the spec: the source hands
    the code and the map to [obfuscationResultFactory], which is
    injected and declared outside the embedded files; the spec gives the
    result as the pair of the two.  The factory is called last, after
    the success message; what is stated below about exceptions, and
    about the readings of the clock when a call raises, is stated of
    the collaborators that are called before it. *)
Definition getObfuscationResult (generatorOutput : IGeneratorOutput)
  : M S IObfuscationResult :=
  ret (mkObfuscationResult (code generatorOutput) (map generatorOutput)).

(** [if (typeof sourceCode !== 'string') { sourceCode = ''; }]: what the
    variable holds below the test. *)
Definition coerceSource (sourceCode : JSValue) : string :=
  if negb (String.eqb (typeof sourceCode) "string") then ""
  else match sourceCode with
       | JSString s => s
       | _ => ""
       end.

(** The body of [obfuscate] below the coercion. *)
Definition pipeline (sourceCode : string) : M S IObfuscationResult :=
  timeStart <- Date_now ;;
  version <- process_env "VERSION" ;;
  buildTimestamp <- process_env "BUILD_TIMESTAMP" ;;
  logger_info LoggingMessage.Version
    [VString (Utils_buildVersionMessage version buildTimestamp)] ;;
  logger_info LoggingMessage.ObfuscationStarted [] ;;
  seed <- call (getInputSeed randomGenerator) GetInputSeed ;;
  logger_info LoggingMessage.RandomGeneratorSeed [VString seed] ;;
  sourceCode <- runCodeTransformationStage sourceCode
                  CodeTransformationStage.PreparingTransformers ;;
  console_log [VString "[===①准备阶段】===]："; VString sourceCode] ;;
  astTree <- parseCode sourceCode ;;
  console_log [VString "[===②转换成AST Tree===]："; VProgram astTree] ;;
  obfuscatedAstTree <- transformAstTree astTree ;;
  console_log [VString "[===③操作AST Tree===]："; VProgram obfuscatedAstTree] ;;
  generatorOutput <- generateCode sourceCode obfuscatedAstTree ;;
  console_log [VString "[===④生成code===]："; VOutput generatorOutput] ;;
  finalCode <- runCodeTransformationStage (code generatorOutput)
                 CodeTransformationStage.FinalizingTransformers ;;
  let generatorOutput := mkGeneratorOutput finalCode (map generatorOutput) in
  console_log [VString "[===⑤完成code转换===]："; VOutput generatorOutput] ;;
  timeEnd <- Date_now ;;
  let obfuscationTime := QArith_base.Qmake (timeEnd - timeStart) 1000 in
  logger_success LoggingMessage.ObfuscationCompleted
                 [VNumber obfuscationTime] ;;
  getObfuscationResult generatorOutput.

(** [obfuscate] *)
Definition obfuscate (sourceCode : JSValue) : M S IObfuscationResult :=
  pipeline (coerceSource sourceCode).

End Driver.
End JavaScriptObfuscator.

(* ===================================================================== *)
(** * [NodeTransformersRunner] *)
(* ===================================================================== *)

(** [TVisitorFunction]: a visitor callback of one transformer.  Its
    first argument is declared a node; the fused callback passes what it
    holds as the current node, which is a [NodeValue]. *)
Definition TVisitorFunction (S : Type) : Type :=
  NodeValue -> option Node -> Service S TVisitorResult.

(** [IVisitor] *)
Record IVisitor (S : Type) : Type := mkVisitor {
  enter : option (TVisitorFunction S);
  leave : option (TVisitorFunction S)
}.

(** [INodeTransformer], the one method the runner calls. *)
Record INodeTransformer (S : Type) : Type := mkNodeTransformer {
  getVisitor : NodeTransformationStage.t -> Service S (option (IVisitor S))
}.

(** [TDictionary<INodeTransformer>]: a JavaScript object keyed by
    transformer name.  Keys keep their insertion order; writing an existing
    key replaces the value in place. *)
Definition TDictionary (A : Type) : Type := list (NodeTransformer * A).

Fixpoint dict_get {A : Type} (d : TDictionary A) (k : NodeTransformer)
  : option A :=
  match d with
  | [] => None
  | (k', a) :: d' => if NodeTransformer_beq k' k then Some a else dict_get d' k
  end.

Fixpoint dict_set {A : Type} (d : TDictionary A) (k : NodeTransformer) (a : A)
  : TDictionary A :=
  match d with
  | [] => [(k, a)]
  | (k', a') :: d' =>
      if NodeTransformer_beq k' k then (k', a) :: d'
      else (k', a') :: dict_set d' k a
  end.

Definition dict_keys {A : Type} (d : TDictionary A) : list NodeTransformer :=
  List.map fst d.

(** The two characters of ['\r\n']. *)
Definition CRLF : string :=
  String (Ascii.ascii_of_nat 13) (String (Ascii.ascii_of_nat 10) EmptyString).

(** The fused callback handed to the traversal engine. *)
Definition TVisitorCallback (S : Type) : Type :=
  Node -> option Node -> M S TVisitorResult.

Definition is_some {A : Type} (o : option A) : bool :=
  match o with
  | Some _ => true
  | None => false
  end.

Definition result_map {A B : Type} (f : A -> B) (r : Result A) : Result B :=
  match r with
  | Ok a => Ok (f a)
  | Throw e => Throw e
  end.

Module NodeTransformersRunner.
Section Runner.
Variable S : Type.

(** Constructor-injected collaborators. *)
Variable nodeTransformerFactory :
  NodeTransformer -> Service S (INodeTransformer S).
Variable nodeTransformerNamesGroupsBuilder_build :
  TDictionary (INodeTransformer S) ->
  Service S (list (list NodeTransformer)).

(** Imported helpers that live outside the embedded files. *)
Variable guards : NodeGuards.
Variable nodeMetadata : NodeMetadata.

(** [estraverse.replace(astTree, { enter, leave })].  The walk rewrites
    the tree in place and the source drops the value the call returns,
    going on with the object it passed in; the engine therefore yields
    what that object holds when the walk is over. *)
Variable estraverse_replace :
  Node -> TVisitorCallback S -> TVisitorCallback S -> M S Node.

(** [visitors[i][direction]] once [visitors[i]] is at hand. *)
Definition visitorFor (visitor : IVisitor S) (direction : VisitorDirection)
  : option (TVisitorFunction S) :=
  match direction with
  | Enter => enter visitor
  | Leave => leave visitor
  end.

(** [visitorResult && NodeGuards.isNode(visitorResult)]; when it holds
    the result is what the loop assigns to [node].  [undefined] is
    falsy.  A node and a sentinel of estraverse are objects, hence
    truthy, and for both the answer is that of [NodeGuards.isNode]: the
    source makes no difference between them. *)
Definition isValidVisitorResult (visitorResult : TVisitorResult)
  : option NodeValue :=
  match visitorResult with
  | RNode n => if isNode guards (ANode n) then Some (ANode n) else None
  | ROption o =>
      if isNode guards (ASentinel o) then Some (ASentinel o) else None
  | RVoid => None
  end.

(** The [for] loop of the fused callback; [remaining] counts the
    iterations left, [i] is the loop variable, [node] is the variable
    the loop assigns to. *)
Fixpoint mergeLoop (visitors : list (IVisitor S))
  (direction : VisitorDirection) (parentNode : option Node)
  (remaining i : nat) (node : NodeValue) : M S NodeValue :=
  match remaining with
  | O => ret node
  | Datatypes.S remaining' =>
      match nth_error visitors i with
      | None => throw (TypeError "visitors[i] is undefined")
      | Some visitor =>
          match visitorFor visitor direction with
          | None =>
              mergeLoop visitors direction parentNode remaining'
                        (Datatypes.S i) node
          | Some visitorFunction =>
              visitorResult <-
                call (visitorFunction node parentNode)
                     (VisitorCall direction i node parentNode) ;;
              match isValidVisitorResult visitorResult with
              | None =>
                  mergeLoop visitors direction parentNode remaining'
                            (Datatypes.S i) node
              | Some node' =>
                  mergeLoop visitors direction parentNode remaining'
                            (Datatypes.S i) node'
              end
          end
      end
  end.

(** [mergeVisitorsForDirection] *)
Definition mergeVisitorsForDirection (visitors : list (IVisitor S))
  (direction : VisitorDirection) : TVisitorCallback S :=
  let visitorsLength := List.length visitors in
  if Nat.eqb visitorsLength 0 then
    fun node parentNode => ret (RNode node)
  else
    fun node parentNode =>
      if isIgnoredNode nodeMetadata node then
        ret (ROption Skip)
      else
        node <- mergeLoop visitors direction parentNode
                          visitorsLength 0 (ANode node) ;;
        ret (toResult node).

(** [buildNormalizedNodeTransformers]: the [reduce] over the names. *)
Fixpoint buildNormalizedNodeTransformers_from
  (acc : TDictionary (INodeTransformer S))
  (nodeTransformerNames : list NodeTransformer)
  (nodeTransformationStage : NodeTransformationStage.t)
  : M S (TDictionary (INodeTransformer S)) :=
  match nodeTransformerNames with
  | [] => ret acc
  | nodeTransformerName :: rest =>
      nodeTransformer <-
        call (nodeTransformerFactory nodeTransformerName)
             (fun r => Instantiate nodeTransformerName (result_void r)) ;;
      visitor <-
        call (getVisitor nodeTransformer nodeTransformationStage)
             (fun r => GetVisitor nodeTransformerName
                                  nodeTransformationStage
                                  (result_map is_some r)) ;;
      match visitor with
      | None =>
          buildNormalizedNodeTransformers_from acc rest
                                               nodeTransformationStage
      | Some _ =>
          buildNormalizedNodeTransformers_from
            (dict_set acc nodeTransformerName nodeTransformer) rest
            nodeTransformationStage
      end
  end.

Definition buildNormalizedNodeTransformers
  (nodeTransformerNames : list NodeTransformer)
  (nodeTransformationStage : NodeTransformationStage.t)
  : M S (TDictionary (INodeTransformer S)) :=
  buildNormalizedNodeTransformers_from [] nodeTransformerNames
                                       nodeTransformationStage.

(** The inner loop of [transform]: the visitors of one group. *)
Fixpoint collectVisitors
  (normalizedNodeTransformers : TDictionary (INodeTransformer S))
  (nodeTransformationStage : NodeTransformationStage.t)
  (nodeTransformerNamesGroup : list NodeTransformer)
  (enterVisitors leaveVisitors : list (IVisitor S))
  : M S (list (IVisitor S) * list (IVisitor S)) :=
  match nodeTransformerNamesGroup with
  | [] => ret (enterVisitors, leaveVisitors)
  | nodeTransformerName :: rest =>
      match dict_get normalizedNodeTransformers nodeTransformerName with
      | None => throw (TypeError "nodeTransformer is undefined")
      | Some nodeTransformer =>
          visitor <-
            call (getVisitor nodeTransformer nodeTransformationStage)
                 (fun r => GetVisitor nodeTransformerName
                                      nodeTransformationStage
                                      (result_map is_some r)) ;;
          match visitor with
          | None =>
              collectVisitors normalizedNodeTransformers
                nodeTransformationStage rest enterVisitors leaveVisitors
          | Some visitor =>
              let enterVisitors :=
                match enter visitor with
                | Some f => enterVisitors ++ [mkVisitor (Some f) None]
                | None => enterVisitors
                end in
              let leaveVisitors :=
                match leave visitor with
                | Some f => leaveVisitors ++ [mkVisitor None (Some f)]
                | None => leaveVisitors
                end in
              collectVisitors normalizedNodeTransformers
                nodeTransformationStage rest enterVisitors leaveVisitors
          end
      end
  end.

(** The outer loop of [transform]: one traversal per group. *)
Fixpoint transformGroups
  (normalizedNodeTransformers : TDictionary (INodeTransformer S))
  (nodeTransformationStage : NodeTransformationStage.t)
  (nodeTransformerNamesGroups : list (list NodeTransformer))
  (astTree : Node) : M S Node :=
  match nodeTransformerNamesGroups with
  | [] => ret astTree
  | nodeTransformerNamesGroup :: rest =>
      visitors <- collectVisitors normalizedNodeTransformers
                    nodeTransformationStage nodeTransformerNamesGroup
                    [] [] ;;
      let (enterVisitors, leaveVisitors) := visitors in
      if Nat.eqb (List.length enterVisitors) 0
         && Nat.eqb (List.length leaveVisitors) 0
      then
        transformGroups normalizedNodeTransformers
                        nodeTransformationStage rest astTree
      else
        emit (Called (Replace astTree (List.length enterVisitors)
                                      (List.length leaveVisitors))) ;;
        astTree <- estraverse_replace astTree
                     (mergeVisitorsForDirection enterVisitors Enter)
                     (mergeVisitorsForDirection leaveVisitors Leave) ;;
        transformGroups normalizedNodeTransformers
                        nodeTransformationStage rest astTree
  end.

(** [transform] *)
Definition transform (astTree : Node)
  (nodeTransformerNames : list NodeTransformer)
  (nodeTransformationStage : NodeTransformationStage.t) : M S Node :=
  if Nat.eqb (List.length nodeTransformerNames) 0 then
    ret astTree
  else
    console_log [VString (CRLF)] ;;
    console_log [VNodeStage nodeTransformationStage;
                 VString (" ===> " ++ CRLF)] ;;
    console_log [VString (CRLF)] ;;
    normalizedNodeTransformers <-
      buildNormalizedNodeTransformers nodeTransformerNames
                                      nodeTransformationStage ;;
    nodeTransformerNamesGroups <-
      call (nodeTransformerNamesGroupsBuilder_build
              normalizedNodeTransformers)
           (BuildGroups (dict_keys normalizedNodeTransformers)) ;;
    console_log [VString "nodeTransformerNamesGroups";
                 VGroups nodeTransformerNamesGroups] ;;
    transformGroups normalizedNodeTransformers nodeTransformationStage
                    nodeTransformerNamesGroups astTree.

(** The fusion rule in the words of the specification: run the
    callbacks of the direction in the order of the list, handing each
    one the node its predecessors left; an output that is a valid node
    replaces the current one, any other output (a sentinel, nothing at
    all, a node that is not valid) leaves it as it is.  [i] is the
    position in the batch, kept for the trace.  The rule is written out
    on its own and uses nothing of the loop above. *)
Fixpoint threadVisitors (direction : VisitorDirection)
  (parentNode : option Node) (i : nat) (visitors : list (IVisitor S))
  (node : Node) : M S Node :=
  match visitors with
  | [] => ret node
  | visitor :: rest =>
      match match direction with
            | Enter => enter visitor
            | Leave => leave visitor
            end
      with
      | None => threadVisitors direction parentNode (Datatypes.S i) rest node
      | Some callback =>
          output <- call (callback (ANode node) parentNode)
                         (VisitorCall direction i (ANode node) parentNode) ;;
          match output with
          | RNode replacement =>
              if isNode guards (ANode replacement)
              then threadVisitors direction parentNode (Datatypes.S i) rest
                                  replacement
              else threadVisitors direction parentNode (Datatypes.S i) rest
                                  node
          | ROption _ =>
              threadVisitors direction parentNode (Datatypes.S i) rest node
          | RVoid =>
              threadVisitors direction parentNode (Datatypes.S i) rest node
          end
      end
  end.

(** The same rule with the guard asked about every output that is not
    [undefined], which is what the source does: the value handed on is
    a node or a sentinel the guard let through.  Written out on its own
    as well. *)
Fixpoint threadValues (direction : VisitorDirection)
  (parentNode : option Node) (i : nat) (visitors : list (IVisitor S))
  (current : NodeValue) : M S NodeValue :=
  match visitors with
  | [] => ret current
  | visitor :: rest =>
      match match direction with
            | Enter => enter visitor
            | Leave => leave visitor
            end
      with
      | None =>
          threadValues direction parentNode (Datatypes.S i) rest current
      | Some callback =>
          output <- call (callback current parentNode)
                         (VisitorCall direction i current parentNode) ;;
          match output with
          | RNode replacement =>
              threadValues direction parentNode (Datatypes.S i) rest
                (if isNode guards (ANode replacement)
                 then ANode replacement else current)
          | ROption sentinel =>
              threadValues direction parentNode (Datatypes.S i) rest
                (if isNode guards (ASentinel sentinel)
                 then ASentinel sentinel else current)
          | RVoid =>
              threadValues direction parentNode (Datatypes.S i) rest current
          end
      end
  end.

End Runner.
End NodeTransformersRunner.

(* ===================================================================== *)
(** * The traversal engine *)
(* ===================================================================== *)

Module Traversal.
Section Engine.
Variable S : Type.

(** Step 1 of the walk as the specification lists it: a node the
    engine itself refuses to visit.  The source hands the walk to
    estraverse, which has no such test of its own ([fun _ => false]),
    and places the test in the fused callback instead; the statements
    below hold for either choice. *)
Variable precheck : Node -> bool.
Variable enter leave : TVisitorCallback S.

Definition with_body (n : Node) (b : list Node) : Node :=
  mkNode (node_type n) b (leadingComments n) (trailingComments n)
         (metadata n).

(** Step 3: [leave] on the node that now sits in the slot.  The pair
    is that slot's final node and whether the walk is aborted. *)
Definition leaveNode (node : Node) (parent : option Node)
  : M S (option (Node * bool)) :=
  target <- leave node parent ;;
  match target with
  | ROption Break => ret (Some (node, true))
  | ROption Skip => ret (Some (node, false))
  | RVoid => ret (Some (node, false))
  | RNode node' => ret (Some (node', false))
  end.

(** Modelled from the spec: the traversal engine, [replace(root,
    { enter, leave })], is the estraverse package and not part of the
    embedded files.  A pre-order walk with post-order [leave] calls;
    [enter] may answer skip-subtree (no descent, the node is still
    left), abort-traversal, or a node that takes the slot and whose
    children are then walked.  A replacement may be larger than what it
    replaces, so the walk is bounded by [fuel]; [None] is a walk that
    ran out of it. *)
Fixpoint walk (fuel : nat) (node : Node) (parent : option Node)
  : M S (option (Node * bool)) :=
  match fuel with
  | O => ret None
  | Datatypes.S fuel' =>
      if precheck node then ret (Some (node, false))
      else
        target <- enter node parent ;;
        let descend (node : Node) : M S (option (Node * bool)) :=
          let fix children (done todo : list Node)
            : M S (option (list Node * bool)) :=
            match todo with
            | [] => ret (Some (done, false))
            | child :: rest =>
                r <- walk fuel' child
                       (Some (with_body node (done ++ todo))) ;;
                match r with
                | None => ret None
                | Some (child', true) =>
                    ret (Some (done ++ child' :: rest, true))
                | Some (child', false) =>
                    children (done ++ [child']) rest
                end
            end in
          r <- children [] (body node) ;;
          match r with
          | None => ret None
          | Some (body', true) => ret (Some (with_body node body', true))
          | Some (body', false) => leaveNode (with_body node body') parent
          end in
        match target with
        | ROption Break => ret (Some (node, true))
        | ROption Skip => leaveNode node parent
        | RVoid => descend node
        | RNode node' => descend node'
        end
  end.

(** [replace]: the walk from the root, which has no parent. *)
Definition replace (fuel : nat) (root : Node) : M S (option Node) :=
  r <- walk fuel root None ;;
  ret (option_map fst r).
End Engine.
End Traversal.

(* ===================================================================== *)
(** * A small concrete set of collaborators *)
(* ===================================================================== *)

(** Executable stand-ins for the collaborators (parser, generator,
    runners, visitors), small enough to evaluate the pipeline on literal
    inputs.  The code transformer is the hashbang one: it strips the
    [#!] line before parsing and puts it back after generation. *)
Module Demo.

Record State : Set := mkState {
  seed : string;
  hashbang : string;
  stagesDone : nat
}.

Definition newline : Ascii.ascii := Ascii.ascii_of_nat 10.

(** The first line with its line break, and what follows it. *)
Fixpoint splitLine (s : string) : string * string :=
  match s with
  | EmptyString => (EmptyString, EmptyString)
  | String c rest =>
      if Ascii.eqb c newline then (String c EmptyString, rest)
      else let (l, r) := splitLine rest in (String c l, r)
  end.

Definition codeTransformersRunner : ICodeTransformersRunner State :=
  {| code_transform := fun src _ stage st =>
       match stage with
       | CodeTransformationStage.PreparingTransformers =>
           if String.prefix "#!" src then
             let (line, rest) := splitLine src in
             (Ok rest, mkState (seed st) line (stagesDone st))
           else (Ok src, st)
       | CodeTransformationStage.FinalizingTransformers =>
           (Ok (hashbang st ++ src)%string, st)
       end |}.

Definition nodeTransformersRunner : INodeTransformersRunner State :=
  {| node_transform := fun ast _ _ st =>
       (Ok ast, mkState (seed st) (hashbang st) (Datatypes.S (stagesDone st))) |}.

Definition randomGenerator : IRandomGenerator State :=
  {| getInputSeed := fun st => (Ok (seed st), st) |}.

Definition guards : NodeGuards :=
  {| isProgramNode := fun n => String.eqb (node_type n) "Program";
     isNode := fun value =>
       match value with
       | ANode n => negb (String.eqb (node_type n) "")
       | ASentinel _ => false
       end |}.

Definition nodeMetadata : NodeMetadata :=
  {| isIgnoredNode := fun n =>
       match metadata n with
       | Some (mkMetadata (Some true)) => true
       | _ => false
       end |}.

Definition leaf (type : string) : Node := mkNode type [] None None None.
Definition emptyProgram : Node := leaf "Program".

(** A parser for three shapes of input: nothing, an unbalanced
    parenthesis, anything else. *)
Definition parse (src : string) (_ : AcornOptions) : Service State Node :=
  fun st =>
    if String.eqb src "" then (Ok emptyProgram, st)
    else if String.prefix "(" src
         then (Throw (ParseError "Unexpected token"), st)
         else (Ok (mkNode "Program" [leaf "VariableDeclaration"]
                          None None None), st).

Definition generate (ast : Node) (params : GenerateOptions)
  : Service State EscodegenOutput :=
  fun st =>
    (Ok (mkEscodegenOutput
           (String.concat ";" (List.map node_type (body ast)))
           match gen_sourceMap params with
           | Some name =>
               Some (mkSourceMapGenerator
                       (name ++ "|" ++
                        match gen_sourceContent params with
                        | Some content => content
                        | None => ""
                        end)%string)
           | None => None
           end),
     st).

Definition buildVersionMessage (version buildTimestamp : option string)
  : string :=
  match version with
  | Some v => v
  | None => "unknown"
  end.

Definition options : IOptions :=
  {| compact := true;
     deadCodeInjection := false;
     renameProperties := false;
     simplify := true;
     sourceMap := true;
     sourceMapSourcesMode := SourceMapSourcesMode.SourcesContent;
     inputFileName := "" |}.

Definition world (t0 : Z) : World State :=
  {| services := mkState "seed" "" 0;
     clock := fun n => (t0 + (t0 + 7) * Z.of_nat n)%Z;
     ticks := 0;
     env := fun _ => None;
     trace := [] |}.

Definition hashbangSource : string :=
  ("#!/usr/bin/env node" ++ String newline "var a=1;")%string.

Definition declarationProgram : Node :=
  mkNode "Program" [leaf "VariableDeclaration"] None None None.

(** Visitors for the runner. *)
Definition ignoredLeaf (type : string) : Node :=
  mkNode type [] None None (Some (mkMetadata (Some true))).

Definition renameTo (type : string) : TVisitorFunction State :=
  fun node parentNode st =>
    match node with
    | ANode node =>
        (Ok (RNode (mkNode type (body node) (leadingComments node)
                           (trailingComments node) (metadata node))), st)
    | ASentinel _ => (Ok RVoid, st)
    end.

Definition answerVoid : TVisitorFunction State :=
  fun node parentNode st => (Ok RVoid, st).

Definition enterOnly (f : TVisitorFunction State) : IVisitor State :=
  mkVisitor (Some f) None.
Definition leaveOnly (f : TVisitorFunction State) : IVisitor State :=
  mkVisitor None (Some f).

Definition mergeVisitorsForDirection
  : list (IVisitor State) -> VisitorDirection -> TVisitorCallback State :=
  NodeTransformersRunner.mergeVisitorsForDirection guards nodeMetadata.

(** estraverse as the engine above with no test of its own, within a
    bound that is ample for the trees used here. *)
Definition estraverse_replace (ast : Node)
  (enter leave : TVisitorCallback State) : M State Node :=
  r <- Traversal.replace (fun _ => false) enter leave 64 ast ;;
  match r with
  | Some ast' => ret ast'
  | None => throw (TransformerFailure "the walk did not finish")
  end.

(** One transformer with a [leave] visitor in every stage. *)
Definition factory (name : NodeTransformer)
  : Service State (INodeTransformer State) :=
  fun st =>
    (Ok (mkNodeTransformer
           (fun _ st => (Ok (Some (leaveOnly (renameTo "Seen"))), st))),
     st).

Definition build (d : TDictionary (INodeTransformer State))
  : Service State (list (list NodeTransformer)) :=
  fun st => (Ok [dict_keys d], st).

Definition transform
  : Node -> list NodeTransformer -> NodeTransformationStage.t ->
    M State Node :=
  NodeTransformersRunner.transform factory build guards nodeMetadata
                                   estraverse_replace.

(** A program whose only statement is flagged as ignored and has a
    child that is not. *)
Definition identifier : Node := leaf "Identifier".
Definition ignoredFunction : Node :=
  mkNode "FunctionExpression" [identifier] None None
         (Some (mkMetadata (Some true))).
Definition programWithIgnoredFunction : Node :=
  mkNode "Program" [ignoredFunction] None None None.

End Demo.

(* ===================================================================== *)
(** * Vocabulary of the statements *)
(* ===================================================================== *)

(** The node stages for which the runner was called, in order. *)
Definition stagesRun (evs : list Event) : list NodeTransformationStage.t :=
  flat_map (fun e => match e with
                     | Called (NodeTransform _ _ stage _) => [stage]
                     | _ => []
                     end) evs.

(** The node stages announced to the logger, in order. *)
Definition stagesLogged (evs : list Event) : list NodeTransformationStage.t :=
  flat_map (fun e => match e with
                     | LoggerInfo LoggingMessage.NodeTransformationStage
                                  [VNodeStage stage] => [stage]
                     | _ => []
                     end) evs.

(** How often the logger was warned of an empty source. *)
Definition emptySourceWarnings (evs : list Event) : nat :=
  List.length
    (filter (fun e => match e with
                      | LoggerWarn LoggingMessage.EmptySourceCode _ => true
                      | _ => false
                      end) evs).

(** The canonical order of the node stages under given options. *)
Definition canonicalStages (options : IOptions)
  : list NodeTransformationStage.t :=
  [NodeTransformationStage.Initializing; NodeTransformationStage.Preparing]
  ++ (if deadCodeInjection options
      then [NodeTransformationStage.DeadCodeInjection] else [])
  ++ [NodeTransformationStage.ControlFlowFlattening]
  ++ (if renameProperties options
      then [NodeTransformationStage.RenameProperties] else [])
  ++ [NodeTransformationStage.Converting;
      NodeTransformationStage.RenameIdentifiers;
      NodeTransformationStage.StringArray]
  ++ (if simplify options
      then [NodeTransformationStage.Simplifying] else [])
  ++ [NodeTransformationStage.Finalizing].

(** What [transformAstTree] appends to the trace when the tree that comes
    back from the Initializing stage is found empty. *)
Definition emptyTreeEvents (ast astTree : Node) : list Event :=
  [ LoggerInfo LoggingMessage.NodeTransformationStage
               [VNodeStage NodeTransformationStage.Initializing];
    Called (NodeTransform ast JavaScriptObfuscator.nodeTransformersList
                          NodeTransformationStage.Initializing
                          (Ok astTree));
    ConsoleLog [VString "初始化阶段: "; VProgram astTree];
    LoggerWarn LoggingMessage.EmptySourceCode [] ].

(** What [obfuscate] appends to the trace before it transforms the tree,
    when the collaborators return. *)
Definition preambleEvents (versionMessage seed source prepared : string)
  (parseOptions : AcornOptions) (ast : Node) : list Event :=
  [ LoggerInfo LoggingMessage.Version [VString versionMessage];
    LoggerInfo LoggingMessage.ObfuscationStarted [];
    Called (GetInputSeed (Ok seed));
    LoggerInfo LoggingMessage.RandomGeneratorSeed [VString seed];
    LoggerInfo LoggingMessage.CodeTransformationStage
               [VCodeStage CodeTransformationStage.PreparingTransformers];
    Called (CodeTransform source JavaScriptObfuscator.codeTransformersList
                          CodeTransformationStage.PreparingTransformers
                          (Ok prepared));
    ConsoleLog [VString "[===①准备阶段】===]："; VString prepared];
    Called (Parse prepared parseOptions (Ok ast));
    ConsoleLog [VString "[===②转换成AST Tree===]："; VProgram ast] ].

(** What [obfuscate] appends to the trace after the generator has
    returned [raw], when the finalizing code stage returns [final]. *)
Definition epilogueEvents (raw : EscodegenOutput) (final : string)
  (obfuscationTime : QArith_base.Q) : list Event :=
  [ ConsoleLog
      [VString "[===④生成code===]：";
       VOutput (mkGeneratorOutput
                  (raw_code raw)
                  (JavaScriptObfuscator.mapToString (raw_map raw)))];
    LoggerInfo LoggingMessage.CodeTransformationStage
               [VCodeStage CodeTransformationStage.FinalizingTransformers];
    Called (CodeTransform (raw_code raw)
                          JavaScriptObfuscator.codeTransformersList
                          CodeTransformationStage.FinalizingTransformers
                          (Ok final));
    ConsoleLog
      [VString "[===⑤完成code转换===]：";
       VOutput (mkGeneratorOutput
                  final
                  (JavaScriptObfuscator.mapToString (raw_map raw)))];
    LoggerSuccess LoggingMessage.ObfuscationCompleted
                  [VNumber obfuscationTime] ].

Definition Prefix {A : Type} (l1 l2 : list A) : Prop :=
  exists l3, l2 = l1 ++ l3.

(** [Emits m P]: from any world, [m] appends some events [evs] to the
    trace, and its outcome together with [evs] satisfies [P]. *)
Definition Emits {S A : Type} (m : M S A)
  (P : Result A -> list Event -> Prop) : Prop :=
  forall w : World S,
    exists evs, trace (snd (m w)) = trace w ++ evs /\ P (fst (m w)) evs.

(** [Oblivious R m1 m2]: started in worlds that agree on the services,
    [m1] and [m2] end in worlds that agree on the services, and either
    both return, with values related by [R], or both raise the same
    exception.  Clock, environment and trace are free to differ. *)
Definition Oblivious {S A B : Type} (R : A -> B -> Prop)
  (m1 : M S A) (m2 : M S B) : Prop :=
  forall w1 w2 : World S,
    services w1 = services w2 ->
    services (snd (m1 w1)) = services (snd (m2 w2))
    /\ match fst (m1 w1), fst (m2 w2) with
       | Ok a, Ok b => R a b
       | Throw e1, Throw e2 => e1 = e2
       | _, _ => False
       end.

(* ===================================================================== *)
(** * Vocabulary for the scheduler and the call protocol *)
(* ===================================================================== *)

(** The transformers the factory was asked for, in order. *)
Definition instantiated (evs : list Event) : list NodeTransformer :=
  flat_map (fun e => match e with
                     | Called (Instantiate name _) => [name]
                     | _ => []
                     end) evs.

(** The transformers whose [getVisitor] was called, in order. *)
Definition asked (evs : list Event) : list NodeTransformer :=
  flat_map (fun e => match e with
                     | Called (GetVisitor name _ _) => [name]
                     | _ => []
                     end) evs.

(** The transformers whose [getVisitor] answered with a visitor. *)
Definition active (evs : list Event) : list NodeTransformer :=
  flat_map (fun e => match e with
                     | Called (GetVisitor name _ (Ok true)) => [name]
                     | _ => []
                     end) evs.

(** The keys of a JavaScript object after one more write. *)
Definition addKey (keys : list NodeTransformer) (name : NodeTransformer)
  : list NodeTransformer :=
  if existsb (NodeTransformer_beq name) keys then keys else keys ++ [name].

(** The names of a list, each once, in the order of their first
    occurrence. *)
Definition firstOccurrences (names : list NodeTransformer)
  : list NodeTransformer :=
  fold_left addKey names [].

(** The walks that were started, each with the number of [enter] and of
    [leave] visitors it was given. *)
Definition walks (evs : list Event) : list (nat * nat) :=
  flat_map (fun e => match e with
                     | Called (Replace _ enterVisitors leaveVisitors) =>
                         [(enterVisitors, leaveVisitors)]
                     | _ => []
                     end) evs.

(** The positions in the batch of the visitor functions that were
    invoked, in order. *)
Definition visitorCallIndices (evs : list Event) : list nat :=
  flat_map (fun e => match e with
                     | Called (VisitorCall _ i _ _ _) => [i]
                     | _ => []
                     end) evs.

(** The function a visitor has for a direction, if it has one. *)
Definition directionFunction {S : Type} (direction : VisitorDirection)
  (visitor : IVisitor S) : option (TVisitorFunction S) :=
  match direction with
  | Enter => enter visitor
  | Leave => leave visitor
  end.

(** The positions, counted from [i], of the visitors of a batch that have
    a function for the direction. *)
Fixpoint positionsFrom {S : Type} (i : nat) (direction : VisitorDirection)
  (visitors : list (IVisitor S)) : list nat :=
  match visitors with
  | [] => []
  | visitor :: rest =>
      match directionFunction direction visitor with
      | Some _ => i :: positionsFrom (Datatypes.S i) direction rest
      | None => positionsFrom (Datatypes.S i) direction rest
      end
  end.

(** The event is a call, in the given direction and with the given
    parent, of the function that the visitor at the recorded position of
    the batch has for that direction, and the recorded outcome is what
    that function answered on the recorded value. *)
Definition calledFrom {S : Type} (visitors : list (IVisitor S))
  (direction : VisitorDirection) (parentNode : option Node) (e : Event)
  : Prop :=
  exists i value r visitor callback (s : S),
    e = Called (VisitorCall direction i value parentNode r)
    /\ nth_error visitors i = Some visitor
    /\ directionFunction direction visitor = Some callback
    /\ fst (callback value parentNode s) = r.

(** The trace of [buildNormalizedNodeTransformers], name by name: the
    factory is asked for the name; if it answers, the transformer is
    asked for its visitor at once; if that answers, the next name
    follows; a call that raises is the last event. *)
Fixpoint instantiatedThenAsked (stage : NodeTransformationStage.t)
  (names : list NodeTransformer) (evs : list Event) : Prop :=
  match names with
  | [] => evs = []
  | name :: rest =>
      match evs with
      | Called (Instantiate name' made) :: evs' =>
          name' = name
          /\ match made with
             | Throw _ => evs' = []
             | Ok _ =>
                 match evs' with
                 | Called (GetVisitor name'' stage' answer) :: evs'' =>
                     name'' = name
                     /\ stage' = stage
                     /\ match answer with
                        | Throw _ => evs'' = []
                        | Ok _ => instantiatedThenAsked stage rest evs''
                        end
                 | _ => False
                 end
             end
      | _ => False
      end
  end.

Definition raised {A : Type} (r : Result A) : option Exception :=
  match r with
  | Ok _ => None
  | Throw e => Some e
  end.

(** The exception a recorded call ended with, if it raised. *)
Definition raisedBy (c : Call) : option Exception :=
  match c with
  | GetInputSeed r => raised r
  | CodeTransform _ _ _ r => raised r
  | Parse _ _ r => raised r
  | NodeTransform _ _ _ r => raised r
  | Generate _ _ r => raised r
  | Instantiate _ r => raised r
  | GetVisitor _ _ r => raised r
  | BuildGroups _ r => raised r
  | Replace _ _ _ => None
  | VisitorCall _ _ _ _ r => raised r
  end.

(** The exceptions raised by the calls of a trace, in order. *)
Definition exceptions (evs : list Event) : list Exception :=
  flat_map (fun e => match e with
                     | Called c => match raisedBy c with
                                   | Some e => [e]
                                   | None => []
                                   end
                     | _ => []
                     end) evs.

Definition isVisitorCall (e : Event) : bool :=
  match e with
  | Called (VisitorCall _ _ _ _ _) => true
  | _ => false
  end.

(** What an [IVisitor] pushed by [transform] looks like. *)
Definition enterOnlyVisitor {S : Type} (v : IVisitor S) : bool :=
  is_some (enter v) && negb (is_some (leave v)).
Definition leaveOnlyVisitor {S : Type} (v : IVisitor S) : bool :=
  is_some (leave v) && negb (is_some (enter v)).

Definition isGetVisitor (e : Event) : bool :=
  match e with
  | Called (GetVisitor _ _ _) => true
  | _ => false
  end.

(** The last thing that happened. *)
Definition lastEvent (evs : list Event) : option Event :=
  match rev evs with
  | e :: _ => Some e
  | [] => None
  end.

(** A visitor call in direction [direction] with parent [parentNode]. *)
Definition isVisitorCallFor (direction : VisitorDirection)
  (parentNode : option Node) (e : Event) : Prop :=
  match e with
  | Called (VisitorCall direction' _ _ parentNode' _) =>
      direction' = direction /\ parentNode' = parentNode
  | _ => False
  end.

(** What [transform] does before it asks for the groups: it prints,
    instantiates and asks for visitors. *)
Definition isNormalizationEvent (e : Event) : bool :=
  match e with
  | ConsoleLog _ => true
  | Called (Instantiate _ _) => true
  | Called (GetVisitor _ _ _) => true
  | _ => false
  end.

(** What [transform] does once it has the groups: it asks for visitors,
    starts walks that have at least one visitor, and the walks invoke
    visitor functions. *)
Definition isWalkPhaseEvent (e : Event) : bool :=
  match e with
  | Called (GetVisitor _ _ _) => true
  | Called (Replace _ enterVisitors leaveVisitors) =>
      Nat.ltb 0 (enterVisitors + leaveVisitors)
  | Called (VisitorCall _ _ _ _ _) => true
  | _ => false
  end.

(** What is assumed of a traversal engine: given the fused callbacks of a
    batch, all it adds to the trace are the calls of visitor functions. *)
Definition EngineOnlyCallsVisitors {S : Type} (guards : NodeGuards)
  (nodeMetadata : NodeMetadata)
  (estraverse_replace :
     Node -> TVisitorCallback S -> TVisitorCallback S -> M S Node) : Prop :=
  forall ast enterVisitors leaveVisitors,
    Emits (estraverse_replace
             ast
             (NodeTransformersRunner.mergeVisitorsForDirection
                guards nodeMetadata enterVisitors Enter)
             (NodeTransformersRunner.mergeVisitorsForDirection
                guards nodeMetadata leaveVisitors Leave))
      (fun _ evs => forallb isVisitorCall evs = true).

(** A group that names no transformer. *)
Definition isEmptyGroup (group : list NodeTransformer) : bool :=
  match group with
  | [] => true
  | _ :: _ => false
  end.

(* ===================================================================== *)
(** * More collaborators for the runner *)
(* ===================================================================== *)

Module Sample.

(** A visitor function that raises. *)
Definition failing : TVisitorFunction Demo.State :=
  fun node parentNode st => (Throw (TransformerFailure "visitor"), st).

(** A visitor function with one answer for whatever it is given. *)
Definition answer (result : TVisitorResult) : TVisitorFunction Demo.State :=
  fun node parentNode st => (Ok result, st).

(** A guard that lets every object through, sentinels included. *)
Definition laxGuards : NodeGuards :=
  {| isProgramNode := isProgramNode Demo.guards;
     isNode := fun _ => true |}.

(** Transformers of four kinds: [MetadataTransformer] has an [enter]
    visitor, [ParentificationTransformer] an [enter] and a [leave]
    visitor, [VariablePreserveTransformer] raises when asked, and every
    other one has no visitor. *)
Definition mixedFactory (name : NodeTransformer)
  : Service Demo.State (INodeTransformer Demo.State) :=
  fun st =>
    (Ok (mkNodeTransformer
           (fun _ st' =>
              match name with
              | MetadataTransformer =>
                  (Ok (Some (Demo.enterOnly (Demo.renameTo "Seen"))), st')
              | ParentificationTransformer =>
                  (Ok (Some (mkVisitor (Some Demo.answerVoid)
                                       (Some (Demo.renameTo "Left")))), st')
              | VariablePreserveTransformer =>
                  (Throw (TransformerFailure "getVisitor"), st')
              | _ => (Ok None, st')
              end)),
     st).

(** Transformers without a visitor in any stage. *)
Definition quietFactory (name : NodeTransformer)
  : Service Demo.State (INodeTransformer Demo.State) :=
  fun st => (Ok (mkNodeTransformer (fun _ st' => (Ok None, st'))), st).

(** A builder that puts every transformer in a group of its own. *)
Definition singletonGroups (d : TDictionary (INodeTransformer Demo.State))
  : Service Demo.State (list (list NodeTransformer)) :=
  fun st => (Ok (List.map (fun name => [name]) (dict_keys d)), st).

(** The dictionary [transform] builds from [MetadataTransformer] and
    [ParentificationTransformer]. *)
Definition normalized : TDictionary (INodeTransformer Demo.State) :=
  dict_set
    (dict_set [] MetadataTransformer
       (mkNodeTransformer
          (fun _ st =>
             (Ok (Some (Demo.enterOnly (Demo.renameTo "Seen"))), st))))
    ParentificationTransformer
    (mkNodeTransformer
       (fun _ st =>
          (Ok (Some (mkVisitor (Some Demo.answerVoid)
                               (Some (Demo.renameTo "Left")))), st))).

Definition batch : list (IVisitor Demo.State) :=
  [ Demo.enterOnly (Demo.renameTo "Seen");
    Demo.leaveOnly (Demo.renameTo "Left");
    Demo.enterOnly Demo.answerVoid ].

End Sample.

(* ===================================================================== *)
(** * Vocabulary for the protocol of the driver *)
(* ===================================================================== *)

(** The collaborators the driver calls. *)
Inductive Collaborator : Set :=
| RandomGenerator
| CodeRunner
| Parser
| NodeRunner
| Generator.

(** The collaborators called along a trace, in order. *)
Definition collaborators (evs : list Event) : list Collaborator :=
  flat_map (fun e => match e with
                     | Called (GetInputSeed _) => [RandomGenerator]
                     | Called (CodeTransform _ _ _ _) => [CodeRunner]
                     | Called (Parse _ _ _) => [Parser]
                     | Called (NodeTransform _ _ _ _) => [NodeRunner]
                     | Called (Generate _ _ _) => [Generator]
                     | _ => []
                     end) evs.

(** The order of one whole call that runs [nodeStages] node stages. *)
Definition pipelineOrder (nodeStages : nat) : list Collaborator :=
  [RandomGenerator; CodeRunner; Parser]
  ++ repeat NodeRunner nodeStages
  ++ [Generator; CodeRunner].

(** How often the logger was told of a success. *)
Definition completions (evs : list Event) : nat :=
  List.length
    (filter (fun e => match e with
                      | LoggerSuccess _ _ => true
                      | _ => false
                      end) evs).

(** The tree is handed on: [current] is the tree the last collaborator
    returned, if one did.  A node stage is given the list of all node
    transformers and the tree at hand, and what it returns is at hand
    next; the generator is given the tree at hand; the parser's tree is
    at hand after the parser. *)
Fixpoint treesChained (current : option Node) (evs : list Event) : Prop :=
  match evs with
  | [] => True
  | Called (Parse _ _ r) :: rest =>
      treesChained match r with
                   | Ok ast => Some ast
                   | Throw _ => None
                   end rest
  | Called (NodeTransform ast names _ r) :: rest =>
      current = Some ast
      /\ names = JavaScriptObfuscator.nodeTransformersList
      /\ treesChained match r with
                      | Ok astTree => Some astTree
                      | Throw _ => None
                      end rest
  | Called (Generate ast _ _) :: rest =>
      current = Some ast /\ treesChained None rest
  | _ :: rest => treesChained current rest
  end.

(** [Runs c e t m P]: started with clock [c] and environment [e] after
    [t] readings of the clock, [m] leaves the clock and the environment
    as they are, takes [n] more readings and appends [evs] to the trace,
    and its outcome, [evs] and [n] satisfy [P]. *)
Definition Runs {S A : Type} (c : nat -> Z) (e : string -> option string)
  (t : nat) (m : M S A) (P : Result A -> list Event -> nat -> Prop) : Prop :=
  forall w : World S,
    clock w = c -> env w = e -> ticks w = t ->
    clock (snd (m w)) = c
    /\ env (snd (m w)) = e
    /\ exists evs n,
        trace (snd (m w)) = trace w ++ evs
        /\ ticks (snd (m w)) = n + t
        /\ P (fst (m w)) evs n.

(** Every stage is announced to the logger right before the runner is
    called for it: an announcement of a code or node stage is followed
    at once by the call of the runner for that stage, and no runner is
    called for a stage without that announcement before it. *)
Fixpoint stagesAnnounced (evs : list Event) : Prop :=
  match evs with
  | [] => True
  | LoggerInfo LoggingMessage.CodeTransformationStage args
    :: Called (CodeTransform _ _ stage _) :: rest =>
      args = [VCodeStage stage] /\ stagesAnnounced rest
  | LoggerInfo LoggingMessage.NodeTransformationStage args
    :: Called (NodeTransform _ _ stage _) :: rest =>
      args = [VNodeStage stage] /\ stagesAnnounced rest
  | LoggerInfo LoggingMessage.CodeTransformationStage _ :: _ => False
  | LoggerInfo LoggingMessage.NodeTransformationStage _ :: _ => False
  | Called (CodeTransform _ _ _ _) :: _ => False
  | Called (NodeTransform _ _ _ _) :: _ => False
  | _ :: rest => stagesAnnounced rest
  end.

(* ===================================================================== *)
(** * Facts about the runner *)
(* ===================================================================== *)

Section RunnerFacts.
Variable S : Type.
Variable guards : NodeGuards.
Variable nodeMetadata : NodeMetadata.

Local Notation "'fused'" :=
  (NodeTransformersRunner.mergeVisitorsForDirection (S := S) guards
                                                    nodeMetadata).
Local Notation "'threaded'" :=
  (NodeTransformersRunner.threadVisitors (S := S) guards).

Local Notation "'handedOn'" :=
  (NodeTransformersRunner.threadValues (S := S) guards).

(** The indexed loop of the source, started at position [length pre]
    with [length rest] iterations to go, is the fold over [rest]. *)
Lemma mergeLoop_threadValues
  (direction : VisitorDirection) (parentNode : option Node)
  (rest pre : list (IVisitor S)) (current : NodeValue) (w : World S) :
  NodeTransformersRunner.mergeLoop guards (pre ++ rest) direction parentNode
    (List.length rest) (List.length pre) current w
  = handedOn direction parentNode (List.length pre) rest current w.
Proof.
  revert pre current w.
  induction rest as [| visitor rest IH]; intros pre current w.
  - reflexivity.
  - assert (Hnext : forall current' w',
               NodeTransformersRunner.mergeLoop guards
                 (pre ++ visitor :: rest) direction parentNode
                 (List.length rest) (Datatypes.S (List.length pre))
                 current' w'
               = handedOn direction parentNode
                   (Datatypes.S (List.length pre)) rest current' w').
    { intros current' w'.
      specialize (IH (pre ++ [visitor]) current' w').
      rewrite <- app_assoc, length_app, Nat.add_1_r in IH.
      exact IH. }
    cbn [List.length NodeTransformersRunner.mergeLoop
                           NodeTransformersRunner.threadValues].
    rewrite nth_error_app2 by apply Nat.le_refl.
    rewrite Nat.sub_diag. cbn [nth_error].
    unfold NodeTransformersRunner.visitorFor.
    destruct direction, visitor as [[enterFunction |] [leaveFunction |]];
      cbn [enter leave]; try apply Hnext.
    all: unfold bind.
    all: match goal with
         | |- context [call ?f ?record ?world] =>
             destruct (call f record world) as [[visitorResult | e] w'];
               [| reflexivity]
         end.
    all: unfold NodeTransformersRunner.isValidVisitorResult.
    all: destruct visitorResult as [replacement | sentinel |];
      [ destruct (isNode guards (ANode replacement))
      | destruct (isNode guards (ASentinel sentinel))
      | ]; apply Hnext.
Qed.

(** When the guard lets no sentinel through, handing values on is the
    rule of the specification. *)
Lemma threadValues_threadVisitors
  (direction : VisitorDirection) (parentNode : option Node)
  (visitors : list (IVisitor S)) :
  (forall sentinel, isNode guards (ASentinel sentinel) = false) ->
  forall (i : nat) (node : Node) (w : World S),
    handedOn direction parentNode i visitors (ANode node) w
    = (node' <- threaded direction parentNode i visitors node ;;
       ret (ANode node')) w.
Proof.
  intros Hsentinels.
  induction visitors as [| visitor rest IH]; intros i node w.
  - reflexivity.
  - cbn [NodeTransformersRunner.threadValues
           NodeTransformersRunner.threadVisitors].
    destruct direction, visitor as [[enterFunction |] [leaveFunction |]];
      cbn [enter leave]; try apply IH.
    all: unfold bind.
    all: match goal with
         | |- context [call ?f ?record ?world] =>
             destruct (call f record world) as [[output | e] w'];
               [| reflexivity]
         end.
    all: destruct output as [replacement | sentinel |];
      [ destruct (isNode guards (ANode replacement))
      | rewrite Hsentinels
      | ]; exact (IH _ _ _).
Qed.

Lemma mergeVisitorsForDirection_nonempty
  (visitors : list (IVisitor S)) (direction : VisitorDirection)
  (node : Node) (parentNode : option Node) (w : World S) :
  visitors <> [] ->
  fused visitors direction node parentNode w
  = if isIgnoredNode nodeMetadata node
    then (Ok (ROption Skip), w)
    else (value <- handedOn direction parentNode 0 visitors (ANode node) ;;
          ret (toResult value)) w.
Proof.
  intros Hne. destruct visitors as [| v vs]; [congruence |].
  unfold NodeTransformersRunner.mergeVisitorsForDirection.
  cbn [List.length Nat.eqb].
  destruct (isIgnoredNode nodeMetadata node); [reflexivity |].
  unfold bind.
  rewrite (mergeLoop_threadValues direction parentNode (v :: vs) []).
  reflexivity.
Qed.

(** The fused callback of a direction without visitors answers with the
    node it was given and touches nothing. *)
Lemma mergeVisitorsForDirection_nil
  (direction : VisitorDirection) (node : Node) (parentNode : option Node)
  (w : World S) :
  fused [] direction node parentNode w = (Ok (RNode node), w).
Proof. reflexivity. Qed.

(** The walk at a node flagged as ignored, under an [enter] callback
    fused from at least one visitor: the fused [enter] answers
    skip-subtree, the engine does not descend, and the fused [leave]
    either is the identity or answers skip-subtree as well. *)
Lemma walk_ignored_node
  (precheck : Node -> bool) (enterVisitors leaveVisitors : list (IVisitor S))
  (fuel : nat) (node : Node) (parentNode : option Node) (w : World S) :
  enterVisitors <> [] ->
  isIgnoredNode nodeMetadata node = true ->
  Traversal.walk precheck (fused enterVisitors Enter)
                 (fused leaveVisitors Leave)
                 (Datatypes.S fuel) node parentNode w
  = (Ok (Some (node, false)), w).
Proof.
  intros Hne Hignored.
  cbn [Traversal.walk].
  destruct (precheck node); [reflexivity |].
  unfold bind at 1.
  rewrite mergeVisitorsForDirection_nonempty by assumption.
  rewrite Hignored.
  unfold Traversal.leaveNode, bind.
  destruct leaveVisitors as [| v vs].
  - rewrite mergeVisitorsForDirection_nil. reflexivity.
  - rewrite mergeVisitorsForDirection_nonempty by discriminate.
    rewrite Hignored. reflexivity.
Qed.

(** C3, amended.  On a node that is not flagged as ignored (or when the
    direction has no visitor at all) the fused callback runs the visitor
    functions of the direction in the order of the batch, each on the
    value its predecessors left, and answers with the last value; an
    exception raised by a visitor function ends the chain and is the
    outcome of the callback.  An output becomes the current value when
    it is not [undefined] and [NodeGuards.isNode] accepts it, and leaves
    the current value as it is otherwise.  The guard is asked about a
    sentinel as it is about a node, so a sentinel the guard accepts is
    handed to the next visitor function and answered like a node.  When
    the guard accepts no sentinel, this is the fusion rule of the
    specification: an output that is a valid node becomes the current
    node, any other output is ignored, and the answer is a node. *)
Theorem fused_callback_threads_the_node
  (visitors : list (IVisitor S)) (direction : VisitorDirection)
  (node : Node) (parentNode : option Node) (w : World S) :
  visitors = [] \/ isIgnoredNode nodeMetadata node = false ->
  fused visitors direction node parentNode w
  = (value <- handedOn direction parentNode 0 visitors (ANode node) ;;
     ret (toResult value)) w
  /\ ((forall sentinel, isNode guards (ASentinel sentinel) = false) ->
      fused visitors direction node parentNode w
      = (node' <- threaded direction parentNode 0 visitors node ;;
         ret (RNode node')) w).
Proof.
  intros Hvisible.
  assert (Hcode :
            fused visitors direction node parentNode w
            = (value <- handedOn direction parentNode 0 visitors
                          (ANode node) ;;
               ret (toResult value)) w).
  { destruct Hvisible as [Hnil | Hvisible].
    - subst visitors. reflexivity.
    - destruct visitors as [| v vs]; [reflexivity |].
      rewrite mergeVisitorsForDirection_nonempty by discriminate.
      rewrite Hvisible. reflexivity. }
  split; [exact Hcode |].
  intros Hsentinels. rewrite Hcode. unfold bind.
  rewrite (threadValues_threadVisitors direction parentNode visitors
             Hsentinels 0 node w).
  unfold bind.
  destruct (threaded direction parentNode 0 visitors node w)
    as [[node' | e] w']; reflexivity.
Qed.

(** C4, amended.  A callback fused from at least one visitor, given a
    node flagged as ignored, answers skip-subtree and leaves the world
    as it found it: no visitor function is invoked on that node (every
    invocation would be on the trace).  In a walk whose [enter] callback
    is fused from at least one visitor, the engine therefore finishes
    with an ignored node without descending: the node stays in its slot,
    the walk goes on, and neither the node nor anything below it
    receives a visitor invocation. *)
Theorem fused_callback_skips_ignored_node
  (visitors leaveVisitors : list (IVisitor S)) (direction : VisitorDirection)
  (precheck : Node -> bool) (fuel : nat)
  (node : Node) (parentNode : option Node) (w : World S) :
  visitors <> [] ->
  isIgnoredNode nodeMetadata node = true ->
  fused visitors direction node parentNode w = (Ok (ROption Skip), w)
  /\ Traversal.walk precheck (fused visitors Enter)
                    (fused leaveVisitors Leave)
                    (Datatypes.S fuel) node parentNode w
     = (Ok (Some (node, false)), w).
Proof.
  intros Hne Hignored. split.
  - rewrite mergeVisitorsForDirection_nonempty by assumption.
    rewrite Hignored. reflexivity.
  - apply walk_ignored_node; assumption.
Qed.

(** C10.  The callback merged from zero visitor functions is the
    identity on nodes: for every node, flagged as ignored or not, it
    answers with that node, never with skip-subtree, and the world is
    untouched. *)
Theorem merged_callback_without_visitors_is_identity
  (direction : VisitorDirection) (node : Node) (parentNode : option Node)
  (w : World S) :
  fused [] direction node parentNode w = (Ok (RNode node), w)
  /\ fst (fused [] direction node parentNode w) <> Ok (ROption Skip).
Proof.
  split; [reflexivity | discriminate].
Qed.

(** C9.  [transform] with an empty list of transformer names is
    [return astTree]: the outcome is the tree that was passed in and the
    world is the one the call started in, so nothing was instantiated,
    no visitor was asked for, no group was built and no walk was
    started, whatever the factory, the group builder and the engine. *)
Theorem transform_without_names_returns_the_tree
  (nodeTransformerFactory : NodeTransformer -> Service S (INodeTransformer S))
  (build : TDictionary (INodeTransformer S) ->
           Service S (list (list NodeTransformer)))
  (estraverse_replace :
     Node -> TVisitorCallback S -> TVisitorCallback S -> M S Node)
  (astTree : Node) (nodeTransformationStage : NodeTransformationStage.t)
  (w : World S) :
  NodeTransformersRunner.transform nodeTransformerFactory build guards
    nodeMetadata estraverse_replace astTree [] nodeTransformationStage w
  = (Ok astTree, w).
Proof. reflexivity. Qed.
End RunnerFacts.

(* ===================================================================== *)
(** * Rules for traces *)
(* ===================================================================== *)

Section EmitsRules.
Variable S : Type.

Lemma Emits_ret {A : Type} (a : A) (P : Result A -> list Event -> Prop) :
  P (Ok a) [] -> Emits (S := S) (ret a) P.
Proof.
  intros HP w. exists []. cbn. rewrite app_nil_r. auto.
Qed.

Lemma Emits_throw {A : Type} (e : Exception)
  (P : Result A -> list Event -> Prop) :
  P (Throw e) [] -> Emits (S := S) (throw e) P.
Proof.
  intros HP w. exists []. cbn. rewrite app_nil_r. auto.
Qed.

Lemma Emits_emit (e : Event) (P : Result unit -> list Event -> Prop) :
  P (Ok tt) [e] -> Emits (S := S) (emit e) P.
Proof.
  intros HP w. exists [e]. cbn. auto.
Qed.

Lemma Emits_call {A : Type} (f : Service S A) (record : Result A -> Call)
  (P : Result A -> list Event -> Prop) :
  (forall s, P (fst (f s)) [Called (record (fst (f s)))]) ->
  Emits (call f record) P.
Proof.
  intros HP w. exists [Called (record (fst (f (services w))))].
  unfold call. specialize (HP (services w)).
  destruct (f (services w)) as [r s']. cbn in *. auto.
Qed.

Lemma Emits_Date_now (P : Result Z -> list Event -> Prop) :
  (forall t, P (Ok t) []) -> Emits (S := S) Date_now P.
Proof.
  intros HP w. exists []. cbn. rewrite app_nil_r. auto.
Qed.

Lemma Emits_process_env (name : string)
  (P : Result (option string) -> list Event -> Prop) :
  (forall v, P (Ok v) []) -> Emits (S := S) (process_env name) P.
Proof.
  intros HP w. exists []. cbn. rewrite app_nil_r. auto.
Qed.

Lemma Emits_bind {A B : Type} (m : M S A) (k : A -> M S B)
  (P : Result B -> list Event -> Prop) :
  Emits m (fun r evs1 =>
             match r with
             | Ok a => Emits (k a) (fun r' evs2 => P r' (evs1 ++ evs2))
             | Throw e => P (Throw e) evs1
             end) ->
  Emits (bind m k) P.
Proof.
  intros Hm w. destruct (Hm w) as (evs1 & Htrace & Hpost).
  unfold bind. destruct (m w) as [[a | e] w']; cbn in *.
  - destruct (Hpost w') as (evs2 & Htrace' & HP).
    exists (evs1 ++ evs2). split; [| exact HP].
    rewrite Htrace', Htrace, app_assoc. reflexivity.
  - exists evs1. auto.
Qed.

Lemma Emits_weaken {A : Type} (m : M S A)
  (P Q : Result A -> list Event -> Prop) :
  Emits m P -> (forall r evs, P r evs -> Q r evs) -> Emits m Q.
Proof.
  intros Hm HPQ w. destruct (Hm w) as (evs & Htrace & HP).
  exists evs. auto.
Qed.
End EmitsRules.

Section ObliviousRules.
Variable S : Type.

Lemma Oblivious_ret {A B : Type} (R : A -> B -> Prop) (a : A) (b : B) :
  R a b -> Oblivious (S := S) R (ret a) (ret b).
Proof. intros HR w1 w2 Hs. cbn. auto. Qed.

Lemma Oblivious_emit (e1 e2 : Event) :
  Oblivious (S := S) (fun _ _ => True) (emit e1) (emit e2).
Proof. intros w1 w2 Hs. cbn. auto. Qed.

Lemma Oblivious_call {A : Type} (f : Service S A)
  (record1 record2 : Result A -> Call) :
  Oblivious eq (call f record1) (call f record2).
Proof.
  intros w1 w2 Hs. unfold call. rewrite Hs.
  destruct (f (services w2)) as [[a | e] s']; cbn; auto.
Qed.

Lemma Oblivious_Date_now :
  Oblivious (S := S) (fun _ _ => True) Date_now Date_now.
Proof. intros w1 w2 Hs. cbn. auto. Qed.

Lemma Oblivious_process_env (name : string) :
  Oblivious (S := S) (fun _ _ => True) (process_env name) (process_env name).
Proof. intros w1 w2 Hs. cbn. auto. Qed.

Lemma Oblivious_bind {A1 A2 B1 B2 : Type}
  (RA : A1 -> A2 -> Prop) (RB : B1 -> B2 -> Prop)
  (m1 : M S A1) (m2 : M S A2) (k1 : A1 -> M S B1) (k2 : A2 -> M S B2) :
  Oblivious RA m1 m2 ->
  (forall a1 a2, RA a1 a2 -> Oblivious RB (k1 a1) (k2 a2)) ->
  Oblivious RB (bind m1 k1) (bind m2 k2).
Proof.
  intros Hm Hk w1 w2 Hs. specialize (Hm w1 w2 Hs).
  unfold bind.
  destruct (m1 w1) as [[a1 | e1] w1'], (m2 w2) as [[a2 | e2] w2'];
    cbn in *; destruct Hm as [Hs' HR]; try contradiction.
  - apply (Hk a1 a2 HR w1' w2' Hs').
  - auto.
Qed.
End ObliviousRules.

(** Walking a computation of the driver with the rules above: every call
    to a collaborator splits into the outcome that returns and the one
    that raises, every test into its two branches. *)
Ltac emits_step :=
  cbn beta iota;
  lazymatch goal with
  | |- Emits (bind _ _) _ => apply Emits_bind
  | |- Emits (ret _) _ => apply Emits_ret
  | |- Emits (throw _) _ => apply Emits_throw
  | |- Emits (emit _) _ => apply Emits_emit
  | |- Emits (logger_info _ _) _ => apply Emits_emit
  | |- Emits (logger_warn _ _) _ => apply Emits_emit
  | |- Emits (logger_success _ _) _ => apply Emits_emit
  | |- Emits (console_log _) _ => apply Emits_emit
  | |- Emits (call ?f _) _ =>
      apply Emits_call;
      let s := fresh "s" in
      intros s; destruct (f s) as [[? | ?] ?] eqn:?; cbn [fst]
  | |- Emits Date_now _ => apply Emits_Date_now; intros ?
  | |- Emits (process_env _) _ => apply Emits_process_env; intros ?
  | |- Emits (if ?b then _ else _) _ => destruct b eqn:?
  | |- Emits _ _ =>
      progress unfold JavaScriptObfuscator.obfuscate,
        JavaScriptObfuscator.pipeline,
        JavaScriptObfuscator.runCodeTransformationStage,
        JavaScriptObfuscator.runNodeTransformationStage,
        JavaScriptObfuscator.parseCode,
        JavaScriptObfuscator.transformAstTree,
        JavaScriptObfuscator.generateCode,
        JavaScriptObfuscator.getObfuscationResult
  end.

Ltac emits_run := repeat emits_step; cbn beta iota.

(** Finding an event in an explicit list. *)
Ltac find_event :=
  cbn [In app];
  repeat first [ left; reflexivity | right ].

Ltac rewrite_flags :=
  repeat match goal with
         | H : _ = true |- _ => rewrite H
         | H : _ = false |- _ => rewrite H
         end.

(** The same walk for two runs side by side: values read from the clock
    or the environment may differ between the runs, values returned by a
    collaborator are the same in both. *)
Ltac oblivious_step :=
  try subst;
  lazymatch goal with
  | |- Oblivious _ (bind _ _) (bind _ _) =>
      eapply Oblivious_bind; [ | intros ? ? ? ]
  | |- Oblivious _ (ret _) (ret _) => apply Oblivious_ret; reflexivity
  | |- Oblivious _ (emit _) (emit _) => apply Oblivious_emit
  | |- Oblivious _ (logger_info _ _) (logger_info _ _) => apply Oblivious_emit
  | |- Oblivious _ (logger_warn _ _) (logger_warn _ _) => apply Oblivious_emit
  | |- Oblivious _ (logger_success _ _) (logger_success _ _) =>
      apply Oblivious_emit
  | |- Oblivious _ (console_log _) (console_log _) => apply Oblivious_emit
  | |- Oblivious _ (call _ _) (call _ _) => apply Oblivious_call
  | |- Oblivious _ Date_now Date_now => apply Oblivious_Date_now
  | |- Oblivious _ (process_env _) (process_env _) =>
      apply Oblivious_process_env
  | |- Oblivious _ (if ?b then _ else _) (if ?b then _ else _) => destruct b
  | |- Oblivious _ _ _ =>
      progress unfold JavaScriptObfuscator.obfuscate,
        JavaScriptObfuscator.pipeline,
        JavaScriptObfuscator.runCodeTransformationStage,
        JavaScriptObfuscator.runNodeTransformationStage,
        JavaScriptObfuscator.parseCode,
        JavaScriptObfuscator.transformAstTree,
        JavaScriptObfuscator.generateCode,
        JavaScriptObfuscator.getObfuscationResult
  end.

(** One call of [obfuscate] run up to the call of the generator, along
    the path on which the seed is read, the preparing code stage, the
    parser and [transformAstTree] return as the four equations say. *)
Ltac run_to_generator Hseed Hprepare Hparse Htransform :=
  unfold JavaScriptObfuscator.obfuscate, JavaScriptObfuscator.pipeline;
  unfold bind at 1; cbn [Date_now];
  unfold bind at 1; cbn [process_env];
  unfold bind at 1; cbn [process_env];
  unfold bind at 1; cbn [logger_info emit];
  unfold bind at 1; cbn [logger_info emit];
  unfold bind at 1; unfold call at 1;
  cbn [services trace clock ticks env]; rewrite Hseed;
  unfold bind at 1; cbn [logger_info emit];
  unfold bind at 1;
  unfold JavaScriptObfuscator.runCodeTransformationStage at 1;
  unfold bind at 1; cbn [logger_info emit]; unfold call at 1;
  cbn [services trace clock ticks env]; rewrite Hprepare;
  unfold bind at 1; cbn [console_log emit];
  unfold bind at 1; unfold JavaScriptObfuscator.parseCode, call at 1;
  cbn [services trace clock ticks env]; rewrite Hparse;
  unfold bind at 1; cbn [console_log emit];
  unfold bind at 1; rewrite Htransform by reflexivity;
  unfold bind at 1; cbn [console_log emit];
  unfold bind at 1; unfold JavaScriptObfuscator.generateCode;
  unfold bind at 1; unfold call at 1;
  cbn [services trace clock ticks env].

(* ===================================================================== *)
(** * Facts about the driver *)
(* ===================================================================== *)

Section DriverFacts.
Variable S : Type.
Variable codeTransformersRunner : ICodeTransformersRunner S.
Variable nodeTransformersRunner : INodeTransformersRunner S.
Variable randomGenerator : IRandomGenerator S.
Variable options : IOptions.
Variable EcmaVersion_ecmaVersion : EcmaVersion.
Variable ASTParserFacade_parse : string -> AcornOptions -> Service S Node.
Variable escodegen_generate :
  Node -> GenerateOptions -> Service S EscodegenOutput.
Variable Utils_buildVersionMessage : option string -> option string -> string.
Variable guards : NodeGuards.

Local Notation "'obfuscate'" :=
  (JavaScriptObfuscator.obfuscate codeTransformersRunner
     nodeTransformersRunner randomGenerator options EcmaVersion_ecmaVersion
     ASTParserFacade_parse escodegen_generate Utils_buildVersionMessage
     guards).
Local Notation "'isEmptyAstTree'" :=
  (JavaScriptObfuscator.isEmptyAstTree guards).

(** C1, amended.  In every call of [obfuscate] the node stages for
    which the runner is called are the stages announced to the logger,
    in the same order, and they form a prefix of the canonical order
    Initializing, Preparing, DeadCodeInjection, ControlFlowFlattening,
    RenameProperties, Converting, RenameIdentifiers, StringArray,
    Simplifying, Finalizing, in which DeadCodeInjection,
    RenameProperties and Simplifying are present exactly when
    [deadCodeInjection], [renameProperties] and [simplify] are enabled.
    When the call returns, the stages run are that whole list if the
    tree that came back from Initializing was not found empty, and
    Initializing alone if it was. *)
Theorem node_stages_follow_the_canonical_order
  (sourceCode : JSValue) (w : World S) :
  exists evs,
    trace (snd (obfuscate sourceCode w)) = trace w ++ evs
    /\ stagesLogged evs = stagesRun evs
    /\ Prefix (stagesRun evs) (canonicalStages options)
    /\ (forall result, fst (obfuscate sourceCode w) = Ok result ->
        exists ast astTree,
          In (Called (NodeTransform ast
                        JavaScriptObfuscator.nodeTransformersList
                        NodeTransformationStage.Initializing (Ok astTree)))
             evs
          /\ stagesRun evs
             = if isEmptyAstTree astTree
               then [NodeTransformationStage.Initializing]
               else canonicalStages options).
Proof.
  revert w.
  change (Emits (obfuscate sourceCode)
            (fun r evs =>
               stagesLogged evs = stagesRun evs
               /\ Prefix (stagesRun evs) (canonicalStages options)
               /\ (forall result, r = Ok result ->
                   exists ast astTree,
                     In (Called (NodeTransform ast
                                   JavaScriptObfuscator.nodeTransformersList
                                   NodeTransformationStage.Initializing
                                   (Ok astTree))) evs
                     /\ stagesRun evs
                        = if isEmptyAstTree astTree
                          then [NodeTransformationStage.Initializing]
                          else canonicalStages options))).
  emits_run.
  all: unfold canonicalStages, Prefix; rewrite_flags; cbn [app].
  all: split; [reflexivity |].
  all: split; [cbn; eexists; reflexivity |].
  all: intros result Hresult; try discriminate Hresult.
  all: do 2 eexists; split; [find_event |].
  all: rewrite_flags; reflexivity.
Qed.

(** C5.  A source that is not a string is replaced by the empty string
    before anything else happens: [obfuscate] on it is the body of
    [obfuscate] run on [""], so from every world it has the outcome,
    and leaves the world, of the call with the empty string; it raises
    only if that call does. *)
Theorem non_string_source_is_the_empty_string (sourceCode : JSValue) :
  typeof sourceCode <> "string" ->
  JavaScriptObfuscator.coerceSource sourceCode = ""
  /\ obfuscate sourceCode
     = JavaScriptObfuscator.pipeline codeTransformersRunner
         nodeTransformersRunner randomGenerator options
         EcmaVersion_ecmaVersion ASTParserFacade_parse escodegen_generate
         Utils_buildVersionMessage guards ""
  /\ forall w, obfuscate sourceCode w = obfuscate (JSString "") w.
Proof.
  intros Htype.
  assert (Hcoerced : JavaScriptObfuscator.coerceSource sourceCode = "").
  { unfold JavaScriptObfuscator.coerceSource.
    destruct (String.eqb_spec (typeof sourceCode) "string") as [Heq | Hneq];
      [contradiction | reflexivity]. }
  split; [exact Hcoerced |].
  unfold JavaScriptObfuscator.obfuscate. rewrite Hcoerced.
  split; [reflexivity | intros w; reflexivity].
Qed.

Local Notation "'generateParams'" :=
  (JavaScriptObfuscator.generateParams options).

(** The object literal of [generateCode], property by property. *)
Lemma generateParams_spec (sourceCode : string) :
  gen_format_compact (generateParams sourceCode) = Some (compact options)
  /\ (sourceMap options = true ->
      sourceMapSourcesMode options = SourceMapSourcesMode.SourcesContent ->
      gen_sourceMap (generateParams sourceCode) = Some "sourceMap"
      /\ gen_sourceContent (generateParams sourceCode) = Some sourceCode)
  /\ (sourceMap options = true ->
      sourceMapSourcesMode options = SourceMapSourcesMode.Sources ->
      gen_sourceMap (generateParams sourceCode)
      = Some (JavaScriptObfuscator.or_string (inputFileName options)
                                             "sourceMap")
      /\ gen_sourceContent (generateParams sourceCode) = None)
  /\ (sourceMap options = false ->
      gen_sourceMap (generateParams sourceCode) = None
      /\ gen_sourceContent (generateParams sourceCode) = None).
Proof.
  unfold JavaScriptObfuscator.generateParams.
  destruct (sourceMap options), (sourceMapSourcesMode options); cbn;
    repeat split; intros; try discriminate; reflexivity.
Qed.

(** What one call of [obfuscate] has to do with the generator: every
    call to it is made with the parameters built from the source as the
    preparing code stage returned it, and a call of [obfuscate] that
    returns has made one whose map, as a string, is in the result. *)
Lemma obfuscate_generator_calls (sourceCode : JSValue) :
  Emits (obfuscate sourceCode)
    (fun r evs =>
       (forall ast params r',
           In (Called (Generate ast params r')) evs ->
           exists prepared,
             In (Called (CodeTransform
                           (JavaScriptObfuscator.coerceSource sourceCode)
                           JavaScriptObfuscator.codeTransformersList
                           CodeTransformationStage.PreparingTransformers
                           (Ok prepared))) evs
             /\ params = generateParams prepared)
       /\ (forall result, r = Ok result ->
           exists ast prepared raw s s',
             In (Called (Generate ast (generateParams prepared) (Ok raw))) evs
             /\ escodegen_generate ast (generateParams prepared) s
                = (Ok raw, s')
             /\ obfuscatedMap result
                = JavaScriptObfuscator.mapToString (raw_map raw))).
Proof.
  emits_run.
  all: split;
    [ intros ast params r' Hin; cbn [In app] in Hin;
      repeat (destruct Hin as [Hin | Hin]; [try discriminate Hin |]);
      try contradiction Hin
    | intros result Hresult; try discriminate Hresult ].
  all: try (injection Hin as <- <- <-; eexists; split;
            [find_event | reflexivity]).
  all: injection Hresult as <-.
  all: do 5 eexists; split; [find_event |].
  all: split; [eassumption | reflexivity].
Qed.

(** C6, amended.  In every call of [obfuscate], a call that returns
    has called the generator, and every call to the generator is made
    with parameters derived from the configuration and from the source
    text as the PreparingTransformers code stage returned it (the text
    that was parsed): [format.compact] is the [compact] option; with
    source maps enabled and [sourceMapSourcesMode] SourcesContent,
    [sourceMap] is the name ["sourceMap"] and [sourceContent] is that
    prepared text; with source maps enabled and the mode Sources,
    [sourceMap] is [inputFileName], or ["sourceMap"] when that is empty,
    and there is no [sourceContent]; with source maps disabled there is
    neither. *)
Theorem generator_options_follow_configuration
  (sourceCode : JSValue) (w : World S) :
  exists evs,
    trace (snd (obfuscate sourceCode w)) = trace w ++ evs
    /\ (forall result, fst (obfuscate sourceCode w) = Ok result ->
        exists ast params raw,
          In (Called (Generate ast params (Ok raw))) evs)
    /\ (forall ast params r,
          In (Called (Generate ast params r)) evs ->
          exists prepared,
            In (Called (CodeTransform
                          (JavaScriptObfuscator.coerceSource sourceCode)
                          JavaScriptObfuscator.codeTransformersList
                          CodeTransformationStage.PreparingTransformers
                          (Ok prepared))) evs
            /\ gen_format_compact params = Some (compact options)
            /\ (sourceMap options = true ->
                sourceMapSourcesMode options
                = SourceMapSourcesMode.SourcesContent ->
                gen_sourceMap params = Some "sourceMap"
                /\ gen_sourceContent params = Some prepared)
            /\ (sourceMap options = true ->
                sourceMapSourcesMode options = SourceMapSourcesMode.Sources ->
                gen_sourceMap params
                = Some (JavaScriptObfuscator.or_string
                          (inputFileName options) "sourceMap")
                /\ gen_sourceContent params = None)
            /\ (sourceMap options = false ->
                gen_sourceMap params = None
                /\ gen_sourceContent params = None)).
Proof.
  destruct (obfuscate_generator_calls sourceCode w)
    as (evs & Htrace & Hcalls & Hreturns).
  exists evs. split; [exact Htrace |]. split.
  - intros result Hresult.
    destruct (Hreturns result Hresult)
      as (ast & prepared & raw & _ & _ & Hin & _).
    eauto.
  - intros ast params r Hin.
    destruct (Hcalls ast params r Hin) as (prepared & Hprepared & ->).
    exists prepared. split; [exact Hprepared |].
    apply generateParams_spec.
Qed.

(** C7.  When [obfuscate] returns, it has called the generator, and the
    map of the result is the empty string if the generator's output has
    no map and the generator's map converted with [toString] otherwise;
    in either case it is a string.  With source maps disabled no
    [sourceMap] parameter reaches the generator, so for a generator that
    produces a map only when asked for one the map of the result is the
    empty string. *)
Theorem result_map_is_a_string
  (sourceCode : JSValue) (w : World S) (result : IObfuscationResult) :
  fst (obfuscate sourceCode w) = Ok result ->
  exists evs ast params raw,
    trace (snd (obfuscate sourceCode w)) = trace w ++ evs
    /\ In (Called (Generate ast params (Ok raw))) evs
    /\ obfuscatedMap result
       = match raw_map raw with
         | Some generatorMap => toString generatorMap
         | None => ""
         end
    /\ (sourceMap options = false ->
        gen_sourceMap params = None
        /\ ((forall ast' params' s' raw' s'',
                gen_sourceMap params' = None ->
                escodegen_generate ast' params' s' = (Ok raw', s'') ->
                raw_map raw' = None) ->
            obfuscatedMap result = "")).
Proof.
  intros Hresult.
  destruct (obfuscate_generator_calls sourceCode w)
    as (evs & Htrace & _ & Hreturns).
  destruct (Hreturns result Hresult)
    as (ast & prepared & raw & s & s' & Hin & Hgenerate & Hmap).
  exists evs, ast, (generateParams prepared), raw.
  split; [exact Htrace |]. split; [exact Hin |]. split; [exact Hmap |].
  intros Hdisabled.
  destruct (generateParams_spec prepared) as (_ & _ & _ & Hnone).
  destruct (Hnone Hdisabled) as [HsourceMap _].
  split; [exact HsourceMap |].
  intros Hcontract. rewrite Hmap.
  rewrite (Hcontract _ _ _ _ _ HsourceMap Hgenerate).
  reflexivity.
Qed.

Local Notation "'transformAstTree'" :=
  (JavaScriptObfuscator.transformAstTree nodeTransformersRunner options
                                         guards).

(** C2.  Assume the collaborators return up to the Initializing stage
    and the tree that stage returns is a Program with an empty body that
    carries neither a [leadingComments] nor a [trailingComments]
    property.  Then [transformAstTree] returns that tree without
    raising, having logged the Initializing stage and the
    EmptySourceCode warning and called the runner for no other stage;
    [obfuscate] goes on to call the generator on that very tree, whatever
    the generator answers; and when the generator and the finalizing code
    stage return, [obfuscate] returns the result.  The trace of the whole
    call is given event by event: one node stage, one warning. *)
Theorem empty_program_short_circuit
  (sourceCode : JSValue) (w : World S)
  (seed prepared : string) (ast astTree : Node) (s0 s1 s2 s3 : S) :
  getInputSeed randomGenerator (services w) = (Ok seed, s0) ->
  code_transform codeTransformersRunner
    (JavaScriptObfuscator.coerceSource sourceCode)
    JavaScriptObfuscator.codeTransformersList
    CodeTransformationStage.PreparingTransformers s0 = (Ok prepared, s1) ->
  ASTParserFacade_parse prepared
    (JavaScriptObfuscator.parseOptions EcmaVersion_ecmaVersion) s1
  = (Ok ast, s2) ->
  node_transform nodeTransformersRunner ast
    JavaScriptObfuscator.nodeTransformersList
    NodeTransformationStage.Initializing s2 = (Ok astTree, s3) ->
  isProgramNode guards astTree = true ->
  body astTree = [] ->
  leadingComments astTree = None ->
  trailingComments astTree = None ->
  (forall w2 : World S,
      services w2 = s2 ->
      transformAstTree ast w2
      = (Ok astTree,
         mkWorld s3 (clock w2) (ticks w2) (env w2)
                 (trace w2 ++ emptyTreeEvents ast astTree)))
  /\ (exists evs,
        trace (snd (obfuscate sourceCode w))
        = trace w
          ++ preambleEvents
               (Utils_buildVersionMessage (env w "VERSION")
                                          (env w "BUILD_TIMESTAMP"))
               seed (JavaScriptObfuscator.coerceSource sourceCode) prepared
               (JavaScriptObfuscator.parseOptions EcmaVersion_ecmaVersion) ast
          ++ emptyTreeEvents ast astTree
          ++ [ ConsoleLog [VString "[===③操作AST Tree===]：";
                           VProgram astTree];
               Called (Generate
                         astTree (generateParams prepared)
                         (fst (escodegen_generate
                                 astTree (generateParams prepared) s3))) ]
          ++ evs)
  /\ (forall (raw : EscodegenOutput) (final : string) (s4 s5 : S),
        escodegen_generate astTree (generateParams prepared) s3
        = (Ok raw, s4) ->
        code_transform codeTransformersRunner (raw_code raw)
          JavaScriptObfuscator.codeTransformersList
          CodeTransformationStage.FinalizingTransformers s4 = (Ok final, s5) ->
        obfuscate sourceCode w
        = (Ok (mkObfuscationResult
                 final (JavaScriptObfuscator.mapToString (raw_map raw))),
           mkWorld s5 (clock w) (2 + ticks w) (env w)
             (trace w
              ++ preambleEvents
                   (Utils_buildVersionMessage (env w "VERSION")
                                              (env w "BUILD_TIMESTAMP"))
                   seed (JavaScriptObfuscator.coerceSource sourceCode)
                   prepared
                   (JavaScriptObfuscator.parseOptions EcmaVersion_ecmaVersion)
                   ast
              ++ emptyTreeEvents ast astTree
              ++ [ ConsoleLog [VString "[===③操作AST Tree===]：";
                               VProgram astTree];
                   Called (Generate astTree (generateParams prepared)
                                    (Ok raw)) ]
              ++ epilogueEvents raw final
                   (QArith_base.Qmake
                      (clock w (Datatypes.S (ticks w)) - clock w (ticks w))
                      1000)))).
Proof.
  intros Hseed Hprepare Hparse Hinit Hprogram Hbody Hleading Htrailing.
  assert (Hempty : isEmptyAstTree astTree = true).
  { unfold JavaScriptObfuscator.isEmptyAstTree.
    rewrite Hprogram, Hbody, Hleading, Htrailing. reflexivity. }
  assert (Htransform : forall w2 : World S,
             services w2 = s2 ->
             transformAstTree ast w2
             = (Ok astTree,
                mkWorld s3 (clock w2) (ticks w2) (env w2)
                        (trace w2 ++ emptyTreeEvents ast astTree))).
  { intros w2 Hs2.
    unfold JavaScriptObfuscator.transformAstTree,
      JavaScriptObfuscator.runNodeTransformationStage,
      bind, call, logger_info, logger_warn, console_log, emit, ret.
    cbn [services trace clock ticks env].
    rewrite Hs2, Hinit, Hempty.
    cbn [services trace clock ticks env emptyTreeEvents].
    rewrite <- !app_assoc. reflexivity. }
  split; [exact Htransform |].
  split.
  - (* Whatever the generator and the finalizing stage answer. *)
    run_to_generator Hseed Hprepare Hparse Htransform.
    destruct (escodegen_generate astTree (generateParams prepared) s3)
      as [[raw | e] s4]; cbn [fst ret].
    + unfold JavaScriptObfuscator.runCodeTransformationStage,
        JavaScriptObfuscator.getObfuscationResult.
      unfold bind, call, logger_info, logger_success, console_log, emit,
        Date_now, ret.
      cbn beta iota delta [services trace clock ticks env code].
      destruct (code_transform codeTransformersRunner (raw_code raw)
                  JavaScriptObfuscator.codeTransformersList
                  CodeTransformationStage.FinalizingTransformers s4)
        as [[final | e] s5];
        cbn beta iota delta [services trace clock ticks env code snd].
      all: eexists; unfold preambleEvents, emptyTreeEvents.
      all: rewrite <- !app_assoc; cbn [app]; reflexivity.
    + exists []. cbn [snd trace]. unfold preambleEvents, emptyTreeEvents.
      rewrite <- !app_assoc. cbn [app]. reflexivity.
  - intros raw final s4 s5 Hgenerate Hfinal.
    run_to_generator Hseed Hprepare Hparse Htransform.
    rewrite Hgenerate. cbn [ret].
    unfold bind at 1. cbn [console_log emit].
    unfold bind at 1.
    unfold JavaScriptObfuscator.runCodeTransformationStage at 1.
    unfold bind at 1. cbn [logger_info emit]. unfold call at 1.
    cbn [services trace clock ticks env code]. rewrite Hfinal.
    unfold bind at 1. cbn [console_log emit].
    unfold bind at 1. cbn [Date_now].
    unfold bind at 1. cbn [logger_success emit].
    unfold JavaScriptObfuscator.getObfuscationResult. cbn [ret code map].
    cbn [services trace clock ticks env].
    unfold preambleEvents, emptyTreeEvents, epilogueEvents.
    rewrite <- !app_assoc. reflexivity.
Qed.

(** The outcome of [obfuscate] and the services it leaves behind do not
    depend on the clock, the environment or the trace it starts from. *)
Lemma obfuscate_oblivious (sourceCode : JSValue) :
  Oblivious eq (obfuscate sourceCode) (obfuscate sourceCode).
Proof.
  repeat oblivious_step.
Qed.

(** C8.  Two calls of [obfuscate] on the same source, under the same
    options and collaborators, started with the same state of the
    services (the random generator with its seed among them), have the
    same outcome, the same code and map or the same exception, and
    leave the services in the same state, whatever the clock, the
    environment and the log they start from. *)
Theorem obfuscate_is_deterministic
  (sourceCode : JSValue) (w1 w2 : World S) :
  services w1 = services w2 ->
  fst (obfuscate sourceCode w1) = fst (obfuscate sourceCode w2)
  /\ services (snd (obfuscate sourceCode w1))
     = services (snd (obfuscate sourceCode w2)).
Proof.
  intros Hservices.
  destruct (obfuscate_oblivious sourceCode w1 w2 Hservices)
    as [Hafter Houtcome].
  split; [| exact Hafter].
  destruct (fst (obfuscate sourceCode w1)) as [r1 | e1],
           (fst (obfuscate sourceCode w2)) as [r2 | e2];
    try contradiction; congruence.
Qed.
End DriverFacts.

(* ===================================================================== *)
(** * The statements on concrete inputs *)
(* ===================================================================== *)

(** Three [enter] visitors in a row on a node that is not ignored: the
    first renames, the second answers nothing, the third renames again. *)
Lemma fused_callback_threads_the_node_witness :
  isIgnoredNode Demo.nodeMetadata Demo.identifier = false
  /\ (forall sentinel, isNode Demo.guards (ASentinel sentinel) = false)
  /\ fst (Demo.mergeVisitorsForDirection
            [ Demo.enterOnly (Demo.renameTo "First");
              Demo.enterOnly Demo.answerVoid;
              Demo.enterOnly (Demo.renameTo "Last") ]
            Enter Demo.identifier None (Demo.world 0))
     = Ok (RNode (Demo.leaf "Last")).
Proof.
  split; [reflexivity |].
  split; [intros sentinel; reflexivity |].
  unfold Demo.mergeVisitorsForDirection.
  rewrite (proj2 (@fused_callback_threads_the_node Demo.State
                    Demo.guards Demo.nodeMetadata
                    [ Demo.enterOnly (Demo.renameTo "First");
                      Demo.enterOnly Demo.answerVoid;
                      Demo.enterOnly (Demo.renameTo "Last") ]
                    Enter Demo.identifier None (Demo.world 0)
                    (or_intror eq_refl))
                 (fun sentinel => eq_refl)).
  reflexivity.
Defined.

(** What the second part of C3 needs its condition for.  Under a guard
    that lets every object through, a visitor that answers with the
    abort sentinel makes the fused callback answer with it, and a
    skip-subtree sentinel answered by the second visitor of a batch is
    the answer on a node that is not ignored; under the guard of [Demo]
    both sentinels are passed over. *)
Example fused_callback_hands_on_an_accepted_sentinel :
  fst (NodeTransformersRunner.mergeVisitorsForDirection
         Sample.laxGuards Demo.nodeMetadata
         [Demo.enterOnly (Sample.answer (ROption Break))]
         Enter Demo.identifier None (Demo.world 0))
  = Ok (ROption Break)
  /\ fst (NodeTransformersRunner.mergeVisitorsForDirection
            Sample.laxGuards Demo.nodeMetadata
            [ Demo.enterOnly (Demo.renameTo "First");
              Demo.enterOnly (Sample.answer (ROption Skip)) ]
            Enter Demo.identifier None (Demo.world 0))
     = Ok (ROption Skip)
  /\ fst (Demo.mergeVisitorsForDirection
            [Demo.enterOnly (Sample.answer (ROption Break))]
            Enter Demo.identifier None (Demo.world 0))
     = Ok (RNode Demo.identifier)
  /\ fst (Demo.mergeVisitorsForDirection
            [ Demo.enterOnly (Demo.renameTo "First");
              Demo.enterOnly (Sample.answer (ROption Skip)) ]
            Enter Demo.identifier None (Demo.world 0))
     = Ok (RNode (Demo.leaf "First")).
Proof.
  repeat split; reflexivity.
Qed.

(** C3 as stated fails on a node flagged as ignored: the fused callback
    answers skip-subtree, while threading the node through the one
    visitor of the batch yields the renamed node. *)
Lemma fused_callback_on_ignored_node_does_not_thread :
  fst (Demo.mergeVisitorsForDirection
         [Demo.enterOnly (Demo.renameTo "Renamed")]
         Enter (Demo.ignoredLeaf "Identifier") None (Demo.world 0))
  = Ok (ROption Skip)
  /\ fst ((node' <- NodeTransformersRunner.threadVisitors Demo.guards
                      Enter None 0
                      [Demo.enterOnly (Demo.renameTo "Renamed")]
                      (Demo.ignoredLeaf "Identifier") ;;
           ret (RNode node')) (Demo.world 0))
     = Ok (RNode (Demo.ignoredLeaf "Renamed"))
  /\ Demo.mergeVisitorsForDirection
       [Demo.enterOnly (Demo.renameTo "Renamed")]
       Enter (Demo.ignoredLeaf "Identifier") None (Demo.world 0)
     <> (node' <- NodeTransformersRunner.threadVisitors Demo.guards
                    Enter None 0
                    [Demo.enterOnly (Demo.renameTo "Renamed")]
                    (Demo.ignoredLeaf "Identifier") ;;
         ret (RNode node')) (Demo.world 0).
Proof.
  split; [reflexivity |]. split; [reflexivity |].
  intros Heq. apply (f_equal fst) in Heq. discriminate Heq.
Qed.

(** An ignored function expression under one [enter] and one [leave]
    visitor: the fused callback answers skip-subtree and the walk leaves
    the node where it is, with nothing on the trace. *)
Lemma fused_callback_skips_ignored_node_witness :
  isIgnoredNode Demo.nodeMetadata Demo.ignoredFunction = true
  /\ Demo.mergeVisitorsForDirection
       [Demo.enterOnly (Demo.renameTo "Renamed")]
       Enter Demo.ignoredFunction None (Demo.world 0)
     = (Ok (ROption Skip), Demo.world 0)
  /\ Traversal.walk (fun _ => false)
       (Demo.mergeVisitorsForDirection
          [Demo.enterOnly (Demo.renameTo "Renamed")] Enter)
       (Demo.mergeVisitorsForDirection
          [Demo.leaveOnly (Demo.renameTo "Seen")] Leave)
       8 Demo.ignoredFunction None (Demo.world 0)
     = (Ok (Some (Demo.ignoredFunction, false)), Demo.world 0).
Proof.
  split; [reflexivity |].
  apply (@fused_callback_skips_ignored_node Demo.State
           Demo.guards Demo.nodeMetadata
           [Demo.enterOnly (Demo.renameTo "Renamed")]
           [Demo.leaveOnly (Demo.renameTo "Seen")]
           Enter (fun _ => false) 7 Demo.ignoredFunction None (Demo.world 0)).
  - discriminate.
  - reflexivity.
Defined.

(** C4 as stated fails for a direction without visitors: the merged
    callback answers with the ignored node itself, not with
    skip-subtree. *)
Lemma merged_callback_without_visitors_does_not_skip :
  isIgnoredNode Demo.nodeMetadata Demo.ignoredFunction = true
  /\ Demo.mergeVisitorsForDirection [] Enter Demo.ignoredFunction None
                                    (Demo.world 0)
     = (Ok (RNode Demo.ignoredFunction), Demo.world 0)
  /\ Demo.mergeVisitorsForDirection [] Enter Demo.ignoredFunction None
                                    (Demo.world 0)
     <> (Ok (ROption Skip), Demo.world 0).
Proof.
  split; [reflexivity |]. split; [reflexivity |].
  intros Heq. apply (f_equal fst) in Heq. discriminate Heq.
Qed.

(** Why the walk needs an [enter] visitor for the subtree to be spared: a
    batch with [leave] visitors only has the identity as its [enter]
    callback, an engine without a test of its own descends below the
    ignored function, and the [leave] visitor is invoked on the
    identifier inside it. *)
Example leave_only_batch_visits_below_ignored_node :
  trace (snd (Traversal.walk (fun _ => false)
                (Demo.mergeVisitorsForDirection [] Enter)
                (Demo.mergeVisitorsForDirection
                   [Demo.leaveOnly (Demo.renameTo "Seen")] Leave)
                8 Demo.programWithIgnoredFunction None (Demo.world 0)))
  = [ Called (VisitorCall Leave 0 Demo.identifier
                          (Some Demo.ignoredFunction)
                          (Ok (RNode (Demo.leaf "Seen"))));
      Called (VisitorCall Leave 0
                (mkNode "Program"
                   [mkNode "FunctionExpression" [Demo.leaf "Seen"] None None
                           (Some (mkMetadata (Some true)))]
                   None None None)
                None
                (Ok (RNode
                       (mkNode "Seen"
                          [mkNode "FunctionExpression" [Demo.leaf "Seen"]
                                  None None (Some (mkMetadata (Some true)))]
                          None None None)))) ].
Proof. reflexivity. Qed.

(** Solving [In e l] hypotheses over an explicit list: every disjunct
    either clashes or fixes the unknowns. *)
Ltac split_In H :=
  cbn [In] in H;
  repeat (destruct H as [H | H]; [try discriminate H |]);
  try contradiction H.

(** [obfuscate] wired to the collaborators of [Demo]. *)
Local Notation "'demo_obfuscate'" :=
  (JavaScriptObfuscator.obfuscate Demo.codeTransformersRunner
     Demo.nodeTransformersRunner Demo.randomGenerator Demo.options
     (EcmaYear 2020) Demo.parse Demo.generate Demo.buildVersionMessage
     Demo.guards).

(** A source with one declaration: the call returns and the stages run
    are the canonical ones for the options at hand. *)
Lemma node_stages_follow_the_canonical_order_witness :
  stagesRun (trace (snd (demo_obfuscate (JSString "var a=1;") (Demo.world 0))))
  = [ NodeTransformationStage.Initializing;
      NodeTransformationStage.Preparing;
      NodeTransformationStage.ControlFlowFlattening;
      NodeTransformationStage.Converting;
      NodeTransformationStage.RenameIdentifiers;
      NodeTransformationStage.StringArray;
      NodeTransformationStage.Simplifying;
      NodeTransformationStage.Finalizing ].
Proof.
  pose proof (@node_stages_follow_the_canonical_order Demo.State
                Demo.codeTransformersRunner Demo.nodeTransformersRunner
                Demo.randomGenerator Demo.options (EcmaYear 2020) Demo.parse
                Demo.generate Demo.buildVersionMessage Demo.guards
                (JSString "var a=1;") (Demo.world 0))
    as (evs & Htrace & _ & _ & Hreturns).
  assert (Hresult :
            fst (demo_obfuscate (JSString "var a=1;") (Demo.world 0))
            = Ok (mkObfuscationResult "VariableDeclaration"
                                      "sourceMap|var a=1;"))
    by (vm_compute; reflexivity).
  destruct (Hreturns _ Hresult) as (ast & astTree & Hin & Hrun).
  rewrite Htrace. cbn [trace Demo.world app].
  rewrite Hrun.
  vm_compute in Htrace. subst evs.
  split_In Hin.
  injection Hin as <- <-. vm_compute. reflexivity.
Defined.

(** C1 as stated fails on the empty source: with [simplify] enabled the
    only node stage that runs is Initializing; Preparing and the other
    stages listed as unconditional do not run. *)
Lemma empty_source_runs_only_the_initializing_stage :
  stagesRun (trace (snd (demo_obfuscate (JSString "") (Demo.world 0))))
  = [NodeTransformationStage.Initializing]
  /\ simplify Demo.options = true
  /\ stagesRun (trace (snd (demo_obfuscate (JSString "") (Demo.world 0))))
     <> canonicalStages Demo.options.
Proof.
  split; [vm_compute; reflexivity |]. split; [reflexivity |].
  intros Heq. vm_compute in Heq. discriminate Heq.
Qed.

(** The empty source: the tree that comes back from Initializing is an
    empty program, the warning is logged once, no further node stage runs
    and the call returns the generated (empty) code. *)
Lemma empty_program_short_circuit_witness :
  fst (demo_obfuscate (JSString "") (Demo.world 0))
  = Ok (mkObfuscationResult "" "sourceMap|")
  /\ stagesRun (trace (snd (demo_obfuscate (JSString "") (Demo.world 0))))
     = [NodeTransformationStage.Initializing]
  /\ emptySourceWarnings
       (trace (snd (demo_obfuscate (JSString "") (Demo.world 0)))) = 1.
Proof.
  pose proof (@empty_program_short_circuit Demo.State
                Demo.codeTransformersRunner Demo.nodeTransformersRunner
                Demo.randomGenerator Demo.options (EcmaYear 2020) Demo.parse
                Demo.generate Demo.buildVersionMessage Demo.guards
                (JSString "") (Demo.world 0)
                "seed" "" Demo.emptyProgram Demo.emptyProgram
                (Demo.mkState "seed" "" 0) (Demo.mkState "seed" "" 0)
                (Demo.mkState "seed" "" 0) (Demo.mkState "seed" "" 1)
                eq_refl eq_refl eq_refl eq_refl eq_refl eq_refl eq_refl
                eq_refl)
    as (_ & _ & Hcall).
  rewrite (Hcall (mkEscodegenOutput
                    "" (Some (mkSourceMapGenerator "sourceMap|")))
                 "" (Demo.mkState "seed" "" 1) (Demo.mkState "seed" "" 1)
                 eq_refl eq_refl).
  repeat split; vm_compute; reflexivity.
Defined.

(** A number handed to [obfuscate]. *)
Lemma non_string_source_is_the_empty_string_witness :
  typeof (JSNumber 42) <> "string"
  /\ demo_obfuscate (JSNumber 42) (Demo.world 0)
     = demo_obfuscate (JSString "") (Demo.world 0).
Proof.
  assert (Htype : typeof (JSNumber 42) <> "string") by discriminate.
  split; [exact Htype |].
  apply (proj2 (proj2
           (@non_string_source_is_the_empty_string Demo.State
              Demo.codeTransformersRunner Demo.nodeTransformersRunner
              Demo.randomGenerator Demo.options (EcmaYear 2020) Demo.parse
              Demo.generate Demo.buildVersionMessage Demo.guards
              (JSNumber 42) Htype))).
Defined.

(** C6 as stated fails on a source that starts with a hashbang line: the
    preparing code stage strips the line, and what is embedded as
    [sourceContent] is the stripped text, not the text the caller passed. *)
Lemma source_content_is_not_the_original_source :
  sourceMap Demo.options = true
  /\ sourceMapSourcesMode Demo.options = SourceMapSourcesMode.SourcesContent
  /\ exists params r,
      In (Called (Generate Demo.declarationProgram params r))
         (trace (snd (demo_obfuscate (JSString Demo.hashbangSource)
                                     (Demo.world 0))))
      /\ gen_sourceContent params = Some "var a=1;"
      /\ gen_sourceContent params <> Some Demo.hashbangSource.
Proof.
  split; [reflexivity |]. split; [reflexivity |].
  exists (JavaScriptObfuscator.generateParams Demo.options "var a=1;").
  exists (Ok (mkEscodegenOutput
                "VariableDeclaration"
                (Some (mkSourceMapGenerator "sourceMap|var a=1;")))).
  split; [| split; [reflexivity | discriminate]].
  vm_compute. repeat first [left; reflexivity | right].
Qed.

(** The same source under the amended statement: the generator is
    called, compact, with the file name [sourceMap] and the prepared
    text. *)
Lemma generator_options_follow_configuration_witness :
  exists ast params raw,
    In (Called (Generate ast params (Ok raw)))
       (trace (snd (demo_obfuscate (JSString Demo.hashbangSource)
                                   (Demo.world 0))))
    /\ gen_format_compact params = Some true
    /\ gen_sourceMap params = Some "sourceMap"
    /\ gen_sourceContent params = Some "var a=1;".
Proof.
  pose proof (@generator_options_follow_configuration Demo.State
                Demo.codeTransformersRunner Demo.nodeTransformersRunner
                Demo.randomGenerator Demo.options (EcmaYear 2020) Demo.parse
                Demo.generate Demo.buildVersionMessage Demo.guards
                (JSString Demo.hashbangSource) (Demo.world 0))
    as (evs & Htrace & Hreturns & Hcalls).
  assert (Hresult :
            fst (demo_obfuscate (JSString Demo.hashbangSource) (Demo.world 0))
            = Ok (mkObfuscationResult
                    ("#!/usr/bin/env node"
                     ++ String Demo.newline "VariableDeclaration")%string
                    "sourceMap|var a=1;"))
    by (vm_compute; reflexivity).
  destruct (Hreturns _ Hresult) as (ast & params & raw & Hin).
  destruct (Hcalls ast params (Ok raw) Hin)
    as (prepared & Hprepared & Hcompact & Hcontent & _ & _).
  destruct (Hcontent eq_refl eq_refl) as [Hname Hembedded].
  exists ast, params, raw.
  rewrite Htrace. cbn [trace Demo.world app].
  split; [exact Hin |]. split; [exact Hcompact |]. split; [exact Hname |].
  rewrite Hembedded.
  vm_compute in Htrace. subst evs.
  split_In Hprepared.
  injection Hprepared as <-. vm_compute. reflexivity.
Defined.

(** The map of the same call. *)
Lemma result_map_is_a_string_witness :
  fst (demo_obfuscate (JSString Demo.hashbangSource) (Demo.world 0))
  = Ok (mkObfuscationResult
          ("#!/usr/bin/env node"
           ++ String Demo.newline "VariableDeclaration")%string
          "sourceMap|var a=1;")
  /\ exists evs ast params raw,
      trace (snd (demo_obfuscate (JSString Demo.hashbangSource)
                                 (Demo.world 0)))
      = trace (Demo.world 0) ++ evs
      /\ In (Called (Generate ast params (Ok raw))) evs
      /\ raw_map raw = Some (mkSourceMapGenerator "sourceMap|var a=1;").
Proof.
  assert (Hresult :
            fst (demo_obfuscate (JSString Demo.hashbangSource) (Demo.world 0))
            = Ok (mkObfuscationResult
                    ("#!/usr/bin/env node"
                     ++ String Demo.newline "VariableDeclaration")%string
                    "sourceMap|var a=1;"))
    by (vm_compute; reflexivity).
  split; [exact Hresult |].
  destruct (@result_map_is_a_string Demo.State
              Demo.codeTransformersRunner Demo.nodeTransformersRunner
              Demo.randomGenerator Demo.options (EcmaYear 2020) Demo.parse
              Demo.generate Demo.buildVersionMessage Demo.guards
              (JSString Demo.hashbangSource) (Demo.world 0) _ Hresult)
    as (evs & ast & params & raw & Htrace & Hin & Hmap & _).
  exists evs, ast, params, raw.
  split; [exact Htrace |]. split; [exact Hin |].
  vm_compute in Htrace. subst evs.
  split_In Hin.
  injection Hin as <- <- <-. reflexivity.
Defined.

(** Two runs on the same source and services, one starting at time 0 and
    one at time 1000: the outcomes are the same although the logged
    durations are not. *)
Lemma obfuscate_is_deterministic_witness :
  services (Demo.world 0) = services (Demo.world 1000)
  /\ fst (demo_obfuscate (JSString Demo.hashbangSource) (Demo.world 0))
     = fst (demo_obfuscate (JSString Demo.hashbangSource) (Demo.world 1000))
  /\ trace (snd (demo_obfuscate (JSString Demo.hashbangSource) (Demo.world 0)))
     <> trace (snd (demo_obfuscate (JSString Demo.hashbangSource)
                                   (Demo.world 1000))).
Proof.
  split; [reflexivity |]. split.
  - apply (@obfuscate_is_deterministic Demo.State
             Demo.codeTransformersRunner Demo.nodeTransformersRunner
             Demo.randomGenerator Demo.options (EcmaYear 2020) Demo.parse
             Demo.generate Demo.buildVersionMessage Demo.guards
             (JSString Demo.hashbangSource) (Demo.world 0) (Demo.world 1000)
             eq_refl).
  - intros Heq.
    apply (f_equal (fun evs => last evs (ConsoleLog []))) in Heq.
    vm_compute in Heq. discriminate Heq.
Defined.

(** The runner on a concrete tree: without names the tree comes back as it
    is; with one transformer that only has a [leave] visitor the walk
    renames every node it leaves, the identifier below the ignored function
    included. *)
Example transform_on_a_concrete_tree :
  fst (Demo.transform Demo.programWithIgnoredFunction []
                      NodeTransformationStage.Preparing (Demo.world 0))
  = Ok Demo.programWithIgnoredFunction
  /\ fst (Demo.transform Demo.programWithIgnoredFunction [MetadataTransformer]
                         NodeTransformationStage.Preparing (Demo.world 0))
     = Ok (mkNode "Seen"
             [mkNode "FunctionExpression" [Demo.leaf "Seen"] None None
                     (Some (mkMetadata (Some true)))]
             None None None).
Proof.
  split; vm_compute; reflexivity.
Qed.

(* ===================================================================== *)
(** * The dictionary of normalized transformers *)
(* ===================================================================== *)

Section DictionaryFacts.
Variable A : Type.

Lemma NodeTransformer_beq_eq (x y : NodeTransformer) :
  NodeTransformer_beq x y = true <-> x = y.
Proof.
  split.
  - apply internal_NodeTransformer_dec_bl.
  - apply internal_NodeTransformer_dec_lb.
Qed.

Lemma NodeTransformer_beq_sym (x y : NodeTransformer) :
  NodeTransformer_beq x y = NodeTransformer_beq y x.
Proof.
  destruct (NodeTransformer_beq x y) eqn:Hxy,
           (NodeTransformer_beq y x) eqn:Hyx; try reflexivity.
  - apply NodeTransformer_beq_eq in Hxy. subst y.
    rewrite (proj2 (NodeTransformer_beq_eq x x) eq_refl) in Hyx.
    discriminate.
  - apply NodeTransformer_beq_eq in Hyx. subst y.
    rewrite (proj2 (NodeTransformer_beq_eq x x) eq_refl) in Hxy.
    discriminate.
Qed.

Lemma existsb_beq_In (name : NodeTransformer) (keys : list NodeTransformer) :
  existsb (NodeTransformer_beq name) keys = true <-> In name keys.
Proof.
  rewrite existsb_exists. split.
  - intros (k & Hin & Heq). apply NodeTransformer_beq_eq in Heq. congruence.
  - intros Hin. exists name. split; [exact Hin |].
    apply NodeTransformer_beq_eq. reflexivity.
Qed.

(** Writing a key: the keys of [{ ...acc, [name]: value }]. *)
Lemma dict_keys_set (d : TDictionary A) (name : NodeTransformer) (a : A) :
  dict_keys (dict_set d name a) = addKey (dict_keys d) name.
Proof.
  unfold addKey, dict_keys.
  induction d as [| [k b] d IH]; cbn [dict_set List.map fst existsb].
  - reflexivity.
  - rewrite (NodeTransformer_beq_sym name k).
    destruct (NodeTransformer_beq k name) eqn:Hk; cbn [orb List.map fst].
    + reflexivity.
    + rewrite IH.
      destruct (existsb (NodeTransformer_beq name) (List.map fst d));
        reflexivity.
Qed.

Lemma dict_get_In (d : TDictionary A) (name : NodeTransformer) :
  dict_get d name <> None <-> In name (dict_keys d).
Proof.
  unfold dict_keys.
  induction d as [| [k b] d IH]; cbn [dict_get List.map fst In].
  - split; [congruence | contradiction].
  - destruct (NodeTransformer_beq k name) eqn:Hk.
    + apply NodeTransformer_beq_eq in Hk. split; [auto | discriminate].
    + rewrite IH. split; [auto |].
      intros [Heq | Hin]; [| exact Hin].
      subst k. rewrite (proj2 (NodeTransformer_beq_eq name name) eq_refl) in Hk.
      discriminate.
Qed.

(** Reading back what was written, and nothing else changed. *)
Lemma dict_get_set (d : TDictionary A) (name other : NodeTransformer) (a : A) :
  dict_get (dict_set d name a) other
  = if NodeTransformer_beq name other then Some a else dict_get d other.
Proof.
  induction d as [| [k b] d IH]; cbn [dict_set dict_get].
  - reflexivity.
  - destruct (NodeTransformer_beq k name) eqn:Hk; cbn [dict_get].
    + apply NodeTransformer_beq_eq in Hk. subst k.
      destruct (NodeTransformer_beq name other); reflexivity.
    + destruct (NodeTransformer_beq k other) eqn:Hko.
      * apply NodeTransformer_beq_eq in Hko. subst other.
        rewrite (NodeTransformer_beq_sym name k), Hk. reflexivity.
      * exact IH.
Qed.

Lemma addKey_In (keys : list NodeTransformer) (name other : NodeTransformer) :
  In other (addKey keys name) <-> In other keys \/ other = name.
Proof.
  unfold addKey.
  destruct (existsb (NodeTransformer_beq name) keys) eqn:Hin.
  - apply existsb_beq_In in Hin. split; [auto |].
    intros [H | ->]; assumption.
  - rewrite in_app_iff. cbn [In]. intuition congruence.
Qed.

Lemma addKey_NoDup (keys : list NodeTransformer) (name : NodeTransformer) :
  NoDup keys -> NoDup (addKey keys name).
Proof.
  intros Hnodup. unfold addKey.
  destruct (existsb (NodeTransformer_beq name) keys) eqn:Hin;
    [exact Hnodup |].
  assert (Hnotin : ~ In name keys).
  { intros H. apply existsb_beq_In in H. congruence. }
  clear Hin. induction Hnodup as [| k keys Hk Hnodup IH]; cbn [app].
  - constructor; [intros [] | constructor].
  - constructor.
    + rewrite in_app_iff. cbn [In]. intros [H | [H | []]].
      * contradiction.
      * subst k. apply Hnotin. left. reflexivity.
    + apply IH. intros H. apply Hnotin. right. exact H.
Qed.

Lemma fold_addKey_In (names keys : list NodeTransformer)
  (other : NodeTransformer) :
  In other (fold_left addKey names keys) <-> In other keys \/ In other names.
Proof.
  revert keys. induction names as [| name names IH]; intros keys;
    cbn [fold_left In].
  - intuition.
  - rewrite IH, addKey_In. intuition congruence.
Qed.

Lemma fold_addKey_NoDup (names keys : list NodeTransformer) :
  NoDup keys -> NoDup (fold_left addKey names keys).
Proof.
  revert keys. induction names as [| name names IH]; intros keys Hnodup;
    cbn [fold_left].
  - exact Hnodup.
  - apply IH, addKey_NoDup, Hnodup.
Qed.
End DictionaryFacts.

(* ===================================================================== *)
(** * Facts about the scheduler front end *)
(* ===================================================================== *)

Lemma Prefix_nil {A : Type} (l : list A) : Prefix [] l.
Proof. exists l. reflexivity. Qed.

Lemma Prefix_cons {A : Type} (a : A) (l1 l2 : list A) :
  Prefix l1 l2 -> Prefix (a :: l1) (a :: l2).
Proof. intros [l3 ->]. exists l3. reflexivity. Qed.

Lemma lastEvent_cons (e : Event) (evs : list Event) :
  lastEvent (e :: evs) = match lastEvent evs with
                         | Some e' => Some e'
                         | None => Some e
                         end.
Proof.
  unfold lastEvent. cbn [rev].
  destruct (rev evs) as [| e' rest]; reflexivity.
Qed.

Section NormalizationFacts.
Variable S : Type.
Variable nodeTransformerFactory :
  NodeTransformer -> Service S (INodeTransformer S).
Variable stage : NodeTransformationStage.t.

Local Notation "'normalizeFrom'" :=
  (NodeTransformersRunner.buildNormalizedNodeTransformers_from
     nodeTransformerFactory).

(** The [reduce] of [buildNormalizedNodeTransformers], from any
    accumulator: the factory is asked for the names in order, every
    transformer it returns is asked for its visitor once, and the keys of
    the result are those of the accumulator followed by the names that
    answered with a visitor. *)
Lemma normalizeFrom_emits (names : list NodeTransformer) :
  forall acc : TDictionary (INodeTransformer S),
    Emits (normalizeFrom acc names stage)
      (fun r evs =>
         Prefix (instantiated evs) names
         /\ Prefix (asked evs) (instantiated evs)
         /\ exceptions evs = match r with
                             | Ok _ => []
                             | Throw e => [e]
                             end
         /\ forall d, r = Ok d ->
                      instantiated evs = names
                      /\ asked evs = names
                      /\ dict_keys d
                         = fold_left addKey (active evs) (dict_keys acc)).
Proof.
  induction names as [| name names IH]; intros acc;
    cbn [NodeTransformersRunner.buildNormalizedNodeTransformers_from].
  - apply Emits_ret. cbn.
    split; [apply Prefix_nil |]. split; [apply Prefix_nil |].
    split; [reflexivity |].
    intros d [= <-]. repeat split.
  - apply Emits_bind, Emits_call. intros s.
    destruct (nodeTransformerFactory name s) as [[transformer | e] s'];
      cbn [fst result_void].
    + apply Emits_bind, Emits_call. intros s2.
      destruct (getVisitor transformer stage s2) as [[[visitor |] | e] s3];
        cbn [fst result_map is_some].
      * eapply Emits_weaken; [apply IH |].
        intros r evs (Hinst & Hasked & Hexc & Hok).
        unfold instantiated, asked, active, exceptions in *. cbn.
        rewrite Hexc.
        split; [apply Prefix_cons, Hinst |].
        split; [apply Prefix_cons, Hasked |].
        split; [reflexivity |].
        intros d Hd. destruct (Hok d Hd) as (-> & -> & ->).
        rewrite dict_keys_set. repeat split.
      * eapply Emits_weaken; [apply IH |].
        intros r evs (Hinst & Hasked & Hexc & Hok).
        unfold instantiated, asked, active, exceptions in *. cbn.
        rewrite Hexc.
        split; [apply Prefix_cons, Hinst |].
        split; [apply Prefix_cons, Hasked |].
        split; [reflexivity |].
        intros d Hd. destruct (Hok d Hd) as (-> & -> & ->).
        repeat split.
      * cbn. split; [apply Prefix_cons, Prefix_nil |].
        split; [apply Prefix_cons, Prefix_nil |].
        split; [reflexivity | discriminate].
    + cbn. split; [apply Prefix_cons, Prefix_nil |].
      split; [apply Prefix_nil |].
      split; [reflexivity | discriminate].
Qed.

(** The same [reduce], event by event, and where the values of the
    result come from: from the accumulator, or from the factory asked
    for that very name. *)
Lemma normalizeFrom_shape (names : list NodeTransformer) :
  forall acc : TDictionary (INodeTransformer S),
    Emits (normalizeFrom acc names stage)
      (fun r evs =>
         instantiatedThenAsked stage names evs
         /\ match r with
            | Ok d =>
                forall name transformer,
                  dict_get d name = Some transformer ->
                  dict_get acc name = Some transformer
                  \/ exists s s',
                      nodeTransformerFactory name s = (Ok transformer, s')
            | Throw e =>
                exists call,
                  lastEvent evs = Some (Called call)
                  /\ raisedBy call = Some e
            end).
Proof.
  induction names as [| name names IH]; intros acc;
    cbn [NodeTransformersRunner.buildNormalizedNodeTransformers_from].
  - apply Emits_ret. cbn. split; [reflexivity |]. auto.
  - apply Emits_bind, Emits_call. intros s.
    destruct (nodeTransformerFactory name s) as [[transformer | e] s']
      eqn:Hmade; cbn [fst result_void].
    + apply Emits_bind, Emits_call. intros s2.
      destruct (getVisitor transformer stage s2) as [[[visitor |] | e] s3];
        cbn [fst result_map is_some].
      * eapply Emits_weaken; [apply IH |].
        intros r evs (Hshape & Hr). cbn [app instantiatedThenAsked].
        split; [repeat split; exact Hshape |].
        destruct r as [d | e].
        -- intros other transformer' Hget.
           destruct (Hr other transformer' Hget) as [Hacc | Hfactory];
             [| right; exact Hfactory].
           rewrite dict_get_set in Hacc.
           destruct (NodeTransformer_beq name other) eqn:Hother;
             [| left; exact Hacc].
           apply NodeTransformer_beq_eq in Hother. subst other.
           injection Hacc as <-. right. exists s, s'. exact Hmade.
        -- destruct Hr as (call & Hlast & Hraised).
           exists call. rewrite !lastEvent_cons, Hlast. auto.
      * eapply Emits_weaken; [apply IH |].
        intros r evs (Hshape & Hr). cbn [app instantiatedThenAsked].
        split; [repeat split; exact Hshape |].
        destruct r as [d | e]; [exact Hr |].
        destruct Hr as (call & Hlast & Hraised).
        exists call. rewrite !lastEvent_cons, Hlast. auto.
      * cbn [app instantiatedThenAsked]. split; [repeat split |].
        eexists. split; reflexivity.
    + cbn [instantiatedThenAsked]. split; [repeat split |].
      eexists. split; reflexivity.
Qed.

(** X1.  [buildNormalizedNodeTransformers] goes through the names in
    the order of the list: it asks the factory for the name and, if the
    factory answers, asks the transformer it got for its visitor at
    once, before the next name; a call that raises is the last thing
    that happens, and its exception is the outcome.  When it returns, no
    call raised, every name was instantiated and asked, and the keys of
    the dictionary are the names that answered with a visitor, each
    once, in the order in which they first answered: a name is in the
    dictionary exactly when it answered with a visitor, and what is
    stored under a name is a transformer the factory made for that
    name. *)
Theorem normalization_lists_the_active_transformers
  (names : list NodeTransformer) (w : World S) :
  exists evs,
    trace (snd (NodeTransformersRunner.buildNormalizedNodeTransformers
                  nodeTransformerFactory names stage w))
    = trace w ++ evs
    /\ instantiatedThenAsked stage names evs
    /\ Prefix (instantiated evs) names
    /\ Prefix (asked evs) (instantiated evs)
    /\ (forall e,
          fst (NodeTransformersRunner.buildNormalizedNodeTransformers
                 nodeTransformerFactory names stage w) = Throw e ->
          exceptions evs = [e]
          /\ exists call,
              lastEvent evs = Some (Called call)
              /\ raisedBy call = Some e)
    /\ forall d,
        fst (NodeTransformersRunner.buildNormalizedNodeTransformers
               nodeTransformerFactory names stage w) = Ok d ->
        exceptions evs = []
        /\ instantiated evs = names
        /\ asked evs = names
        /\ dict_keys d = firstOccurrences (active evs)
        /\ NoDup (dict_keys d)
        /\ (forall name, dict_get d name <> None <-> In name (active evs))
        /\ (forall name transformer,
               dict_get d name = Some transformer ->
               exists s s',
                 nodeTransformerFactory name s = (Ok transformer, s')).
Proof.
  destruct (normalizeFrom_emits names [] w)
    as (evs & Htrace & Hinst & Hasked & Hexceptions & Hok).
  destruct (normalizeFrom_shape names [] w)
    as (evs' & Htrace' & Hshape & Hvalues).
  assert (evs' = evs) as ->.
  { rewrite Htrace in Htrace'. exact (eq_sym (app_inv_head _ _ _ Htrace')). }
  unfold NodeTransformersRunner.buildNormalizedNodeTransformers.
  exists evs. split; [exact Htrace |]. split; [exact Hshape |].
  split; [exact Hinst |]. split; [exact Hasked |].
  split.
  - intros e He. rewrite He in *. split; assumption.
  - intros d Hd. rewrite Hd in *.
    destruct (Hok d eq_refl) as (Hnames & Hall & Hkeys).
    cbn [dict_keys List.map] in Hkeys.
    split; [exact Hexceptions |].
    split; [exact Hnames |]. split; [exact Hall |].
    split; [exact Hkeys |]. split; [| split].
    + rewrite Hkeys. apply fold_addKey_NoDup. constructor.
    + intros name. rewrite dict_get_In, Hkeys, fold_addKey_In.
      cbn [In]. intuition.
    + intros name transformer Hget.
      destruct (Hvalues name transformer Hget) as [Hacc | Hfactory];
        [discriminate Hacc | exact Hfactory].
Qed.
End NormalizationFacts.

Section CollectFacts.
Variable S : Type.
Variable normalized : TDictionary (INodeTransformer S).
Variable stage : NodeTransformationStage.t.

Local Notation "'collect'" :=
  (NodeTransformersRunner.collectVisitors normalized stage).

(** The inner loop of [transform], from any two lists of visitors. *)
Lemma collectVisitors_emits (group : list NodeTransformer) :
  forall enterVisitors leaveVisitors : list (IVisitor S),
    Emits (collect group enterVisitors leaveVisitors)
      (fun r evs =>
         forallb isGetVisitor evs = true
         /\ Prefix (asked evs) group
         /\ match r with
            | Ok (enterVisitors', leaveVisitors') =>
                exceptions evs = []
                /\ asked evs = group
                /\ Forall (fun name => dict_get normalized name <> None) group
                /\ exists pushedEnter pushedLeave,
                    enterVisitors' = enterVisitors ++ pushedEnter
                    /\ leaveVisitors' = leaveVisitors ++ pushedLeave
                    /\ forallb enterOnlyVisitor pushedEnter = true
                    /\ forallb leaveOnlyVisitor pushedLeave = true
                    /\ List.length pushedEnter <= List.length (active evs)
                    /\ List.length pushedLeave <= List.length (active evs)
            | Throw e =>
                exceptions evs = [e]
                \/ (exceptions evs = []
                    /\ e = TypeError "nodeTransformer is undefined"
                    /\ exists name,
                        In name group /\ dict_get normalized name = None)
            end).
Proof.
  induction group as [| name group IH]; intros enterVisitors leaveVisitors;
    cbn [NodeTransformersRunner.collectVisitors].
  - apply Emits_ret. cbn.
    split; [reflexivity |]. split; [apply Prefix_nil |].
    split; [reflexivity |]. split; [reflexivity |]. split; [constructor |].
    exists [], []. rewrite !app_nil_r. cbn. repeat split; constructor.
  - destruct (dict_get normalized name) as [transformer |] eqn:Hget.
    + apply Emits_bind, Emits_call. intros s.
      destruct (getVisitor transformer stage s) as [[[visitor |] | e] s'];
        cbn [fst result_map is_some].
      * eapply Emits_weaken; [apply IH |].
        intros r evs (Honly & Hasked & Hr).
        unfold asked, active, exceptions in *. cbn.
        split; [exact Honly |].
        split; [apply Prefix_cons, Hasked |].
        destruct r as [[enterVisitors' leaveVisitors'] | e].
        -- destruct Hr as (Hexc & Hall & Hpresent & pushedEnter & pushedLeave
                           & -> & -> & HenterOnly & HleaveOnly & Hne & Hnl).
           split; [exact Hexc |]. split; [rewrite Hall; reflexivity |].
           split; [constructor; [congruence | exact Hpresent] |].
           exists (match enter visitor with
                   | Some f => [mkVisitor (Some f) None]
                   | None => []
                   end ++ pushedEnter),
                  (match leave visitor with
                   | Some f => [mkVisitor None (Some f)]
                   | None => []
                   end ++ pushedLeave).
           destruct (enter visitor), (leave visitor);
             rewrite <- ?app_assoc, ?app_nil_r; cbn [app];
             cbn [forallb enterOnlyVisitor leaveOnlyVisitor enter leave
                  is_some andb negb List.length];
             repeat split; try assumption; try lia.
        -- destruct Hr as [Hexc | (Hexc & -> & missing & Hin & Hmissing)].
           ++ left. exact Hexc.
           ++ right. split; [exact Hexc |]. split; [reflexivity |].
              exists missing. split; [right; exact Hin | exact Hmissing].
      * eapply Emits_weaken; [apply IH |].
        intros r evs (Honly & Hasked & Hr).
        unfold asked, active, exceptions in *. cbn.
        split; [exact Honly |].
        split; [apply Prefix_cons, Hasked |].
        destruct r as [[enterVisitors' leaveVisitors'] | e].
        -- destruct Hr as (Hexc & Hall & Hpresent & pushedEnter & pushedLeave
                           & -> & -> & HenterOnly & HleaveOnly & Hne & Hnl).
           split; [exact Hexc |]. split; [rewrite Hall; reflexivity |].
           split; [constructor; [congruence | exact Hpresent] |].
           exists pushedEnter, pushedLeave. repeat split; assumption.
        -- destruct Hr as [Hexc | (Hexc & -> & missing & Hin & Hmissing)].
           ++ left. exact Hexc.
           ++ right. split; [exact Hexc |]. split; [reflexivity |].
              exists missing. split; [right; exact Hin | exact Hmissing].
      * cbn. split; [reflexivity |].
        split; [apply Prefix_cons, Prefix_nil |]. left. reflexivity.
    + apply Emits_throw. cbn.
      split; [reflexivity |]. split; [apply Prefix_nil |].
      right. split; [reflexivity |]. split; [reflexivity |].
      exists name. split; [left; reflexivity | exact Hget].
Qed.

(** X2.  The inner loop of [transform] over one group: all it does is
    ask transformers of the dictionary for their visitor, in the order
    of the group.  When it returns, every name of the group was in the
    dictionary and was asked, every visitor pushed to the [enter] list
    has an [enter] function only and every one pushed to the [leave]
    list a [leave] function only, and neither list is longer than the
    number of transformers that answered with a visitor.  When it raises
    although no transformer raised, the group names a transformer the
    dictionary lacks and the exception is the TypeError of reading
    [getVisitor] of [undefined]. *)
Theorem group_visitors_are_collected_from_known_names
  (group : list NodeTransformer) (w : World S) :
  exists evs,
    trace (snd (collect group [] [] w)) = trace w ++ evs
    /\ forallb isGetVisitor evs = true
    /\ Prefix (asked evs) group
    /\ (forall enterVisitors leaveVisitors,
          fst (collect group [] [] w) = Ok (enterVisitors, leaveVisitors) ->
          asked evs = group
          /\ Forall (fun name => dict_get normalized name <> None) group
          /\ forallb enterOnlyVisitor enterVisitors = true
          /\ forallb leaveOnlyVisitor leaveVisitors = true
          /\ List.length enterVisitors <= List.length (active evs)
          /\ List.length leaveVisitors <= List.length (active evs))
    /\ (forall e,
          fst (collect group [] [] w) = Throw e ->
          exceptions evs = [] ->
          e = TypeError "nodeTransformer is undefined"
          /\ exists name, In name group /\ dict_get normalized name = None).
Proof.
  destruct (collectVisitors_emits group [] [] w)
    as (evs & Htrace & Honly & Hasked & Hr).
  exists evs. split; [exact Htrace |]. split; [exact Honly |].
  split; [exact Hasked |]. split.
  - intros enterVisitors leaveVisitors Hok. rewrite Hok in Hr.
    destruct Hr as (_ & Hall & Hpresent & pushedEnter & pushedLeave
                    & -> & -> & HenterOnly & HleaveOnly & Hne & Hnl).
    cbn [app]. repeat split; assumption.
  - intros e Hthrow Hquiet. rewrite Hthrow in Hr.
    destruct Hr as [Hexc | (_ & He & Hmissing)]; [congruence |].
    split; assumption.
Qed.
End CollectFacts.

Section FusedCallbackFacts.
Variable S : Type.
Variable guards : NodeGuards.
Variable nodeMetadata : NodeMetadata.
Variable direction : VisitorDirection.
Variable parentNode : option Node.

Local Notation "'fused'" :=
  (NodeTransformersRunner.mergeVisitorsForDirection (S := S) guards
                                                    nodeMetadata).
Local Notation "'handedOn'" :=
  (NodeTransformersRunner.threadValues (S := S) guards).

(** The run of the visitor functions of a batch [pre ++ visitors], from
    the position after [pre]. *)
Lemma threadValues_emits (visitors : list (IVisitor S)) :
  forall (pre : list (IVisitor S)) (current : NodeValue),
    Emits (handedOn direction parentNode (List.length pre) visitors current)
      (fun r evs =>
         Forall (isVisitorCallFor direction parentNode) evs
         /\ Forall (calledFrom (pre ++ visitors) direction parentNode) evs
         /\ match r with
            | Ok value =>
                exceptions evs = []
                /\ visitorCallIndices evs
                   = positionsFrom (List.length pre) direction visitors
                /\ (value = current
                    \/ (isNode guards value = true
                        /\ exists i' current',
                            In (Called (VisitorCall direction i' current'
                                          parentNode (Ok (toResult value))))
                               evs))
            | Throw e =>
                exceptions evs = [e]
                /\ Prefix (visitorCallIndices evs)
                          (positionsFrom (List.length pre) direction visitors)
                /\ exists i' current',
                    lastEvent evs
                    = Some (Called (VisitorCall direction i' current'
                                      parentNode (Throw e)))
            end).
Proof.
  induction visitors as [| visitor visitors IH]; intros pre current;
    cbn [NodeTransformersRunner.threadValues].
  - apply Emits_ret. cbn. repeat split; auto.
  - pose proof (IH (pre ++ [visitor])) as IH'.
    rewrite length_app, Nat.add_1_r, <- app_assoc in IH'.
    cbn [app] in IH'.
    assert (Hposition :
              nth_error (pre ++ visitor :: visitors) (List.length pre)
              = Some visitor).
    { rewrite nth_error_app2 by apply Nat.le_refl.
      rewrite Nat.sub_diag. reflexivity. }
    change (match direction with
            | Enter => enter visitor
            | Leave => leave visitor
            end)
      with (directionFunction direction visitor).
    cbn [positionsFrom].
    destruct (directionFunction direction visitor) as [callback |]
      eqn:Hfunction; [| apply IH'].
    apply Emits_bind, Emits_call. intros s.
    destruct (callback current parentNode s) as [[output | e] s']
      eqn:Hcall; cbn [fst].
    + match goal with
      | |- Emits _ ?post =>
          assert (Hstep :
                    forall next,
                      next = current
                      \/ (isNode guards next = true
                          /\ output = toResult next) ->
                      Emits (handedOn direction parentNode
                                      (Datatypes.S (List.length pre))
                                      visitors next)
                            post)
      end.
      { intros next Hnext.
        eapply Emits_weaken; [apply IH' |].
        intros r evs (Hcalls & Hfrom & Hr).
        unfold visitorCallIndices, exceptions in *.
        cbn [app flat_map raisedBy raised].
        split; [constructor; [split; reflexivity | exact Hcalls] |].
        split.
        { constructor; [| exact Hfrom].
          exists (List.length pre), current, (Ok output), visitor, callback, s.
          rewrite Hcall. auto. }
        destruct r as [value | e].
        - destruct Hr as (Hexceptions & Hindices & Hvalue).
          split; [exact Hexceptions |].
          split; [rewrite Hindices; reflexivity |].
          destruct Hvalue as [-> | (Hvalid & i' & current' & Hin)].
          + destruct Hnext as [-> | [Hvalid ->]]; [left; reflexivity |].
            right. split; [exact Hvalid |].
            exists (List.length pre), current. left. reflexivity.
          + right. split; [exact Hvalid |].
            exists i', current'. right. exact Hin.
        - destruct Hr as (Hexceptions & Hindices & i' & current' & Hlast).
          split; [exact Hexceptions |].
          split; [apply Prefix_cons, Hindices |].
          exists i', current'. rewrite lastEvent_cons, Hlast. reflexivity. }
      destruct output as [replacement | sentinel |].
      * destruct (isNode guards (ANode replacement)) eqn:Hguard;
          apply Hstep; [right; split; [exact Hguard | reflexivity]
                       | left; reflexivity].
      * destruct (isNode guards (ASentinel sentinel)) eqn:Hguard;
          apply Hstep; [right; split; [exact Hguard | reflexivity]
                       | left; reflexivity].
      * apply Hstep. left. reflexivity.
    + cbn.
      split; [constructor; [split; reflexivity | constructor] |].
      split.
      { constructor; [| constructor].
        exists (List.length pre), current, (Throw e), visitor, callback, s.
        rewrite Hcall. auto. }
      split; [reflexivity |].
      split; [apply Prefix_cons, Prefix_nil |].
      exists (List.length pre), current. reflexivity.
Qed.

(** X3.  Every call a fused callback makes is a call of the function
    that a visitor of the batch has for the direction of the callback,
    made with the parent the callback was given, and the positions of
    the visitors that are called are an initial stretch of the positions
    of the batch that have a function for the direction: each such
    visitor is called at most once, in the order of the batch, and no
    other one.  When the callback returns, no visitor raised, and on a
    node that is not flagged as ignored the positions called are all
    those that have a function for the direction.  When it raises, the
    last thing that happened is the call of the visitor that raised, and
    it raised that exception. *)
Theorem fused_callback_invokes_each_visitor_once_in_order
  (visitors : list (IVisitor S)) (node : Node) (w : World S) :
  exists evs,
    trace (snd (fused visitors direction node parentNode w)) = trace w ++ evs
    /\ Forall (calledFrom visitors direction parentNode) evs
    /\ Prefix (visitorCallIndices evs) (positionsFrom 0 direction visitors)
    /\ (forall result,
          fst (fused visitors direction node parentNode w) = Ok result ->
          exceptions evs = []
          /\ (isIgnoredNode nodeMetadata node = false ->
              visitorCallIndices evs = positionsFrom 0 direction visitors))
    /\ (forall e,
          fst (fused visitors direction node parentNode w) = Throw e ->
          exceptions evs = [e]
          /\ exists i value,
              lastEvent evs
              = Some (Called (VisitorCall direction i value parentNode
                                          (Throw e)))).
Proof.
  destruct visitors as [| visitor visitors].
  - exists []. cbn. rewrite app_nil_r.
    repeat split; try constructor; try discriminate.
    exists []. reflexivity.
  - rewrite mergeVisitorsForDirection_nonempty by discriminate.
    destruct (isIgnoredNode nodeMetadata node).
    + exists []. cbn [fst snd]. rewrite app_nil_r.
      split; [reflexivity |]. split; [constructor |].
      split; [apply Prefix_nil |].
      split; [| discriminate].
      intros result _. split; [reflexivity | discriminate].
    + destruct (threadValues_emits (visitor :: visitors) [] (ANode node) w)
        as (evs & Htrace & _ & Hfrom & Hr).
      cbn [app List.length] in *.
      unfold bind.
      destruct (handedOn direction parentNode 0 (visitor :: visitors)
                         (ANode node) w)
        as [[value | e] w']; cbn [fst snd ret] in *.
      * exists evs. destruct Hr as (Hexceptions & Hindices & _).
        split; [exact Htrace |]. split; [exact Hfrom |].
        split; [rewrite Hindices; exists []; rewrite app_nil_r; reflexivity |].
        split; [| discriminate].
        intros result _. split; [exact Hexceptions |]. intros _. exact Hindices.
      * exists evs. destruct Hr as (Hexceptions & Hindices & Hlast).
        split; [exact Htrace |]. split; [exact Hfrom |].
        split; [exact Hindices |].
        split; [discriminate |].
        intros e' [= <-]. split; assumption.
Qed.

(** X4.  What a fused callback answers when it returns.  It is the
    skip-subtree sentinel, and then the batch is not empty and the node
    is flagged as ignored; or it is the node the callback was given; or
    it is something a visitor of the batch answered and
    [NodeGuards.isNode] accepted, which is a node or, when the guard
    accepts one, a sentinel.  It is never [undefined].  When the guard
    accepts no sentinel, the answer is never the abort sentinel, and it
    is the skip-subtree sentinel only for a batch that is not empty on a
    node flagged as ignored. *)
Theorem fused_callback_answers_what_the_guard_accepted
  (visitors : list (IVisitor S)) (node : Node) (w : World S)
  (result : TVisitorResult) :
  fst (fused visitors direction node parentNode w) = Ok result ->
  result <> RVoid
  /\ ((result = ROption Skip
       /\ visitors <> [] /\ isIgnoredNode nodeMetadata node = true)
      \/ (result = RNode node
          /\ (visitors = [] \/ isIgnoredNode nodeMetadata node = false))
      \/ (exists value evs i current,
             result = toResult value
             /\ isIgnoredNode nodeMetadata node = false
             /\ isNode guards value = true
             /\ trace (snd (fused visitors direction node parentNode w))
                = trace w ++ evs
             /\ In (Called (VisitorCall direction i current parentNode
                                        (Ok result))) evs))
  /\ ((forall sentinel, isNode guards (ASentinel sentinel) = false) ->
      result <> ROption Break
      /\ (result = ROption Skip ->
          visitors <> [] /\ isIgnoredNode nodeMetadata node = true)).
Proof.
  intros Hresult.
  assert (Hcases :
            (result = ROption Skip
             /\ visitors <> [] /\ isIgnoredNode nodeMetadata node = true)
            \/ (result = RNode node
                /\ (visitors = []
                    \/ isIgnoredNode nodeMetadata node = false))
            \/ (exists value evs i current,
                   result = toResult value
                   /\ isIgnoredNode nodeMetadata node = false
                   /\ isNode guards value = true
                   /\ trace (snd (fused visitors direction node parentNode w))
                      = trace w ++ evs
                   /\ In (Called (VisitorCall direction i current parentNode
                                              (Ok result))) evs)).
  { revert Hresult. destruct visitors as [| visitor visitors].
    - cbn. intros [= <-]. right. left.
      split; [reflexivity | left; reflexivity].
    - rewrite mergeVisitorsForDirection_nonempty by discriminate.
      destruct (isIgnoredNode nodeMetadata node) eqn:Hignored.
      + cbn. intros [= <-]. left. repeat split. discriminate.
      + destruct (threadValues_emits (visitor :: visitors) [] (ANode node) w)
          as (evs & Htrace & _ & _ & Hr).
        cbn [app List.length] in *.
        unfold bind.
        destruct (handedOn direction parentNode 0 (visitor :: visitors)
                           (ANode node) w)
          as [[value | e] w']; cbn [fst snd ret] in *; [| discriminate].
        intros [= <-].
        destruct Hr as (_ & _ & [-> | (Hvalid & i & current & Hin)]).
        * right. left. split; [reflexivity | right; reflexivity].
        * right. right. exists value, evs, i, current.
          repeat split; assumption. }
  split; [| split; [exact Hcases |]].
  - destruct Hcases as [(-> & _) | [(-> & _) | (value & _ & _ & _ & -> & _)]];
      [discriminate | discriminate | destruct value; discriminate].
  - intros Hsentinels.
    destruct Hcases
      as [(-> & Hbatch & Hignored)
         | [(-> & _)
           | (value & _ & _ & _ & -> & _ & Hvalid & _)]].
    + split; [discriminate |]. intros _. split; assumption.
    + split; discriminate.
    + destruct value as [n | sentinel].
      * split; discriminate.
      * rewrite Hsentinels in Hvalid. discriminate Hvalid.
Qed.
End FusedCallbackFacts.

Lemma Emits_bind_all (S A B : Type) (P : Event -> bool)
  (m : M S A) (k : A -> M S B) :
  Emits m (fun _ evs => forallb P evs = true) ->
  (forall a, Emits (k a) (fun _ evs => forallb P evs = true)) ->
  Emits (bind m k) (fun _ evs => forallb P evs = true).
Proof.
  intros Hm Hk. apply Emits_bind.
  eapply Emits_weaken; [exact Hm |].
  intros [a | e] evs1 H1; [| exact H1].
  eapply Emits_weaken; [apply Hk |].
  intros r evs2 H2. cbn beta. rewrite forallb_app, H1, H2. reflexivity.
Qed.

Lemma walks_app (evs1 evs2 : list Event) :
  walks (evs1 ++ evs2) = walks evs1 ++ walks evs2.
Proof. apply flat_map_app. Qed.

Lemma walkPhase_of_getVisitor (evs : list Event) :
  forallb isGetVisitor evs = true ->
  forallb isWalkPhaseEvent evs = true /\ walks evs = [].
Proof.
  induction evs as [| e evs IH]; cbn [forallb]; [auto |].
  rewrite andb_true_iff. intros [He Hevs].
  destruct (IH Hevs) as [Hphase Hwalks].
  destruct e as [| | | | c]; try discriminate.
  destruct c; try discriminate.
  cbn. rewrite Hphase. auto.
Qed.

Lemma walkPhase_of_visitorCall (evs : list Event) :
  forallb isVisitorCall evs = true ->
  forallb isWalkPhaseEvent evs = true /\ walks evs = [].
Proof.
  induction evs as [| e evs IH]; cbn [forallb]; [auto |].
  rewrite andb_true_iff. intros [He Hevs].
  destruct (IH Hevs) as [Hphase Hwalks].
  destruct e as [| | | | c]; try discriminate.
  destruct c; try discriminate.
  cbn. rewrite Hphase. auto.
Qed.

Section TransformFacts.
Variable S : Type.
Variable nodeTransformerFactory :
  NodeTransformer -> Service S (INodeTransformer S).
Variable build :
  TDictionary (INodeTransformer S) -> Service S (list (list NodeTransformer)).
Variable guards : NodeGuards.
Variable nodeMetadata : NodeMetadata.
Variable estraverse_replace :
  Node -> TVisitorCallback S -> TVisitorCallback S -> M S Node.
Variable stage : NodeTransformationStage.t.

Local Notation "'fused'" :=
  (NodeTransformersRunner.mergeVisitorsForDirection (S := S) guards
                                                    nodeMetadata).
Local Notation "'transformGroups'" :=
  (NodeTransformersRunner.transformGroups guards nodeMetadata
                                          estraverse_replace).
Local Notation "'transform'" :=
  (NodeTransformersRunner.transform nodeTransformerFactory build guards
                                    nodeMetadata estraverse_replace).

Local Notation "'EngineOnlyCallsVisitors'" :=
  (EngineOnlyCallsVisitors guards nodeMetadata estraverse_replace).

(** The outer loop of [transform]. *)
Lemma transformGroups_emits
  (normalized : TDictionary (INodeTransformer S))
  (groups : list (list NodeTransformer)) :
  EngineOnlyCallsVisitors ->
  forall astTree,
    Emits (transformGroups normalized stage groups astTree)
      (fun r evs =>
         forallb isWalkPhaseEvent evs = true
         /\ List.length (walks evs) <= List.length groups
         /\ (walks evs = [] -> forall astTree', r = Ok astTree' ->
             astTree' = astTree)).
Proof.
  intros Hengine.
  induction groups as [| group groups IH]; intros astTree;
    cbn [NodeTransformersRunner.transformGroups].
  - apply Emits_ret. cbn. repeat split; auto. congruence.
  - apply Emits_bind.
    eapply Emits_weaken; [apply collectVisitors_emits |].
    intros r evs1 (Honly & _ & Hr).
    destruct (walkPhase_of_getVisitor _ Honly) as [Hphase1 Hwalks1].
    destruct r as [[enterVisitors leaveVisitors] | e].
    + clear Hr.
      destruct (Nat.eqb (List.length enterVisitors) 0
                && Nat.eqb (List.length leaveVisitors) 0) eqn:Hnone.
      * eapply Emits_weaken; [apply IH |].
        intros r evs2 (Hphase2 & Hcount & Hsame). cbn beta.
        rewrite forallb_app, walks_app, Hphase1, Hphase2, Hwalks1.
        cbn [app List.length andb].
        split; [reflexivity |]. split; [lia | exact Hsame].
      * apply Emits_bind, Emits_emit.
        apply Emits_bind.
        eapply Emits_weaken; [apply Hengine |].
        intros r evs2 Hcalls.
        destruct (walkPhase_of_visitorCall _ Hcalls) as [Hphase2 Hwalks2].
        assert (Hpositive :
                  Nat.ltb 0 (List.length enterVisitors
                             + List.length leaveVisitors) = true).
        { apply Nat.ltb_lt.
          destruct enterVisitors, leaveVisitors; cbn in *;
            try discriminate; lia. }
        destruct r as [astTree' | e].
        -- eapply Emits_weaken; [apply IH |].
           intros r evs3 (Hphase3 & Hcount & _). cbn beta.
           rewrite !forallb_app, !walks_app, Hphase1, Hphase2, Hphase3,
             Hwalks1, Hwalks2.
           cbn [app forallb isWalkPhaseEvent walks flat_map List.length andb].
           rewrite Hpositive.
           split; [reflexivity |]. split; [lia | discriminate].
        -- cbn beta.
           rewrite !forallb_app, !walks_app, Hphase1, Hphase2,
             Hwalks1, Hwalks2.
           cbn [app forallb isWalkPhaseEvent walks flat_map List.length andb].
           rewrite Hpositive.
           split; [reflexivity |]. split; [lia | discriminate].
    + cbn beta. rewrite Hphase1, Hwalks1. cbn.
      split; [reflexivity |]. split; [lia | discriminate].
Qed.

Local Notation "'normalize'" :=
  (NodeTransformersRunner.buildNormalizedNodeTransformers
     nodeTransformerFactory).

(** Normalization only prints, instantiates and asks for visitors. *)
Lemma normalizeFrom_emits_only (names : list NodeTransformer) :
  forall acc : TDictionary (INodeTransformer S),
    Emits (NodeTransformersRunner.buildNormalizedNodeTransformers_from
             nodeTransformerFactory acc names stage)
      (fun _ evs => forallb isNormalizationEvent evs = true).
Proof.
  induction names as [| name names IH]; intros acc;
    cbn [NodeTransformersRunner.buildNormalizedNodeTransformers_from].
  - apply Emits_ret. reflexivity.
  - apply Emits_bind_all; [apply Emits_call; reflexivity |].
    intros transformer.
    apply Emits_bind_all; [apply Emits_call; reflexivity |].
    intros [visitor |]; apply IH.
Qed.

(** X5.  The phases of [transform] for a traversal engine that adds
    nothing but visitor calls to the trace.  First the names are
    normalized: console output, instantiations and requests for
    visitors only.  Then the groups builder is called, once, with the
    names that answered with a visitor, each once, in the order of their
    first answer; if it raises, nothing follows.  Then the groups are
    printed, and what follows are requests for visitors, walks and
    visitor calls: every walk that is started has at least one visitor,
    there are at most as many walks as groups, and if no walk was
    started a call that returns returns the tree it was given. *)
Theorem transform_normalizes_then_schedules_then_walks
  (astTree : Node) (names : list NodeTransformer) (w : World S) :
  EngineOnlyCallsVisitors ->
  exists pre post,
    trace (snd (transform astTree names stage w)) = trace w ++ pre ++ post
    /\ forallb isNormalizationEvent pre = true
    /\ Prefix (instantiated pre) names
    /\ (post = []
        \/ exists outcome rest,
            post = Called (BuildGroups (firstOccurrences (active pre))
                                       outcome) :: rest
            /\ instantiated pre = names
            /\ match outcome with
               | Throw e => rest = []
               | Ok groups =>
                   exists walkEvents,
                     rest = ConsoleLog [VString "nodeTransformerNamesGroups";
                                        VGroups groups] :: walkEvents
                     /\ forallb isWalkPhaseEvent walkEvents = true
                     /\ List.length (walks walkEvents) <= List.length groups
                     /\ (walks walkEvents = [] ->
                         forall astTree',
                           fst (transform astTree names stage w)
                           = Ok astTree' ->
                           astTree' = astTree)
               end).
Proof.
  intros Hengine.
  destruct names as [| name names].
  - exists [], []. cbn. rewrite app_nil_r.
    split; [reflexivity |]. split; [reflexivity |].
    split; [apply Prefix_nil | left; reflexivity].
  - assert (Hnormalize :
              Emits (normalize (name :: names) stage)
                (fun r evs =>
                   forallb isNormalizationEvent evs = true
                   /\ Prefix (instantiated evs) (name :: names)
                   /\ forall d, r = Ok d ->
                                instantiated evs = name :: names
                                /\ dict_keys d
                                   = firstOccurrences (active evs))).
    { intros w0.
      destruct (normalizeFrom_emits nodeTransformerFactory stage
                  (name :: names) [] w0)
        as (evs & Htrace & Hinst & _ & _ & Hok).
      destruct (normalizeFrom_emits_only (name :: names) [] w0)
        as (evs' & Htrace' & Honly).
      unfold NodeTransformersRunner.buildNormalizedNodeTransformers.
      rewrite Htrace in Htrace'. apply app_inv_head in Htrace'. subst evs'.
      exists evs. split; [exact Htrace |]. split; [exact Honly |].
      split; [exact Hinst |].
      intros d Hd. destruct (Hok d Hd) as (Hall & _ & Hkeys).
      split; assumption. }
    assert (Hwhole :
              Emits (transform astTree (name :: names) stage)
                (fun r evs =>
                   exists pre post,
                     evs = pre ++ post
                     /\ forallb isNormalizationEvent pre = true
                     /\ Prefix (instantiated pre) (name :: names)
                     /\ (post = []
                         \/ exists outcome rest,
                             post = Called (BuildGroups
                                              (firstOccurrences (active pre))
                                              outcome) :: rest
                             /\ instantiated pre = name :: names
                             /\ match outcome with
                                | Throw e => rest = []
                                | Ok groups =>
                                    exists walkEvents,
                                      rest
                                      = ConsoleLog
                                          [VString "nodeTransformerNamesGroups";
                                           VGroups groups] :: walkEvents
                                      /\ forallb isWalkPhaseEvent walkEvents
                                         = true
                                      /\ List.length (walks walkEvents)
                                         <= List.length groups
                                      /\ (walks walkEvents = [] ->
                                          forall astTree',
                                            r = Ok astTree' ->
                                            astTree' = astTree)
                                end))).
    { unfold NodeTransformersRunner.transform. cbn [List.length Nat.eqb].
      apply Emits_bind, Emits_emit.
      apply Emits_bind, Emits_emit.
      apply Emits_bind, Emits_emit.
      apply Emits_bind.
      eapply Emits_weaken; [exact Hnormalize |].
      intros r evsN (Honly & Hinst & Hok).
      destruct r as [normalized | e].
      - destruct (Hok normalized eq_refl) as (Hall & Hkeys).
        apply Emits_bind, Emits_call. intros s.
        destruct (build normalized s) as [[groups | e] s']; cbn [fst].
        + apply Emits_bind, Emits_emit.
          eapply Emits_weaken; [apply transformGroups_emits, Hengine |].
          intros r evsW (Hphase & Hcount & Hsame). cbn beta.
          eexists (_ :: _ :: _ :: evsN), (_ :: _ :: evsW).
          split; [cbn [app]; reflexivity |].
          split; [cbn; exact Honly |].
          split; [cbn; exact Hinst |].
          right. eexists (Ok groups), _.
          split; [rewrite Hkeys; reflexivity |].
          split; [exact Hall |].
          exists evsW. repeat split; assumption.
        + cbn beta.
          eexists (_ :: _ :: _ :: evsN), [_].
          split; [cbn [app]; reflexivity |].
          split; [cbn; exact Honly |].
          split; [cbn; exact Hinst |].
          right. eexists (Throw e), _.
          split; [rewrite Hkeys; reflexivity |].
          split; [exact Hall | reflexivity].
      - cbn beta.
        eexists (_ :: _ :: _ :: evsN), [].
        split; [cbn [app]; rewrite app_nil_r; reflexivity |].
        split; [cbn; exact Honly |].
        split; [cbn; exact Hinst |].
        left. reflexivity. }
    destruct (Hwhole w) as (evs & Htrace & pre & post & -> & Hrest).
    exists pre, post. split; [exact Htrace | exact Hrest].
Qed.
End TransformFacts.

(** Bringing the projections of a trace that is partly explicit into the
    form "projection of the unknown part, then the rest". *)
Ltac tidy_lists :=
  unfold walks, exceptions in *;
  cbn [app flat_map forallb isVisitorCall negb andb dict_keys List.map
       raisedBy raised];
  rewrite ?flat_map_app, ?forallb_app;
  cbn [app flat_map forallb isVisitorCall negb andb dict_keys List.map
       raisedBy raised];
  rewrite ?app_nil_r.

Section NoActiveTransformer.
Variable S : Type.
Variable nodeTransformerFactory :
  NodeTransformer -> Service S (INodeTransformer S).
Variable build :
  TDictionary (INodeTransformer S) -> Service S (list (list NodeTransformer)).
Variable guards : NodeGuards.
Variable nodeMetadata : NodeMetadata.
Variable estraverse_replace :
  Node -> TVisitorCallback S -> TVisitorCallback S -> M S Node.
Variable stage : NodeTransformationStage.t.

Local Notation "'transform'" :=
  (NodeTransformersRunner.transform nodeTransformerFactory build guards
                                    nodeMetadata estraverse_replace).

(** With an empty dictionary the outer loop does nothing observable: it
    passes over groups that name nobody and raises at the first name. *)
Lemma transformGroups_empty_dictionary
  (groups : list (list NodeTransformer)) (astTree : Node) (w : World S) :
  NodeTransformersRunner.transformGroups guards nodeMetadata
    estraverse_replace [] stage groups astTree w
  = (if forallb isEmptyGroup groups
     then Ok astTree
     else Throw (TypeError "nodeTransformer is undefined"),
     w).
Proof.
  induction groups as [| group groups IH];
    cbn [NodeTransformersRunner.transformGroups forallb]; [reflexivity |].
  destruct group as [| name group]; cbn; [exact IH | reflexivity].
Qed.

(** No transformer of the catalogue has a visitor for the stage. *)
Hypothesis no_visitor :
  forall name s transformer s',
    nodeTransformerFactory name s = (Ok transformer, s') ->
    forall s2, fst (getVisitor transformer stage s2) = Ok None.

Lemma normalizeFrom_without_visitors (names : list NodeTransformer) :
  forall acc : TDictionary (INodeTransformer S),
    Emits (NodeTransformersRunner.buildNormalizedNodeTransformers_from
             nodeTransformerFactory acc names stage)
      (fun r evs =>
         forallb isNormalizationEvent evs = true
         /\ match r with
            | Ok d => d = acc /\ exceptions evs = []
            | Throw e => exceptions evs = [e]
            end).
Proof.
  induction names as [| name names IH]; intros acc;
    cbn [NodeTransformersRunner.buildNormalizedNodeTransformers_from].
  - apply Emits_ret. cbn. auto.
  - apply Emits_bind, Emits_call. intros s.
    destruct (nodeTransformerFactory name s) as [[transformer | e] s']
      eqn:Hfactory; cbn [fst result_void].
    + apply Emits_bind, Emits_call. intros s2.
      pose proof (no_visitor Hfactory s2) as Hnone.
      destruct (getVisitor transformer stage s2) as [r s3].
      cbn [fst] in *. subst r. cbn [result_map is_some].
      eapply Emits_weaken; [apply IH |].
      intros r evs (Honly & Hr). unfold exceptions in *. cbn.
      split; [exact Honly | exact Hr].
    + cbn. auto.
Qed.

(** X6.  When no transformer the factory makes has a visitor in the
    stage, [transform] starts no walk and calls no visitor function,
    the groups builder, if it is called, gets the empty dictionary, and
    a call that returns returns the tree it was given.  When it raises,
    either a collaborator raised that exception, or the groups builder
    answered with a group that names a transformer, which the empty
    dictionary lacks. *)
Theorem transform_without_active_transformers_starts_no_walk
  (astTree : Node) (names : list NodeTransformer) (w : World S) :
  exists evs,
    trace (snd (transform astTree names stage w)) = trace w ++ evs
    /\ walks evs = []
    /\ forallb (fun e => negb (isVisitorCall e)) evs = true
    /\ (forall keys outcome,
          In (Called (BuildGroups keys outcome)) evs -> keys = [])
    /\ (forall astTree',
          fst (transform astTree names stage w) = Ok astTree' ->
          astTree' = astTree)
    /\ (forall e,
          fst (transform astTree names stage w) = Throw e ->
          exceptions evs = [e]
          \/ (exceptions evs = []
              /\ e = TypeError "nodeTransformer is undefined")).
Proof.
  destruct names as [| name names].
  - exists []. cbn. rewrite app_nil_r.
    repeat split; try reflexivity; try contradiction; try discriminate.
    congruence.
  - revert w.
    change (Emits (transform astTree (name :: names) stage)
              (fun r evs =>
                 walks evs = []
                 /\ forallb (fun e => negb (isVisitorCall e)) evs = true
                 /\ (forall keys outcome,
                       In (Called (BuildGroups keys outcome)) evs ->
                       keys = [])
                 /\ (forall astTree', r = Ok astTree' -> astTree' = astTree)
                 /\ (forall e,
                       r = Throw e ->
                       exceptions evs = [e]
                       \/ (exceptions evs = []
                           /\ e = TypeError "nodeTransformer is undefined")))).
    unfold NodeTransformersRunner.transform. cbn [List.length Nat.eqb].
    apply Emits_bind, Emits_emit.
    apply Emits_bind, Emits_emit.
    apply Emits_bind, Emits_emit.
    apply Emits_bind.
    eapply Emits_weaken;
      [apply (normalizeFrom_without_visitors (name :: names) []) |].
    intros r evsN (Honly & Hr).
    assert (Hquiet :
              walks evsN = []
              /\ forallb (fun e => negb (isVisitorCall e)) evsN = true
              /\ forall keys outcome,
                  ~ In (Called (BuildGroups keys outcome)) evsN).
    { clear Hr. induction evsN as [| e evsN IH]; cbn [forallb] in *.
      - repeat split. intros keys outcome [].
      - apply andb_true_iff in Honly. destruct Honly as [He Hrest].
        destruct (IH Hrest) as (Hwalks & Hcalls & Hbuild).
        destruct e as [| | | | c]; try discriminate He;
          [| destruct c; try discriminate He]; cbn; rewrite ?Hcalls;
          (split; [exact Hwalks |]); (split; [reflexivity |]);
          intros keys outcome [Heq | Hin]; try discriminate Heq;
          apply (Hbuild keys outcome Hin). }
    destruct Hquiet as (HwalksN & HcallsN & HbuildN).
    destruct r as [normalized | e].
    + destruct Hr as [-> HexcN].
      apply Emits_bind, Emits_call. intros s.
      destruct (build [] s) as [[groups | e] s']; cbn [fst].
      * apply Emits_bind, Emits_emit.
        intros w0. rewrite transformGroups_empty_dictionary.
        exists []. cbn [fst snd]. split; [rewrite app_nil_r; reflexivity |].
        tidy_lists. rewrite HwalksN, HcallsN, HexcN.
        split; [reflexivity |]. split; [reflexivity |].
        split.
        { intros keys outcome [Heq | [Heq | [Heq | Hin]]];
            try discriminate Heq.
          apply in_app_or in Hin.
          destruct Hin as [Hin | [Heq | [Heq | []]]];
            [exfalso; apply (HbuildN keys outcome Hin)
            | injection Heq as <- _; reflexivity
            | discriminate Heq]. }
        destruct (forallb isEmptyGroup groups).
        -- split; [congruence |]. discriminate.
        -- split; [discriminate |]. intros e [= <-].
           right. split; reflexivity.
      * cbn beta. tidy_lists. rewrite HwalksN, HcallsN, HexcN.
        split; [reflexivity |]. split; [reflexivity |].
        split.
        { intros keys outcome [Heq | [Heq | [Heq | Hin]]];
            try discriminate Heq.
          apply in_app_or in Hin.
          destruct Hin as [Hin | [Heq | []]];
            [exfalso; apply (HbuildN keys outcome Hin)
            | injection Heq as <- _; reflexivity]. }
        split; [discriminate |]. intros e' [= <-].
        left. reflexivity.
    + cbn beta. tidy_lists. rewrite HwalksN, HcallsN.
      split; [reflexivity |]. split; [reflexivity |].
      split.
      { intros keys outcome [Heq | [Heq | [Heq | Hin]]];
          try discriminate Heq.
        rewrite ?app_nil_r in Hin.
        exfalso; apply (HbuildN keys outcome Hin). }
      split; [discriminate |]. intros e' [= <-]. left. exact Hr.
Qed.
End NoActiveTransformer.

(* ===================================================================== *)
(** * The engine only calls visitors *)
(* ===================================================================== *)

Lemma visitorCallFor_isVisitorCall (direction : VisitorDirection)
  (parentNode : option Node) (evs : list Event) :
  Forall (isVisitorCallFor direction parentNode) evs ->
  forallb isVisitorCall evs = true.
Proof.
  induction 1 as [| e evs He _ IH]; [reflexivity |].
  cbn [forallb]. rewrite IH.
  destruct e as [| | | | c]; try contradiction He.
  destruct c; try contradiction He. reflexivity.
Qed.

Section EngineFacts.
Variable S : Type.
Variable guards : NodeGuards.
Variable nodeMetadata : NodeMetadata.

Local Notation "'fused'" :=
  (NodeTransformersRunner.mergeVisitorsForDirection (S := S) guards
                                                    nodeMetadata).

(** All a fused callback adds to the trace are calls of visitor
    functions. *)
Lemma fused_only_calls_visitors (visitors : list (IVisitor S))
  (direction : VisitorDirection) (node : Node) (parentNode : option Node) :
  Emits (fused visitors direction node parentNode)
    (fun _ evs => forallb isVisitorCall evs = true).
Proof.
  intros w. destruct visitors as [| visitor visitors].
  - exists []. cbn. rewrite app_nil_r. auto.
  - rewrite mergeVisitorsForDirection_nonempty by discriminate.
    destruct (isIgnoredNode nodeMetadata node).
    + exists []. cbn. rewrite app_nil_r. auto.
    + destruct (@threadValues_emits S guards direction parentNode
                  (visitor :: visitors) [] (ANode node) w)
        as (evs & Htrace & Hcalls & _).
      cbn [List.length] in *.
      exists evs. unfold bind.
      destruct (NodeTransformersRunner.threadValues
                  guards direction parentNode 0 (visitor :: visitors)
                  (ANode node) w)
        as [[value | e] w']; cbn [fst snd ret] in *;
        (split; [exact Htrace |]);
        apply (visitorCallFor_isVisitorCall Hcalls).
Qed.

(** The walk adds nothing of its own to the trace: whatever holds of
    every event of its callbacks holds of every event of the walk. *)
Variable precheck : Node -> bool.
Variable enter leave : TVisitorCallback S.
Variable P : Event -> bool.
Hypothesis enter_emits :
  forall node parent,
    Emits (enter node parent) (fun _ evs => forallb P evs = true).
Hypothesis leave_emits :
  forall node parent,
    Emits (leave node parent) (fun _ evs => forallb P evs = true).

Lemma leaveNode_emits_all (node : Node) (parent : option Node) :
  Emits (Traversal.leaveNode leave node parent)
    (fun _ evs => forallb P evs = true).
Proof.
  unfold Traversal.leaveNode.
  apply Emits_bind_all; [apply leave_emits |].
  intros [node' | [|] |]; apply Emits_ret; reflexivity.
Qed.

Lemma walk_emits_all (fuel : nat) :
  forall (node : Node) (parent : option Node),
    Emits (Traversal.walk precheck enter leave fuel node parent)
      (fun _ evs => forallb P evs = true).
Proof.
  induction fuel as [| fuel IH]; intros node parent; cbn [Traversal.walk].
  - apply Emits_ret. reflexivity.
  - destruct (precheck node); [apply Emits_ret; reflexivity |].
    apply Emits_bind_all; [apply enter_emits |].
    assert (Hdescend :
              forall node0,
                Emits
                  (r <- (fix children (done todo : list Node)
                           : M S (option (list Node * bool)) :=
                           match todo with
                           | [] => ret (Some (done, false))
                           | child :: rest =>
                               r <- Traversal.walk precheck enter leave fuel
                                      child
                                      (Some (Traversal.with_body
                                               node0 (done ++ todo))) ;;
                               match r with
                               | None => ret None
                               | Some (child', true) =>
                                   ret (Some (done ++ child' :: rest, true))
                               | Some (child', false) =>
                                   children (done ++ [child']) rest
                               end
                           end) [] (body node0) ;;
                   match r with
                   | None => ret None
                   | Some (body', true) =>
                       ret (Some (Traversal.with_body node0 body', true))
                   | Some (body', false) =>
                       Traversal.leaveNode
                         leave (Traversal.with_body node0 body') parent
                   end)
                  (fun _ evs => forallb P evs = true)).
    { intros node0. apply Emits_bind_all.
      - match goal with
        | |- Emits (?children [] _) _ =>
            enough (Hchildren :
                      forall todo done,
                        Emits (children done todo)
                          (fun _ evs => forallb P evs = true))
              by apply Hchildren
        end.
        induction todo as [| child rest IHrest]; intros done.
        + apply Emits_ret. reflexivity.
        + apply Emits_bind_all; [apply IH |].
          intros [[child' [|]] |];
            [apply Emits_ret; reflexivity
            | apply IHrest
            | apply Emits_ret; reflexivity].
      - intros [[body' [|]] |];
          [apply Emits_ret; reflexivity
          | apply leaveNode_emits_all
          | apply Emits_ret; reflexivity]. }
    intros [node' | [|] |].
    + apply Hdescend.
    + apply leaveNode_emits_all.
    + apply Emits_ret. reflexivity.
    + apply Hdescend.
Qed.

Lemma replace_emits_all (fuel : nat) (root : Node) :
  Emits (Traversal.replace precheck enter leave fuel root)
    (fun _ evs => forallb P evs = true).
Proof.
  unfold Traversal.replace.
  apply Emits_bind_all; [apply walk_emits_all |].
  intros r. apply Emits_ret. reflexivity.
Qed.
End EngineFacts.

(** The engine of [Demo] meets what [transform] is proved under. *)
Lemma demo_engine_only_calls_visitors :
  EngineOnlyCallsVisitors Demo.guards Demo.nodeMetadata
                          Demo.estraverse_replace.
Proof.
  intros ast enterVisitors leaveVisitors. unfold Demo.estraverse_replace.
  apply Emits_bind_all.
  - apply replace_emits_all; intros node parent;
      apply fused_only_calls_visitors.
  - intros [ast' |]; [apply Emits_ret | apply Emits_throw]; reflexivity.
Qed.

(* ===================================================================== *)
(** * The runner on concrete inputs *)
(* ===================================================================== *)

(** Four names, one of them twice and one without a visitor: the
    dictionary has the two names that answered, each once.  Three names
    of which the second raises when asked for its visitor: the call
    raises that exception and the third name is never instantiated. *)
Lemma normalization_lists_the_active_transformers_witness :
  (exists d,
      fst (NodeTransformersRunner.buildNormalizedNodeTransformers
             Sample.mixedFactory
             [MetadataTransformer; CommentsTransformer;
              ParentificationTransformer; MetadataTransformer]
             NodeTransformationStage.Preparing (Demo.world 0))
      = Ok d
      /\ dict_keys d = [MetadataTransformer; ParentificationTransformer])
  /\ fst (NodeTransformersRunner.buildNormalizedNodeTransformers
            Sample.mixedFactory
            [MetadataTransformer; VariablePreserveTransformer;
             CommentsTransformer]
            NodeTransformationStage.Preparing (Demo.world 0))
     = Throw (TransformerFailure "getVisitor")
  /\ exceptions
       (trace (snd (NodeTransformersRunner.buildNormalizedNodeTransformers
                      Sample.mixedFactory
                      [MetadataTransformer; VariablePreserveTransformer;
                       CommentsTransformer]
                      NodeTransformationStage.Preparing (Demo.world 0))))
     = [TransformerFailure "getVisitor"].
Proof.
  split.
  - pose proof (@normalization_lists_the_active_transformers
                  Demo.State Sample.mixedFactory
                  NodeTransformationStage.Preparing
                  [MetadataTransformer; CommentsTransformer;
                   ParentificationTransformer; MetadataTransformer]
                  (Demo.world 0))
      as (evs & Htrace & _ & _ & _ & _ & Hreturns).
    assert (Hresult :
              exists d,
                fst (NodeTransformersRunner.buildNormalizedNodeTransformers
                       Sample.mixedFactory
                       [MetadataTransformer; CommentsTransformer;
                        ParentificationTransformer; MetadataTransformer]
                       NodeTransformationStage.Preparing (Demo.world 0))
                = Ok d)
      by (vm_compute; eexists; reflexivity).
    destruct Hresult as [d Hd]. exists d. split; [exact Hd |].
    destruct (Hreturns d Hd) as (_ & _ & _ & Hkeys & _).
    rewrite Hkeys. vm_compute in Htrace. subst evs. reflexivity.
  - pose proof (@normalization_lists_the_active_transformers
                  Demo.State Sample.mixedFactory
                  NodeTransformationStage.Preparing
                  [MetadataTransformer; VariablePreserveTransformer;
                   CommentsTransformer]
                  (Demo.world 0))
      as (evs & Htrace & _ & _ & _ & Hraises & _).
    assert (Hresult :
              fst (NodeTransformersRunner.buildNormalizedNodeTransformers
                     Sample.mixedFactory
                     [MetadataTransformer; VariablePreserveTransformer;
                      CommentsTransformer]
                     NodeTransformationStage.Preparing (Demo.world 0))
              = Throw (TransformerFailure "getVisitor"))
      by (vm_compute; reflexivity).
    split; [exact Hresult |].
    rewrite Htrace. exact (proj1 (Hraises _ Hresult)).
Defined.

(** A group of two known transformers yields two [enter] visitors and one
    [leave] visitor; a group with a name the dictionary lacks raises the
    TypeError. *)
Lemma group_visitors_are_collected_from_known_names_witness :
  (exists enterVisitors leaveVisitors,
      fst (NodeTransformersRunner.collectVisitors
             Sample.normalized NodeTransformationStage.Preparing
             [MetadataTransformer; ParentificationTransformer] [] []
             (Demo.world 0))
      = Ok (enterVisitors, leaveVisitors)
      /\ forallb enterOnlyVisitor enterVisitors = true
      /\ forallb leaveOnlyVisitor leaveVisitors = true)
  /\ fst (NodeTransformersRunner.collectVisitors
            Sample.normalized NodeTransformationStage.Preparing
            [MetadataTransformer; CommentsTransformer] [] []
            (Demo.world 0))
     = Throw (TypeError "nodeTransformer is undefined").
Proof.
  split.
  - pose proof (@group_visitors_are_collected_from_known_names
                  Demo.State Sample.normalized
                  NodeTransformationStage.Preparing
                  [MetadataTransformer; ParentificationTransformer]
                  (Demo.world 0))
      as (evs & _ & _ & _ & Hreturns & _).
    assert (Hresult :
              exists enterVisitors leaveVisitors,
                fst (NodeTransformersRunner.collectVisitors
                       Sample.normalized NodeTransformationStage.Preparing
                       [MetadataTransformer; ParentificationTransformer]
                       [] [] (Demo.world 0))
                = Ok (enterVisitors, leaveVisitors))
      by (vm_compute; do 2 eexists; reflexivity).
    destruct Hresult as (enterVisitors & leaveVisitors & Hresult).
    exists enterVisitors, leaveVisitors. split; [exact Hresult |].
    destruct (Hreturns _ _ Hresult) as (_ & _ & Henter & Hleave & _).
    split; assumption.
  - pose proof (@group_visitors_are_collected_from_known_names
                  Demo.State Sample.normalized
                  NodeTransformationStage.Preparing
                  [MetadataTransformer; CommentsTransformer]
                  (Demo.world 0))
      as (evs & Htrace & _ & _ & _ & Hraises).
    assert (Hresult :
              exists e,
                fst (NodeTransformersRunner.collectVisitors
                       Sample.normalized NodeTransformationStage.Preparing
                       [MetadataTransformer; CommentsTransformer]
                       [] [] (Demo.world 0))
                = Throw e)
      by (vm_compute; eexists; reflexivity).
    destruct Hresult as [e He]. rewrite He.
    vm_compute in Htrace. subst evs.
    destruct (Hraises e He eq_refl) as [-> _]. reflexivity.
Defined.

(** A batch of two [enter] visitors and one [leave] visitor, fused for
    [enter]: the visitors at positions 0 and 2 are called, the one at
    position 1 is not, and no call raises. *)
Lemma fused_callback_invokes_each_visitor_once_in_order_witness :
  visitorCallIndices
    (trace (snd (Demo.mergeVisitorsForDirection
                   Sample.batch Enter (Demo.leaf "Identifier") None
                   (Demo.world 0))))
  = [0; 2]
  /\ exceptions
       (trace (snd (Demo.mergeVisitorsForDirection
                      Sample.batch Enter (Demo.leaf "Identifier") None
                      (Demo.world 0))))
     = [].
Proof.
  pose proof (@fused_callback_invokes_each_visitor_once_in_order
                Demo.State Demo.guards Demo.nodeMetadata Enter None
                Sample.batch (Demo.leaf "Identifier") (Demo.world 0))
    as (evs & Htrace & _ & _ & Hreturns & _).
  unfold Demo.mergeVisitorsForDirection. rewrite Htrace.
  destruct (Hreturns (RNode (Demo.leaf "Seen")))
    as [Hexceptions Hindices]; [vm_compute; reflexivity |].
  split; [| exact Hexceptions].
  exact (Hindices eq_refl).
Defined.

(** The same batch on the same node, under a guard that accepts no
    sentinel: the answer is the node the first visitor returned, which
    the guard accepted, and it is not the abort sentinel. *)
Lemma fused_callback_answers_what_the_guard_accepted_witness :
  fst (Demo.mergeVisitorsForDirection
         Sample.batch Enter (Demo.leaf "Identifier") None (Demo.world 0))
  = Ok (RNode (Demo.leaf "Seen"))
  /\ (forall sentinel, isNode Demo.guards (ASentinel sentinel) = false)
  /\ RNode (Demo.leaf "Seen") <> ROption Break
  /\ RNode (Demo.leaf "Seen") <> RVoid.
Proof.
  assert (Hresult :
            fst (Demo.mergeVisitorsForDirection
                   Sample.batch Enter (Demo.leaf "Identifier") None
                   (Demo.world 0))
            = Ok (RNode (Demo.leaf "Seen")))
    by (vm_compute; reflexivity).
  split; [exact Hresult |].
  split; [intros sentinel; reflexivity |].
  pose proof (@fused_callback_answers_what_the_guard_accepted
                Demo.State Demo.guards Demo.nodeMetadata Enter None
                Sample.batch (Demo.leaf "Identifier") (Demo.world 0)
                (RNode (Demo.leaf "Seen")) Hresult)
    as (Hdefined & _ & Hstrict).
  split; [| exact Hdefined].
  exact (proj1 (Hstrict (fun sentinel => eq_refl))).
Defined.

(** Two transformers with visitors, each in a group of its own: the
    trace splits in a normalization part and a part that starts with the
    request for the groups. *)
Lemma transform_normalizes_then_schedules_then_walks_witness :
  exists pre post,
    trace (snd (NodeTransformersRunner.transform
                  Sample.mixedFactory Sample.singletonGroups Demo.guards Demo.nodeMetadata
                  Demo.estraverse_replace Demo.declarationProgram
                  [MetadataTransformer; CommentsTransformer;
                   ParentificationTransformer]
                  NodeTransformationStage.Preparing (Demo.world 0)))
    = pre ++ post
    /\ forallb isNormalizationEvent pre = true
    /\ exists outcome rest,
        post = Called (BuildGroups [MetadataTransformer;
                                    ParentificationTransformer] outcome)
                 :: rest.
Proof.
  pose proof (@transform_normalizes_then_schedules_then_walks
                Demo.State Sample.mixedFactory Sample.singletonGroups Demo.guards
                Demo.nodeMetadata Demo.estraverse_replace
                NodeTransformationStage.Preparing Demo.declarationProgram
                [MetadataTransformer; CommentsTransformer;
                 ParentificationTransformer]
                (Demo.world 0) demo_engine_only_calls_visitors)
    as (pre & post & Htrace & Hpre & _ & Hpost).
  exists pre, post. split; [exact Htrace |]. split; [exact Hpre |].
  destruct Hpost as [-> | (outcome & rest & -> & _)].
  - exfalso. rewrite app_nil_r in Htrace. cbn [Demo.world trace app] in Htrace.
    rewrite <- Htrace in Hpre. vm_compute in Hpre. discriminate Hpre.
  - exists outcome, rest. f_equal. f_equal. f_equal.
    vm_compute in Htrace.
    repeat (destruct pre as [| ? pre];
            [cbn [app] in Htrace; try discriminate Htrace
            | cbn [app] in Htrace; injection Htrace as <- Htrace]).
    all: try (cbn in Hpre; discriminate Hpre).
    all: try reflexivity.
Defined.

(** Transformers without a visitor: three names, no walk, the tree comes
    back as it went in. *)
Lemma transform_without_active_transformers_starts_no_walk_witness :
  walks (trace (snd (NodeTransformersRunner.transform
                       Sample.quietFactory Demo.build Demo.guards
                       Demo.nodeMetadata Demo.estraverse_replace
                       Demo.declarationProgram
                       [MetadataTransformer; CommentsTransformer;
                        ParentificationTransformer]
                       NodeTransformationStage.Preparing (Demo.world 0))))
  = []
  /\ fst (NodeTransformersRunner.transform
            Sample.quietFactory Demo.build Demo.guards
            Demo.nodeMetadata Demo.estraverse_replace
            Demo.declarationProgram
            [MetadataTransformer; CommentsTransformer;
             ParentificationTransformer]
            NodeTransformationStage.Preparing (Demo.world 0))
     = Ok Demo.declarationProgram.
Proof.
  assert (Hquiet :
            forall name s transformer s',
              Sample.quietFactory name s = (Ok transformer, s') ->
              forall s2,
                fst (getVisitor transformer
                                NodeTransformationStage.Preparing s2)
                = Ok None).
  { intros name s transformer s' [= <- _] s2. reflexivity. }
  pose proof (@transform_without_active_transformers_starts_no_walk
                Demo.State Sample.quietFactory Demo.build Demo.guards
                Demo.nodeMetadata Demo.estraverse_replace
                NodeTransformationStage.Preparing Hquiet
                Demo.declarationProgram
                [MetadataTransformer; CommentsTransformer;
                 ParentificationTransformer]
                (Demo.world 0))
    as (evs & Htrace & Hwalks & _ & _ & Hreturns & _).
  split.
  - rewrite Htrace. exact Hwalks.
  - assert (Hresult :
              exists astTree',
                fst (NodeTransformersRunner.transform
                       Sample.quietFactory Demo.build Demo.guards
                       Demo.nodeMetadata Demo.estraverse_replace
                       Demo.declarationProgram
                       [MetadataTransformer; CommentsTransformer;
                        ParentificationTransformer]
                       NodeTransformationStage.Preparing (Demo.world 0))
                = Ok astTree')
      by (vm_compute; eexists; reflexivity).
    destruct Hresult as [astTree' Hresult].
    rewrite Hresult. f_equal. exact (Hreturns astTree' Hresult).
Defined.

(* ===================================================================== *)
(** * Rules for traces and readings of the clock *)
(* ===================================================================== *)

Lemma lastEvent_app (l evs : list Event) (ev : Event) :
  lastEvent evs = Some ev -> lastEvent (l ++ evs) = Some ev.
Proof.
  unfold lastEvent. rewrite rev_app_distr.
  destruct (rev evs) as [| ev' rest]; [discriminate |].
  intros H. exact H.
Qed.





Section RunsRules.
Variable S : Type.
Variable c : nat -> Z.
Variable e : string -> option string.

Lemma Runs_ret {A : Type} (t : nat) (a : A)
  (P : Result A -> list Event -> nat -> Prop) :
  P (Ok a) [] 0 -> Runs (S := S) c e t (ret a) P.
Proof.
  intros HP w Hc He Ht. cbn. split; [exact Hc |]. split; [exact He |].
  exists [], 0. rewrite app_nil_r. auto.
Qed.

Lemma Runs_emit (t : nat) (ev : Event)
  (P : Result unit -> list Event -> nat -> Prop) :
  P (Ok tt) [ev] 0 -> Runs (S := S) c e t (emit ev) P.
Proof.
  intros HP w Hc He Ht. cbn. split; [exact Hc |]. split; [exact He |].
  exists [ev], 0. auto.
Qed.

Lemma Runs_call {A : Type} (t : nat) (f : Service S A)
  (record : Result A -> Call) (P : Result A -> list Event -> nat -> Prop) :
  (forall s, P (fst (f s)) [Called (record (fst (f s)))] 0) ->
  Runs c e t (call f record) P.
Proof.
  intros HP w Hc He Ht. unfold call. specialize (HP (services w)).
  destruct (f (services w)) as [r s']. cbn in *.
  split; [exact Hc |]. split; [exact He |].
  exists [Called (record r)], 0. auto.
Qed.

Lemma Runs_Date_now (t : nat) (P : Result Z -> list Event -> nat -> Prop) :
  P (Ok (c t)) [] 1 -> Runs (S := S) c e t Date_now P.
Proof.
  intros HP w Hc He Ht. cbn. split; [exact Hc |]. split; [exact He |].
  exists [], 1. rewrite app_nil_r, Hc, Ht. auto.
Qed.

Lemma Runs_process_env (t : nat) (name : string)
  (P : Result (option string) -> list Event -> nat -> Prop) :
  P (Ok (e name)) [] 0 -> Runs (S := S) c e t (process_env name) P.
Proof.
  intros HP w Hc He Ht. cbn. split; [exact Hc |]. split; [exact He |].
  exists [], 0. rewrite app_nil_r, He. auto.
Qed.

Lemma Runs_bind {A B : Type} (t : nat) (m : M S A) (k : A -> M S B)
  (P : Result B -> list Event -> nat -> Prop) :
  Runs c e t m
    (fun r evs1 n1 =>
       match r with
       | Ok a => Runs c e (n1 + t) (k a)
                   (fun r' evs2 n2 => P r' (evs1 ++ evs2) (n2 + n1))
       | Throw x => P (Throw x) evs1 n1
       end) ->
  Runs c e t (bind m k) P.
Proof.
  intros Hm w Hc He Ht.
  destruct (Hm w Hc He Ht) as (Hc' & He' & evs1 & n1 & Htrace & Hticks & Hpost).
  unfold bind. destruct (m w) as [[a | x] w']; cbn [fst snd] in *.
  - destruct (Hpost w' Hc' He' Hticks)
      as (Hc'' & He'' & evs2 & n2 & Htrace' & Hticks' & HP).
    split; [exact Hc'' |]. split; [exact He'' |].
    exists (evs1 ++ evs2), (n2 + n1). split; [| split; [| exact HP]].
    + rewrite Htrace', Htrace, app_assoc. reflexivity.
    + rewrite Hticks'. apply Nat.add_assoc.
  - split; [exact Hc' |]. split; [exact He' |].
    exists evs1, n1. auto.
Qed.
End RunsRules.

(** Walking a computation of the driver with the rules above. *)
Ltac runs_step :=
  cbn beta iota; cbn [Nat.add];
  lazymatch goal with
  | |- Runs _ _ _ (bind _ _) _ => apply Runs_bind
  | |- Runs _ _ _ (ret _) _ => apply Runs_ret
  | |- Runs _ _ _ (emit _) _ => apply Runs_emit
  | |- Runs _ _ _ (logger_info _ _) _ => apply Runs_emit
  | |- Runs _ _ _ (logger_warn _ _) _ => apply Runs_emit
  | |- Runs _ _ _ (logger_success _ _) _ => apply Runs_emit
  | |- Runs _ _ _ (console_log _) _ => apply Runs_emit
  | |- Runs _ _ _ (call ?f _) _ =>
      apply Runs_call;
      let s := fresh "s" in
      intros s; destruct (f s) as [[? | ?] ?] eqn:?; cbn [fst]
  | |- Runs _ _ _ Date_now _ => apply Runs_Date_now
  | |- Runs _ _ _ (process_env _) _ => apply Runs_process_env
  | |- Runs _ _ _ (if ?b then _ else _) _ => destruct b eqn:?
  | |- Runs _ _ _ _ _ =>
      progress unfold JavaScriptObfuscator.obfuscate,
        JavaScriptObfuscator.pipeline,
        JavaScriptObfuscator.runCodeTransformationStage,
        JavaScriptObfuscator.runNodeTransformationStage,
        JavaScriptObfuscator.parseCode,
        JavaScriptObfuscator.transformAstTree,
        JavaScriptObfuscator.generateCode,
        JavaScriptObfuscator.getObfuscationResult
  end.

Ltac runs_run := repeat runs_step; cbn beta iota; cbn [Nat.add app].

(* ===================================================================== *)
(** * The protocol of the driver *)
(* ===================================================================== *)

Section DriverProtocol.
Variable S : Type.
Variable codeTransformersRunner : ICodeTransformersRunner S.
Variable nodeTransformersRunner : INodeTransformersRunner S.
Variable randomGenerator : IRandomGenerator S.
Variable options : IOptions.
Variable EcmaVersion_ecmaVersion : EcmaVersion.
Variable ASTParserFacade_parse : string -> AcornOptions -> Service S Node.
Variable escodegen_generate :
  Node -> GenerateOptions -> Service S EscodegenOutput.
Variable Utils_buildVersionMessage : option string -> option string -> string.
Variable guards : NodeGuards.

Local Notation "'obfuscate'" :=
  (JavaScriptObfuscator.obfuscate codeTransformersRunner
     nodeTransformersRunner randomGenerator options EcmaVersion_ecmaVersion
     ASTParserFacade_parse escodegen_generate Utils_buildVersionMessage
     guards).
Local Notation "'isEmptyAstTree'" :=
  (JavaScriptObfuscator.isEmptyAstTree guards).
Local Notation "'parseOptions'" :=
  (JavaScriptObfuscator.parseOptions EcmaVersion_ecmaVersion).
Local Notation "'codeTransformersList'" :=
  JavaScriptObfuscator.codeTransformersList.
Local Notation "'nodeTransformersList'" :=
  JavaScriptObfuscator.nodeTransformersList.

(** One call of [obfuscate], from a world with clock [c] and environment
    [e] in which the clock has been read [t] times: what is known of the
    outcome, of the trace and of the readings of the clock on every path
    through the call. *)
Lemma obfuscate_runs (sourceCode : JSValue)
  (c : nat -> Z) (e : string -> option string) (t : nat) :
  Runs c e t (obfuscate sourceCode)
    (fun r evs n =>
       (exceptions evs = match r with
                         | Ok _ => []
                         | Throw x => [x]
                         end
        /\ completions evs = match r with
                             | Ok _ => 1
                             | Throw _ => 0
                             end
        /\ match r with
           | Ok _ =>
               n = 2
               /\ lastEvent evs
                  = Some (LoggerSuccess
                            LoggingMessage.ObfuscationCompleted
                            [VNumber (QArith_base.Qmake
                                        (c (Datatypes.S t) - c t) 1000)])
           | Throw x =>
               n = 1
               /\ exists call,
                   lastEvent evs = Some (Called call)
                   /\ raisedBy call = Some x
           end)
       /\ (Prefix (collaborators evs)
                  (pipelineOrder (List.length (stagesRun evs)))
           /\ (forall result, r = Ok result ->
               collaborators evs
               = pipelineOrder (List.length (stagesRun evs))))
       /\ (treesChained None evs /\ stagesAnnounced evs)
       /\ (exists seedOutcome rest,
              evs = LoggerInfo LoggingMessage.Version
                      [VString (Utils_buildVersionMessage
                                  (e "VERSION") (e "BUILD_TIMESTAMP"))]
                    :: LoggerInfo LoggingMessage.ObfuscationStarted []
                    :: Called (GetInputSeed seedOutcome)
                    :: rest
              /\ forall seed, seedOutcome = Ok seed ->
                 exists rest',
                   rest = LoggerInfo LoggingMessage.RandomGeneratorSeed
                            [VString seed] :: rest')
       /\ ((forall code names stage r',
               In (Called (CodeTransform code names stage r')) evs ->
               names = codeTransformersList
               /\ ((stage = CodeTransformationStage.PreparingTransformers
                    /\ code = JavaScriptObfuscator.coerceSource sourceCode)
                   \/ (stage = CodeTransformationStage.FinalizingTransformers
                       /\ exists ast params raw,
                           In (Called (Generate ast params (Ok raw))) evs
                           /\ code = raw_code raw)))
           /\ (forall src opts r',
                  In (Called (Parse src opts r')) evs ->
                  opts = parseOptions
                  /\ In (Called (CodeTransform
                                   (JavaScriptObfuscator.coerceSource
                                      sourceCode)
                                   codeTransformersList
                                   CodeTransformationStage.PreparingTransformers
                                   (Ok src))) evs)
           /\ (forall result, r = Ok result ->
               exists ast params raw final,
                 In (Called (Generate ast params (Ok raw))) evs
                 /\ In (Called (CodeTransform
                                  (raw_code raw) codeTransformersList
                                  CodeTransformationStage.FinalizingTransformers
                                  (Ok final))) evs
                 /\ result
                    = mkObfuscationResult
                        final
                        (JavaScriptObfuscator.mapToString (raw_map raw))))
       /\ ((forall ast names astTree,
               In (Called (NodeTransform
                             ast names NodeTransformationStage.Initializing
                             (Ok astTree))) evs ->
               emptySourceWarnings evs
               = if isEmptyAstTree astTree then 1 else 0)
           /\ ((forall ast names astTree,
                   ~ In (Called (NodeTransform
                                   ast names
                                   NodeTransformationStage.Initializing
                                   (Ok astTree))) evs) ->
               emptySourceWarnings evs = 0))).
Proof.
  match goal with
  | |- Runs _ _ _ _ ?P => set (post := P)
  end.
  runs_run.
  all: subst post; cbn beta iota; cbn [Nat.add app].
  all: split;
    [ split; [reflexivity |]; split; [reflexivity |];
      split; [reflexivity |];
      first [reflexivity | eexists; split; reflexivity] |].
  all: split;
    [ split;
      [ unfold Prefix; cbn; eexists; reflexivity
      | intros result Hresult; first [discriminate Hresult | reflexivity] ] |].
  all: split; [split; cbn; repeat split |].
  all: split;
    [ do 2 eexists; split;
      [ reflexivity
      | intros seed Hseed;
        first [discriminate Hseed
              | injection Hseed as <-; eexists; reflexivity] ] |].
  all: split;
    [ split; [| split];
      [ intros code names stage r' Hin; split_In Hin;
        injection Hin as <- <- <- <-; (split; [reflexivity |]);
        first [ left; split; reflexivity
              | right; split; [reflexivity |];
                do 3 eexists; split; [find_event | reflexivity] ]
      | intros src opts r' Hin; split_In Hin;
        injection Hin as <- <- <-; (split; [reflexivity |]); find_event
      | intros result Hresult;
        first [ discriminate Hresult
              | injection Hresult as <-;
                do 4 eexists; split; [find_event |];
                split; [find_event | reflexivity] ] ] |].
  all: split;
    [ intros ast names astTree Hin; split_In Hin;
      injection Hin as <- <- <-; rewrite_flags; reflexivity
    | intros Hnone;
      first [ reflexivity
            | exfalso; eapply Hnone; find_event ] ].
Qed.
Local Ltac run_from sourceCode w :=
  destruct (@obfuscate_runs sourceCode (clock w) (env w) (ticks w) w
              eq_refl eq_refl eq_refl)
    as (Hclock & Henv & evs & n & Htrace & Hticks
        & Houtcome & Horder & Htrees & Hopening & Hcode & Hwarnings).

(** X7.  [obfuscate] does not swallow an exception of the random
    generator, the code runner, the parser, the node runner or the
    generator.  If one of their calls raises [x], then [obfuscate]
    raises [x], that call is the last thing that happened and the only
    one that raised, and no success was logged.  A success is logged at
    most once.  If the call returns, none of these calls raised and the
    success was logged. *)
Theorem collaborator_exceptions_end_the_call
  (sourceCode : JSValue) (w : World S) :
  exists evs,
    trace (snd (obfuscate sourceCode w)) = trace w ++ evs
    /\ completions evs <= 1
    /\ (forall x,
          In x (exceptions evs) ->
          fst (obfuscate sourceCode w) = Throw x
          /\ exceptions evs = [x]
          /\ completions evs = 0
          /\ exists call,
              lastEvent evs = Some (Called call)
              /\ raisedBy call = Some x)
    /\ (forall result,
          fst (obfuscate sourceCode w) = Ok result ->
          exceptions evs = []
          /\ completions evs = 1).
Proof.
  run_from sourceCode w. exists evs. split; [exact Htrace |].
  destruct Houtcome as (Hexceptions & Hcompletions & Hlast).
  destruct (fst (obfuscate sourceCode w)) as [result | x'].
  - split; [rewrite Hcompletions; apply Nat.le_refl |].
    split; [rewrite Hexceptions; intros x [] |].
    intros result' _. split; assumption.
  - split; [rewrite Hcompletions; apply Nat.le_0_l |].
    split; [| discriminate].
    rewrite Hexceptions. intros x [<- | []].
    destruct Hlast as [_ Hlast]. auto.
Qed.

(** X8.  The text goes through the two code stages around the rest of
    the call.  Every call of the code runner is made with the list of
    code transformers, and is either the PreparingTransformers stage on
    the source as coerced, or the FinalizingTransformers stage on the
    code of a generator output; the parser is called with the parse
    options on the text the PreparingTransformers stage returned; and
    when the call returns, the code of the result is what the
    FinalizingTransformers stage returned for the generator's code,
    and the map of the result is the generator's map as a string. *)
Theorem code_stages_wrap_the_pipeline
  (sourceCode : JSValue) (w : World S) :
  exists evs,
    trace (snd (obfuscate sourceCode w)) = trace w ++ evs
    /\ (forall code names stage r,
           In (Called (CodeTransform code names stage r)) evs ->
           names = codeTransformersList
           /\ ((stage = CodeTransformationStage.PreparingTransformers
                /\ code = JavaScriptObfuscator.coerceSource sourceCode)
               \/ (stage = CodeTransformationStage.FinalizingTransformers
                   /\ exists ast params raw,
                       In (Called (Generate ast params (Ok raw))) evs
                       /\ code = raw_code raw)))
    /\ (forall src opts r,
           In (Called (Parse src opts r)) evs ->
           opts = parseOptions
           /\ In (Called (CodeTransform
                            (JavaScriptObfuscator.coerceSource sourceCode)
                            codeTransformersList
                            CodeTransformationStage.PreparingTransformers
                            (Ok src))) evs)
    /\ (forall result,
           fst (obfuscate sourceCode w) = Ok result ->
           exists ast params raw final,
             In (Called (Generate ast params (Ok raw))) evs
             /\ In (Called (CodeTransform
                              (raw_code raw) codeTransformersList
                              CodeTransformationStage.FinalizingTransformers
                              (Ok final))) evs
             /\ result
                = mkObfuscationResult
                    final
                    (JavaScriptObfuscator.mapToString (raw_map raw))).
Proof.
  run_from sourceCode w. exists evs. split; [exact Htrace |]. exact Hcode.
Qed.

(** X9.  The tree is handed from collaborator to collaborator: no node
    stage runs before the parser has returned a tree; the first node
    stage is given the parser's tree and every later one the tree the
    stage before it returned; every node stage is given the list of all
    node transformers; and the generator is given the tree the last node
    stage returned. *)
Theorem tree_is_handed_from_stage_to_stage
  (sourceCode : JSValue) (w : World S) :
  exists evs,
    trace (snd (obfuscate sourceCode w)) = trace w ++ evs
    /\ treesChained None evs.
Proof.
  run_from sourceCode w. exists evs. split; [exact Htrace |].
  apply Htrees.
Qed.

(** X14.  Every stage is announced right before it runs: each call of
    the code runner and of the node runner comes directly after the
    logger was told of that very stage, and the logger is told of a
    stage only directly before the runner is called for it. *)
Theorem every_stage_is_announced_right_before_it_runs
  (sourceCode : JSValue) (w : World S) :
  exists evs,
    trace (snd (obfuscate sourceCode w)) = trace w ++ evs
    /\ stagesAnnounced evs.
Proof.
  run_from sourceCode w. exists evs. split; [exact Htrace |].
  apply Htrees.
Qed.

(** X10.  The collaborators are called in one fixed order: the random
    generator, the code runner, the parser, the node runner once per
    node stage, the generator, the code runner.  The calls of any run
    are a prefix of that order; those of a run that returns are the
    whole of it, so that the random generator, the parser and the
    generator are called once and the code runner twice. *)
Theorem collaborators_are_called_in_pipeline_order
  (sourceCode : JSValue) (w : World S) :
  exists evs,
    trace (snd (obfuscate sourceCode w)) = trace w ++ evs
    /\ Prefix (collaborators evs)
              (pipelineOrder (List.length (stagesRun evs)))
    /\ (forall result,
           fst (obfuscate sourceCode w) = Ok result ->
           collaborators evs
           = pipelineOrder (List.length (stagesRun evs))).
Proof.
  run_from sourceCode w. exists evs. split; [exact Htrace |]. exact Horder.
Qed.


(** X12.  Every call opens the same way: the version message built from
    the environment variables VERSION and BUILD_TIMESTAMP is logged,
    then ObfuscationStarted, then the random generator is asked for the
    input seed; and if it answers, the seed it answered with is logged
    next. *)
Theorem call_opens_with_version_and_seed
  (sourceCode : JSValue) (w : World S) :
  exists seedOutcome rest,
    trace (snd (obfuscate sourceCode w))
    = trace w
      ++ LoggerInfo LoggingMessage.Version
           [VString (Utils_buildVersionMessage
                       (env w "VERSION") (env w "BUILD_TIMESTAMP"))]
      :: LoggerInfo LoggingMessage.ObfuscationStarted []
      :: Called (GetInputSeed seedOutcome)
      :: rest
    /\ forall seed, seedOutcome = Ok seed ->
       exists rest',
         rest = LoggerInfo LoggingMessage.RandomGeneratorSeed
                  [VString seed] :: rest'.
Proof.
  run_from sourceCode w. destruct Hopening as (seedOutcome & rest & -> & Hseed).
  exists seedOutcome, rest. split; [exact Htrace | exact Hseed].
Qed.

(** X13.  The EmptySourceCode warning is logged exactly when the tree
    the Initializing stage returned is found empty, and then once: if
    that stage returned a tree, the number of warnings is 1 if the tree
    is found empty and 0 if not; if that stage did not return, nothing
    is warned. *)
Theorem empty_source_is_warned_exactly_for_an_empty_tree
  (sourceCode : JSValue) (w : World S) :
  exists evs,
    trace (snd (obfuscate sourceCode w)) = trace w ++ evs
    /\ (forall ast names astTree,
           In (Called (NodeTransform
                         ast names NodeTransformationStage.Initializing
                         (Ok astTree))) evs ->
           emptySourceWarnings evs
           = if isEmptyAstTree astTree then 1 else 0)
    /\ ((forall ast names astTree,
            ~ In (Called (NodeTransform
                            ast names NodeTransformationStage.Initializing
                            (Ok astTree))) evs) ->
        emptySourceWarnings evs = 0).
Proof.
  run_from sourceCode w. exists evs. split; [exact Htrace |]. exact Hwarnings.
Qed.
End DriverProtocol.

(* ===================================================================== *)
(** * The protocol on concrete inputs *)
(* ===================================================================== *)

(** A source the parser of [Demo] rejects: the parser's exception is on
    the trace, so the call raises it, and no success is logged. *)
Lemma collaborator_exceptions_end_the_call_witness :
  In (ParseError "Unexpected token")
     (exceptions
        (trace (snd (demo_obfuscate (JSString "(") (Demo.world 0)))))
  /\ fst (demo_obfuscate (JSString "(") (Demo.world 0))
     = Throw (ParseError "Unexpected token")
  /\ completions
       (trace (snd (demo_obfuscate (JSString "(") (Demo.world 0))))
     = 0.
Proof.
  pose proof (@collaborator_exceptions_end_the_call
                Demo.State Demo.codeTransformersRunner
                Demo.nodeTransformersRunner Demo.randomGenerator Demo.options
                (EcmaYear 2020) Demo.parse Demo.generate
                Demo.buildVersionMessage Demo.guards
                (JSString "(") (Demo.world 0))
    as (evs & Htrace & _ & Hraises & _).
  assert (Hin : In (ParseError "Unexpected token") (exceptions evs)).
  { vm_compute in Htrace. subst evs. left. reflexivity. }
  rewrite Htrace. split; [exact Hin |].
  destruct (Hraises _ Hin) as (Houtcome & _ & Hcompletions & _).
  split; [exact Houtcome | exact Hcompletions].
Defined.

(** A source with a hashbang line: the code of the result is what the
    finalizing code stage made of the generator's code. *)
Lemma code_stages_wrap_the_pipeline_witness :
  exists raw final,
    In (Called (CodeTransform
                  (raw_code raw) JavaScriptObfuscator.codeTransformersList
                  CodeTransformationStage.FinalizingTransformers (Ok final)))
       (trace (snd (demo_obfuscate (JSString Demo.hashbangSource)
                                   (Demo.world 0))))
    /\ fst (demo_obfuscate (JSString Demo.hashbangSource) (Demo.world 0))
       = Ok (mkObfuscationResult
               final (JavaScriptObfuscator.mapToString (raw_map raw))).
Proof.
  pose proof (@code_stages_wrap_the_pipeline
                Demo.State Demo.codeTransformersRunner
                Demo.nodeTransformersRunner Demo.randomGenerator Demo.options
                (EcmaYear 2020) Demo.parse Demo.generate
                Demo.buildVersionMessage Demo.guards
                (JSString Demo.hashbangSource) (Demo.world 0))
    as (evs & Htrace & _ & _ & Hreturns).
  assert (Hresult :
            exists result,
              fst (demo_obfuscate (JSString Demo.hashbangSource)
                                  (Demo.world 0))
              = Ok result)
    by (vm_compute; eexists; reflexivity).
  destruct Hresult as [result Hresult].
  destruct (Hreturns result Hresult)
    as (ast & params & raw & final & _ & Hin & ->).
  exists raw, final. split; [| exact Hresult].
  rewrite Htrace. exact Hin.
Defined.

(** One declaration under the options of [Demo]: three calls, eight node
    stages, two calls. *)
Lemma collaborators_are_called_in_pipeline_order_witness :
  collaborators
    (trace (snd (demo_obfuscate (JSString "var a=1;") (Demo.world 0))))
  = [RandomGenerator; CodeRunner; Parser]
    ++ repeat NodeRunner 8
    ++ [Generator; CodeRunner].
Proof.
  pose proof (@collaborators_are_called_in_pipeline_order
                Demo.State Demo.codeTransformersRunner
                Demo.nodeTransformersRunner Demo.randomGenerator Demo.options
                (EcmaYear 2020) Demo.parse Demo.generate
                Demo.buildVersionMessage Demo.guards
                (JSString "var a=1;") (Demo.world 0))
    as (evs & Htrace & _ & Hreturns).
  assert (Hresult :
            fst (demo_obfuscate (JSString "var a=1;") (Demo.world 0))
            = Ok (mkObfuscationResult "VariableDeclaration"
                                      "sourceMap|var a=1;"))
    by (vm_compute; reflexivity).
  rewrite Htrace. cbn [trace Demo.world app].
  rewrite (Hreturns _ Hresult).
  vm_compute in Htrace. subst evs. reflexivity.
Defined.


(** No VERSION in the environment and a generator seeded with "seed":
    the fourth event is the seed. *)
Lemma call_opens_with_version_and_seed_witness :
  exists rest,
    trace (snd (demo_obfuscate (JSString "var a=1;") (Demo.world 0)))
    = LoggerInfo LoggingMessage.Version [VString "unknown"]
      :: LoggerInfo LoggingMessage.ObfuscationStarted []
      :: Called (GetInputSeed (Ok "seed"))
      :: LoggerInfo LoggingMessage.RandomGeneratorSeed [VString "seed"]
      :: rest.
Proof.
  pose proof (@call_opens_with_version_and_seed
                Demo.State Demo.codeTransformersRunner
                Demo.nodeTransformersRunner Demo.randomGenerator Demo.options
                (EcmaYear 2020) Demo.parse Demo.generate
                Demo.buildVersionMessage Demo.guards
                (JSString "var a=1;") (Demo.world 0))
    as (seedOutcome & rest & Htrace & Hseed).
  assert (HseedOutcome : seedOutcome = Ok "seed").
  { vm_compute in Htrace. congruence. }
  destruct (Hseed "seed" HseedOutcome) as [rest' ->].
  exists rest'. rewrite Htrace, HseedOutcome. reflexivity.
Defined.

(** The empty source: the parser of [Demo] returns the empty program,
    the Initializing stage returns it, and there is one warning. *)
Lemma empty_source_is_warned_exactly_for_an_empty_tree_witness :
  emptySourceWarnings
    (trace (snd (demo_obfuscate (JSString "") (Demo.world 0))))
  = 1.
Proof.
  pose proof (@empty_source_is_warned_exactly_for_an_empty_tree
                Demo.State Demo.codeTransformersRunner
                Demo.nodeTransformersRunner Demo.randomGenerator Demo.options
                (EcmaYear 2020) Demo.parse Demo.generate
                Demo.buildVersionMessage Demo.guards
                (JSString "") (Demo.world 0))
    as (evs & Htrace & Hreturned & _).
  rewrite Htrace. cbn [trace Demo.world app].
  rewrite (Hreturned Demo.emptyProgram
                     JavaScriptObfuscator.nodeTransformersList
                     Demo.emptyProgram).
  - reflexivity.
  - vm_compute in Htrace. subst evs. find_event.
Defined.

(* ===================================================================== *)
(** * The parameters of the generator *)
(* ===================================================================== *)

Section GeneratorParameters.
Variable S : Type.
Variable codeTransformersRunner : ICodeTransformersRunner S.
Variable nodeTransformersRunner : INodeTransformersRunner S.
Variable randomGenerator : IRandomGenerator S.
Variable options : IOptions.
Variable EcmaVersion_ecmaVersion : EcmaVersion.
Variable ASTParserFacade_parse : string -> AcornOptions -> Service S Node.
Variable escodegen_generate :
  Node -> GenerateOptions -> Service S EscodegenOutput.
Variable Utils_buildVersionMessage : option string -> option string -> string.
Variable guards : NodeGuards.

Local Notation "'obfuscate'" :=
  (JavaScriptObfuscator.obfuscate codeTransformersRunner
     nodeTransformersRunner randomGenerator options EcmaVersion_ecmaVersion
     ASTParserFacade_parse escodegen_generate Utils_buildVersionMessage
     guards).
Local Notation "'generateParams'" :=
  (JavaScriptObfuscator.generateParams options).

(** What the object literal of [generateCode] holds under any options
    and for any text. *)
Lemma generateParams_invariants (sourceCode : string) :
  gen_comment (generateParams sourceCode) = true
  /\ gen_verbatim (generateParams sourceCode) = "x-verbatim-property"
  /\ gen_sourceMapWithCode (generateParams sourceCode) = true
  /\ gen_sourceMap (generateParams sourceCode) <> Some ""
  /\ (gen_sourceContent (generateParams sourceCode) <> None ->
      gen_sourceMap (generateParams sourceCode) = Some "sourceMap"
      /\ sourceMap options = true
      /\ sourceMapSourcesMode options = SourceMapSourcesMode.SourcesContent).
Proof.
  unfold JavaScriptObfuscator.generateParams.
  destruct (sourceMap options), (sourceMapSourcesMode options); cbn;
    repeat split; try discriminate; try congruence.
  destruct (inputFileName options); discriminate.
Qed.

(** X15.  Every call of the generator carries the static defaults
    untouched by what the options add: [comment] is true, [verbatim] is
    ["x-verbatim-property"] and [sourceMapWithCode] is true.  The name
    given as [sourceMap] is never the empty string, and a
    [sourceContent] is given only together with the name ["sourceMap"],
    with source maps enabled in the mode SourcesContent. *)
Theorem generator_parameters_keep_the_static_defaults
  (sourceCode : JSValue) (w : World S) :
  exists evs,
    trace (snd (obfuscate sourceCode w)) = trace w ++ evs
    /\ forall ast params r,
        In (Called (Generate ast params r)) evs ->
        gen_comment params = true
        /\ gen_verbatim params = "x-verbatim-property"
        /\ gen_sourceMapWithCode params = true
        /\ gen_sourceMap params <> Some ""
        /\ (gen_sourceContent params <> None ->
            gen_sourceMap params = Some "sourceMap"
            /\ sourceMap options = true
            /\ sourceMapSourcesMode options
               = SourceMapSourcesMode.SourcesContent).
Proof.
  destruct (@obfuscate_generator_calls
              S codeTransformersRunner nodeTransformersRunner
              randomGenerator options EcmaVersion_ecmaVersion
              ASTParserFacade_parse escodegen_generate
              Utils_buildVersionMessage guards sourceCode w)
    as (evs & Htrace & Hcalls & _).
  exists evs. split; [exact Htrace |].
  intros ast params r Hin.
  destruct (Hcalls ast params r Hin) as (prepared & _ & ->).
  apply generateParams_invariants.
Qed.
End GeneratorParameters.

(** The call of the generator under the options of [Demo], which ask for
    a source map with its sources: the defaults are there, and the name
    is ["sourceMap"]. *)
Lemma generator_parameters_keep_the_static_defaults_witness :
  exists ast params r,
    In (Called (Generate ast params r))
       (trace (snd (demo_obfuscate (JSString "var a=1;") (Demo.world 0))))
    /\ gen_comment params = true
    /\ gen_sourceMap params = Some "sourceMap".
Proof.
  pose proof (@generator_parameters_keep_the_static_defaults
                Demo.State Demo.codeTransformersRunner
                Demo.nodeTransformersRunner Demo.randomGenerator Demo.options
                (EcmaYear 2020) Demo.parse Demo.generate
                Demo.buildVersionMessage Demo.guards
                (JSString "var a=1;") (Demo.world 0))
    as (evs & Htrace & Hcalls).
  assert (Hin :
            exists ast params r,
              In (Called (Generate ast params r)) evs
              /\ gen_sourceContent params <> None).
  { vm_compute in Htrace. subst evs.
    do 3 eexists. split; [find_event | discriminate]. }
  destruct Hin as (ast & params & r & Hin & Hcontent).
  exists ast, params, r.
  destruct (Hcalls ast params r Hin) as (Hcomment & _ & _ & _ & Hname).
  split; [rewrite Htrace; exact Hin |].
  split; [exact Hcomment |].
  apply (Hname Hcontent).
Defined.
